(** * Event storage service of sentry: columns, queries and node binding

  A shallow embedding of [src/sentry/eventstore/base.py]:

  - the [Columns] enumeration with the two column lists of
    [EventStorage];
  - the Python objects [bind_nodes] works on (events whose attributes
    refer to [NodeData] objects living in a shared heap) and
    [bind_nodes] itself, in a state-and-exception monad that also logs
    every [nodestore.get_multi] call;
  - the abstract query methods of [EventStorage], which raise
    [NotImplementedError], and next to them the query backend the
    specification describes. *)

From Stdlib Require Import ZArith Lia Ascii String DecimalString.
From stdpp Require Import base option list strings gmap sorting.

Local Open Scope string_scope.
Local Open Scope Z_scope.

(** ** The column catalogue *)

Module Columns.

(** [class Columns(Enum)] *)
Inductive t : Set :=
| event_id | group_id | project_id | timestamp
| culprit | location | message | platform | title | type
| tags_key | tags_value
| email | ip_address | user_id | username.

#[global] Instance eq_dec : EqDecision t.
Proof. solve_decision. Defined.

(** The value of each member of the enumeration. *)
Definition value (c : t) : string :=
  match c with
  | event_id => "event_id"
  | group_id => "group_id"
  | project_id => "project_id"
  | timestamp => "timestamp"
  | culprit => "culprit"
  | location => "location"
  | message => "message"
  | platform => "platform"
  | title => "title"
  | type => "type"
  | tags_key => "tags.key"
  | tags_value => "tags.value"
  | email => "email"
  | ip_address => "ip_address"
  | user_id => "user_id"
  | username => "username"
  end.

End Columns.

(** [EventStorage.minimal_columns] *)
Definition minimal_columns : list Columns.t :=
  [ Columns.event_id; Columns.group_id; Columns.project_id; Columns.timestamp ].

(** [EventStorage.full_columns] *)
Definition full_columns : list Columns.t :=
  minimal_columns ++
  [ Columns.culprit; Columns.location; Columns.message; Columns.platform;
    Columns.title; Columns.type;
    Columns.tags_key; Columns.tags_value;
    Columns.email; Columns.ip_address; Columns.user_id; Columns.username ].

(** ** Python objects

    An event is a Python object; the attributes of an event that hold a
    [NodeData] hold a reference to it.  The [NodeData] objects live in a
    heap, so that two entries of a list that refer to one object see each
    other's updates. *)

(** A node id, as Python has it: [None] or a string. *)
Abbreviation node_id := (option string) (only parsing).

(** The body of an event, a dict. *)
Abbreviation Body := (gmap string string) (only parsing).

(** [NodeData]: the node id and the body once it is bound ([None]
    before). *)
Record NodeData : Type := mkNodeData {
  nd_id : node_id;
  nd_data : option Body
}.

(** [Event]: the columns that identify and order it, further column
    values, and the attributes that refer to a [NodeData]. *)
Record Event : Type := mkEvent {
  ev_project_id : Z;
  ev_event_id : string;
  ev_group_id : option Z;
  ev_timestamp : Z;
  ev_extra : list (Columns.t * string);
  ev_attrs : gmap string nat
}.

(** The exceptions of this module.  [InvalidReference] stands for the use
    of a reference to no object, which Python cannot produce. *)
Inductive Exn : Set :=
| NotImplementedError
| AttributeError (name : string)
| InvalidReference.

Inductive Outcome (A : Type) : Type :=
| Returned (a : A)
| Raised (e : Exn).
Arguments Returned {A} a.
Arguments Raised {A} e.

(** The mutable world: the heap of [NodeData] objects and the log of the
    key lists handed to [nodestore.get_multi], oldest first. *)
Record World : Type := mkWorld {
  heap : gmap nat NodeData;
  get_multi_calls : list (list node_id)
}.

(** Computations that read and update the world and may raise. *)
Definition M (A : Type) : Type := World -> Outcome A * World.

#[global] Instance M_ret : MRet M := fun A a w => (Returned a, w).

#[global] Instance M_bind : MBind M := fun A B k m w =>
  match m w with
  | (Returned a, w') => k a w'
  | (Raised e, w') => (Raised e, w')
  end.

Definition raise {A : Type} (e : Exn) : M A := fun w => (Raised e, w).

(** [for x in l: body] *)
Fixpoint for_each {A : Type} (l : list A) (body : A -> M unit) : M unit :=
  match l with
  | [] => mret tt
  | x :: rest => _ ← body x; for_each rest body
  end.

(** Truth value of a node id: [None] and the empty string are false. *)
Definition truthy_id (i : node_id) : bool :=
  match i with
  | None => false
  | Some s => negb (String.eqb s "")
  end.

(** [d.get(k)] on the mapping [get_multi] returns, whose values are
    bodies or [None]: [None] when the key is absent. *)
Definition dict_get (d : gmap node_id (option Body)) (k : node_id) : option Body :=
  match d !! k with
  | Some v => v
  | None => None
  end.

(** [x or {}]: [None] and the empty dict are false. *)
Definition or_empty (x : option Body) : Body :=
  match x with
  | Some b => if decide (b = ∅) then ∅ else b
  | None => ∅
  end.

(** [getattr(i, name)] for an attribute that holds a [NodeData]. *)
Definition getattr (i : Event) (name : string) : M nat :=
  match ev_attrs i !! name with
  | Some n => mret n
  | None => raise (AttributeError name)
  end.

(** [n.id] *)
Definition read_id (n : nat) : M node_id := fun w =>
  match heap w !! n with
  | Some d => (Returned (nd_id d), w)
  | None => (Raised InvalidReference, w)
  end.

(** Modelled from the spec: [NodeData.bind_data], which is not part of
    the sources at hand.  Hydration populates the body field of the node
    reference in place; the node id is not touched.  [bind_nodes] passes
    a reference as [ref]; neither the sources at hand nor the description
    of the service say what becomes of it, and a [NodeData] here holds
    the node id and the body only. *)
Definition bind_data (d : NodeData) (data : Body) (ref : option Z) : NodeData :=
  {| nd_id := nd_id d; nd_data := Some data |}.

(** [n.bind_data(data, ref=ref)]: the object is updated in place. *)
Definition node_bind_data (n : nat) (data : Body) (ref : option Z) : M unit := fun w =>
  match heap w !! n with
  | Some d =>
      (Returned tt,
       {| heap := <[n := bind_data d data ref]> (heap w);
          get_multi_calls := get_multi_calls w |})
  | None => (Raised InvalidReference, w)
  end.

Section BindNodes.

(** The two operations [bind_nodes] calls that are not part of the sources
    at hand: the blob store's [get_multi], a mapping from node id to blob
    or [None] for the keys it is given, and [NodeData.get_ref]. *)
Variable get_multi : list node_id -> gmap node_id (option Body).
Variable get_ref : NodeData -> Event -> option Z.

(** [nodestore.get_multi(ids)], logged. *)
Definition nodestore_get_multi (ids : list node_id) : M (gmap node_id (option Body)) :=
  fun w =>
    (Returned (get_multi ids),
     {| heap := heap w; get_multi_calls := get_multi_calls w ++ [ids] |}).

(** [n.get_ref(item)] *)
Definition node_get_ref (n : nat) (item : Event) : M (option Z) := fun w =>
  match heap w !! n with
  | Some d => (Returned (get_ref d item), w)
  | None => (Raised InvalidReference, w)
  end.

(** [[(i, getattr(i, node_name)) for i in object_list
      if getattr(i, node_name).id]]: the condition is evaluated first,
    the pair after it. *)
Fixpoint object_nodes (object_list : list Event) (node_name : string)
  : M (list (Event * nat)) :=
  match object_list with
  | [] => mret []
  | i :: rest =>
      c ← getattr i node_name;
      cid ← read_id c;
      if truthy_id cid then
        n ← getattr i node_name;
        tl ← object_nodes rest node_name;
        mret ((i, n) :: tl)
      else object_nodes rest node_name
  end.

(** [EventStorage.bind_nodes]:
<<
    object_node_list = [(i, getattr(i, node_name))
                        for i in object_list if getattr(i, node_name).id]
    node_ids = [n.id for _, n in object_node_list]
    if not node_ids:
        return
    node_results = nodestore.get_multi(node_ids)
    for item, node in object_node_list:
        data = node_results.get(node.id) or {}
        node.bind_data(data, ref=node.get_ref(item))
>> *)
Definition bind_nodes (object_list : list Event) (node_name : string) : M unit :=
  object_node_list ← object_nodes object_list node_name;
  node_ids ← mapM (fun p : Event * nat => read_id (snd p)) object_node_list;
  match node_ids with
  | [] => mret tt
  | _ :: _ =>
      node_results ← nodestore_get_multi node_ids;
      for_each object_node_list (fun p : Event * nat =>
        let (item, node) := p in
        k ← read_id node;
        let data := or_empty (dict_get node_results k) in
        r ← node_get_ref node item;
        node_bind_data node data r)
  end.

End BindNodes.

(** [bind_nodes(object_list)], with the default [node_name='data']. *)
Definition bind_nodes_default get_multi get_ref (object_list : list Event) : M unit :=
  bind_nodes get_multi get_ref object_list "data".

(** *** What a call reads: the node of an event, its id, the key list *)

(** The [NodeData] an attribute of an event refers to. *)
Definition node_at (w : World) (name : string) (i : Event) : option NodeData :=
  match ev_attrs i !! name with
  | Some n => heap w !! n
  | None => None
  end.

(** Every event of the list has the attribute, and it refers to an object. *)
Definition attrs_ok (w : World) (name : string) (object_list : list Event) : bool :=
  forallb (fun i => match node_at w name i with Some _ => true | None => false end)
          object_list.

(** The event has a node id. *)
Definition has_node_id (w : World) (name : string) (i : Event) : bool :=
  match node_at w name i with
  | Some d => truthy_id (nd_id d)
  | None => false
  end.

(** The node id of the event is [k], and [k] is a node id. *)
Definition carries (w : World) (name : string) (k : node_id) (i : Event) : bool :=
  match node_at w name i with
  | Some d => truthy_id (nd_id d) && bool_decide (nd_id d = k)
  | None => false
  end.

(** The node ids of the events that have one, in the order of the list. *)
Definition key_list (w : World) (name : string) (object_list : list Event)
  : list node_id :=
  omap (fun i => match node_at w name i with
                 | Some d => if truthy_id (nd_id d) then Some (nd_id d) else None
                 | None => None
                 end) object_list.

(** The node id of the event: the id of the [NodeData] its attribute
    refers to. *)
Definition event_node_id (w : World) (name : string) (i : Event) : node_id :=
  match node_at w name i with
  | Some d => nd_id d
  | None => None
  end.

(** The node id of the object [n] refers to. *)
Definition id_at (w : World) (n : nat) : node_id :=
  match heap w !! n with
  | Some d => nd_id d
  | None => None
  end.

(** The events that have a node id, each with the reference to its node. *)
Definition node_pairs (w : World) (name : string) (object_list : list Event)
  : list (Event * nat) :=
  omap (fun i => match ev_attrs i !! name with
                 | Some n => if truthy_id (id_at w n) then Some (i, n) else None
                 | None => None
                 end) object_list.

(** The key lists logged by a run from [w] to [w']. *)
Definition calls_since (w w' : World) : list (list node_id) :=
  drop (length (get_multi_calls w)) (get_multi_calls w').

(** Modelled from the spec: the blob store behind [get_multi], which is
    not part of the sources at hand.  It maps the node ids it has a blob
    for to the blob; the other keys are absent from the answer. *)
Definition blob_store_get_multi (blobs : gmap string Body) (ids : list node_id)
  : gmap node_id (option Body) :=
  list_to_map
    (omap (fun k => match k with
                    | Some s => match blobs !! s with
                                | Some b => Some (k, Some b)
                                | None => None
                                end
                    | None => None
                    end) ids).

(** A blob store for the examples that has nothing and says so: it
    answers [None] for every key. *)
Definition none_get_multi (ids : list node_id) : gmap node_id (option Body) :=
  list_to_map ((fun k => (k, None)) <$> ids).

(** A [get_ref] for the examples: the project of the event. *)
Definition project_ref (_ : NodeData) (item : Event) : option Z :=
  Some (ev_project_id item).

Definition ex_node (k : node_id) : NodeData :=
  {| nd_id := k; nd_data := None |}.

Definition ex_event (eid : string) (t : Z) (n : nat) : Event :=
  {| ev_project_id := 42; ev_event_id := eid; ev_group_id := None;
     ev_timestamp := t; ev_extra := []; ev_attrs := {[ "data" := n ]} |}.

Definition ex_world : World :=
  {| heap := {[ 0%nat := ex_node (Some "a"); 1%nat := ex_node (Some "a");
                2%nat := ex_node None; 3%nat := ex_node (Some "b") ]};
     get_multi_calls := [] |}.

Definition ex_blobs : gmap string Body := {[ "b" := {[ "message" := "boom" ]} ]}.

(** Four events: two share the node id [a], one has no node id, one has
    the node id [b], the only one the blob store has a body for. *)
Definition ex_events : list Event :=
  [ex_event "e1" 100 0; ex_event "e2" 200 1; ex_event "e3" 300 2; ex_event "e4" 400 3].

(** ** The query methods

    The four query methods of [EventStorage] are abstract: each body is
    [raise NotImplementedError], whatever the arguments. *)

(** A condition is a predicate of the backend on a row. *)
Abbreviation Condition := (Event -> bool) (only parsing).

(** A filter key restricts the rows to a list of projects or of groups. *)
Inductive FilterKey : Type :=
| ProjectIn (projects : list Z)
| GroupIn (groups : list Z).

(** [EventStorage.get_event_by_id] *)
Definition get_event_by_id (project_id : Z) (event_id : string)
  (cols : list Columns.t) : M Event :=
  raise NotImplementedError.

(** [EventStorage.get_events] *)
Definition get_events (start end_ : Z) (cols : list Columns.t)
  (conditions : option (list Condition)) (filter_keys : option (list FilterKey))
  (orderby : list string) (limit offset : nat) : M (list Event) :=
  raise NotImplementedError.

(** [EventStorage.get_next_event_id] *)
Definition get_next_event_id (event : Event)
  (conditions : option (list Condition)) (filter_keys : option (list FilterKey))
  : M (Z * string) :=
  raise NotImplementedError.

(** [EventStorage.get_prev_event_id] *)
Definition get_prev_event_id (event : Event)
  (conditions : option (list Condition)) (filter_keys : option (list FilterKey))
  : M (Z * string) :=
  raise NotImplementedError.

(** ** The query backend of the specification

    The class that implements the four methods over the query backend is
    not part of the sources at hand.  [Backend] holds its operations as the
    specification describes them, over an explicit list of stored rows. *)

Module Backend.

(** The failures of the service that a point lookup or a step can
    report. *)
Inductive Error : Set :=
| NotFound
| BackendUnavailable
| InvalidColumnSet.

(** The unique key of a row. *)
Definition key (e : Event) : Z * string := (ev_project_id e, ev_event_id e).

Definition has_key (k : Z * string) (e : Event) : bool :=
  bool_decide (key e = k).

(** The row restricted to the requested columns: the four minimal columns
    make the event itself, the others are kept when requested. *)
Definition project (cols : list Columns.t) (e : Event) : Event :=
  {| ev_project_id := ev_project_id e;
     ev_event_id := ev_event_id e;
     ev_group_id := ev_group_id e;
     ev_timestamp := ev_timestamp e;
     ev_extra := filter (fun cv => bool_decide (fst cv ∈ cols)) (ev_extra e);
     ev_attrs := ev_attrs e |}.

(** A row is in the scope of a filter key. *)
Definition in_scope (fk : FilterKey) (e : Event) : bool :=
  match fk with
  | ProjectIn ps => bool_decide (ev_project_id e ∈ ps)
  | GroupIn gs =>
      match ev_group_id e with
      | Some g => bool_decide (g ∈ gs)
      | None => false
      end
  end.

(** The filter predicate: the conjunction of the conditions, within every
    filter key; [None] restricts nothing. *)
Definition matches (conditions : option (list Condition))
  (filter_keys : option (list FilterKey)) (e : Event) : bool :=
  forallb (fun c => c e) (default [] conditions)
  && forallb (fun fk => in_scope fk e) (default [] filter_keys).

(** The time range, both ends included. *)
Definition in_range (start end_ : Z) (e : Event) : bool :=
  (start <=? ev_timestamp e) && (ev_timestamp e <=? end_).

(** Comparison of two rows on one field of an ordering. *)
Definition compare_field (field : string) (a b : Event) : comparison :=
  if String.eqb field "time" then ev_timestamp a ?= ev_timestamp b
  else if String.eqb field "timestamp" then ev_timestamp a ?= ev_timestamp b
  else if String.eqb field "event_id" then String.compare (ev_event_id a) (ev_event_id b)
  else if String.eqb field "project_id" then ev_project_id a ?= ev_project_id b
  else Eq.

(** One term of an ordering: a field, descending when prefixed by [-]. *)
Definition compare_term (term : string) (a b : Event) : comparison :=
  match term with
  | String "-"%char field => CompOpp (compare_field field a b)
  | _ => compare_field term a b
  end.

(** An ordering compares by its terms, the first one that differs wins. *)
Fixpoint compare_by (orderby : list string) (a b : Event) : comparison :=
  match orderby with
  | [] => Eq
  | term :: rest =>
      match compare_term term a b with
      | Eq => compare_by rest a b
      | c => c
      end
  end.

(** Stable insertion sort by an ordering. *)
Fixpoint insert_by (orderby : list string) (e : Event) (l : list Event) : list Event :=
  match l with
  | [] => [e]
  | x :: rest =>
      match compare_by orderby e x with
      | Lt => e :: x :: rest
      | _ => x :: insert_by orderby e rest
      end
  end.

Fixpoint sort_by (orderby : list string) (l : list Event) : list Event :=
  match l with
  | [] => []
  | x :: rest => insert_by orderby x (sort_by orderby rest)
  end.

(** [a] may stand before [b] in a result ordered per [orderby]. *)
Definition ordered_by (orderby : list string) (a b : Event) : Prop :=
  compare_by orderby a b <> Gt.

(** The defaults of [get_events]. *)
Definition epoch : Z := 0.
Definition default_orderby : list string := ["-time"; "-event_id"].
Definition default_limit : nat := 100.
Definition default_offset : nat := 0.

(** The query with every parameter given. *)
Definition query (store : list Event) (start end_ : Z) (cols : list Columns.t)
  (conditions : option (list Condition)) (filter_keys : option (list FilterKey))
  (orderby : list string) (limit offset : nat) : list Event :=
  map (project cols)
    (take limit (drop offset
       (sort_by orderby
          (filter (fun e => in_range start end_ e && matches conditions filter_keys e)
                  store)))).

(** The parameters of a call of [get_events]; [None] is a parameter the
    caller gave no value for. *)
Record Args : Type := mkArgs {
  a_start : option Z;
  a_end : option Z;
  a_cols : option (list Columns.t);
  a_conditions : option (list Condition);
  a_filter_keys : option (list FilterKey);
  a_orderby : option (list string);
  a_limit : option nat;
  a_offset : option nat
}.

(** A call that gives only the conditions and the filter keys. *)
Definition only_filter (conditions : option (list Condition))
  (filter_keys : option (list FilterKey)) : Args :=
  {| a_start := None; a_end := None; a_cols := None;
     a_conditions := conditions; a_filter_keys := filter_keys;
     a_orderby := None; a_limit := None; a_offset := None |}.

(** Modelled from the spec: [get_events] of the backend class, which is
    not part of the sources at hand.  [now] is the current time at the
    call.  The result holds at most [limit] events, ordered per
    [order_by]. *)
Definition get_events (store : list Event) (now : Z) (a : Args) : list Event :=
  query store
    (default epoch (a_start a))
    (default now (a_end a))
    (default minimal_columns (a_cols a))
    (a_conditions a) (a_filter_keys a)
    (default default_orderby (a_orderby a))
    (default default_limit (a_limit a))
    (default default_offset (a_offset a)).

(** Modelled from the spec: [get_event_by_id] of the backend class, which
    is not part of the sources at hand.  It fails with [NotFound] when no
    row has the pair (project_id, event_id). *)
Definition get_event_by_id (store : list Event) (project_id : Z)
  (event_id : string) (cols : list Columns.t) : Error + Event :=
  match find (has_key (project_id, event_id)) store with
  | Some e => inr (project cols e)
  | None => inl NotFound
  end.

(** The rows a step walks through: the rows the filter lets through, in
    the default order of [get_events] (latest first). *)
Definition listing (store : list Event) (conditions : option (list Condition))
  (filter_keys : option (list FilterKey)) : list Event :=
  sort_by default_orderby (filter (matches conditions filter_keys) store).

(** The row just before the row with key [k] in a list. *)
Fixpoint before_in (k : Z * string) (l : list Event) : option Event :=
  match l with
  | a :: (b :: _) as rest => if has_key k b then Some a else before_in k rest
  | _ => None
  end.

(** The row just after the row with key [k] in a list. *)
Fixpoint after_in (k : Z * string) (l : list Event) : option Event :=
  match l with
  | a :: (b :: _) as rest => if has_key k a then Some b else after_in k rest
  | _ => None
  end.

(** The row with key [k] is the first, or the last, row of a list. *)
Definition is_first (k : Z * string) (l : list Event) : bool :=
  match head l with
  | Some e => has_key k e
  | None => false
  end.

Definition is_last (k : Z * string) (l : list Event) : bool :=
  match last l with
  | Some e => has_key k e
  | None => false
  end.

(** Modelled from the spec: [get_next_event_id] of the backend class,
    which is not part of the sources at hand.  The next event is the
    neighbour of the reference event in the listing on the side of the
    later events (in the scenario of the specification the next of [e2]
    is [e3], which the listing shows just before [e2]); not found when
    there is none. *)
Definition get_next_event_id (store : list Event) (event : Event)
  (conditions : option (list Condition)) (filter_keys : option (list FilterKey))
  : Error + (Z * string) :=
  match before_in (key event) (listing store conditions filter_keys) with
  | Some e => inr (key e)
  | None => inl NotFound
  end.

(** Modelled from the spec: [get_prev_event_id] of the backend class,
    which is not part of the sources at hand.  Symmetric: the neighbour on
    the side of the earlier events. *)
Definition get_prev_event_id (store : list Event) (event : Event)
  (conditions : option (list Condition)) (filter_keys : option (list FilterKey))
  : Error + (Z * string) :=
  match after_in (key event) (listing store conditions filter_keys) with
  | Some e => inr (key e)
  | None => inl NotFound
  end.

(** The scenario of the specification: three events of project 42. *)
Definition e1 : Event := ex_event "e1" 100 0.
Definition e2 : Event := ex_event "e2" 200 1.
Definition e3 : Event := ex_event "e3" 300 2.
Definition scenario : list Event := [e1; e2; e3].

End Backend.

(** ** Python values

    The events and crash reports of [sentry.lang.native.unreal] are trees
    of dicts, lists, strings, numbers, booleans and [None]. *)

#[warnings="-register-all"]
Inductive PyVal : Type :=
| VNone
| VBool (b : bool)
| VInt (z : Z)
| VStr (s : string)
| VList (l : list PyVal)
| VDict (d : gmap string PyVal).

(** Truth value: [None], [False], [0], the empty string, the empty list
    and the empty dict are false. *)
Definition truthy (v : PyVal) : bool :=
  match v with
  | VNone => false
  | VBool b => b
  | VInt z => negb (z =? 0)
  | VStr s => negb (String.eqb s "")
  | VList l => match l with [] => false | _ :: _ => true end
  | VDict d => negb (Nat.eqb (size d) 0)
  end.

(** ** Crash reports of the Unreal engine and of Apple *)

Module Unreal.

(** The exceptions of this module; [Unreal4Error] is what the parser of
    the crash file raises. *)
Inductive Error : Type :=
| KeyError (key : string)
| TypeError
| AttributeError (name : string)
| ValueError
| Unreal4Error.

(** [x.get(k, dflt)]: only a dict has the method. *)
Definition py_get (x : PyVal) (k : string) (dflt : PyVal) : Error + PyVal :=
  match x with
  | VDict d => inr (default dflt (d !! k))
  | _ => inl (AttributeError "get")
  end.

(** The characters of a string, each a string. *)
Definition chars (s : string) : list PyVal :=
  (fun c => VStr (String c "")) <$> list_ascii_of_string s.

(** [for x in v]: a list gives its elements, a string its characters, a
    dict its keys; the other values are not iterable. *)
Definition py_iter (v : PyVal) : Error + list PyVal :=
  match v with
  | VList l => inr l
  | VStr s => inr (chars s)
  | VDict d => inr ((fun kv => VStr kv.1) <$> map_to_list d)
  | _ => inl TypeError
  end.

(** [reversed(v)]: for sequences only, which a dict is not. *)
Definition py_reversed (v : PyVal) : Error + list PyVal :=
  match v with
  | VList l => inr (rev l)
  | VStr s => inr (rev (chars s))
  | _ => inl TypeError
  end.

(** [x[k] = v] for a string [k]: only a dict takes it. *)
Definition py_setitem (x : PyVal) (k : string) (v : PyVal) : Error + PyVal :=
  match x with
  | VDict d => inr (VDict (<[k := v]> d))
  | _ => inl TypeError
  end.

#[global] Instance Res_ret : MRet (sum Error) := fun A a => inr a.

#[global] Instance Res_bind : MBind (sum Error) := fun A B k m =>
  match m with
  | inr a => k a
  | inl e => inl e
  end.

(** Computations on the event, a dict that is updated in place, which may
    raise. *)
Definition St (A : Type) : Type :=
  gmap string PyVal -> (Error + A) * gmap string PyVal.

#[global] Instance St_ret : MRet St := fun A a ev => (inr a, ev).

#[global] Instance St_bind : MBind St := fun A B k m ev =>
  match m ev with
  | (inr a, ev') => k a ev'
  | (inl e, ev') => (inl e, ev')
  end.

(** A computation that does not touch the event. *)
Definition lift {A : Type} (r : Error + A) : St A := fun ev => (r, ev).

(** [event[k] = v] *)
Definition setitem (k : string) (v : PyVal) : St unit :=
  fun ev => (inr tt, <[k := v]> ev).

(** [event[k]] *)
Definition getitem (k : string) : St PyVal := fun ev =>
  match ev !! k with
  | Some v => (inr v, ev)
  | None => (inl (KeyError k), ev)
  end.

(** [event.get(k)] *)
Definition get (k : string) : St PyVal := fun ev => (inr (default VNone (ev !! k)), ev).

(** [for x in l: body] *)
Fixpoint for_each {A : Type} (l : list A) (body : A -> St unit) : St unit :=
  match l with
  | [] => mret tt
  | x :: rest => _ ← body x; for_each rest body
  end.

(** [s.split(sep, maxsplit)] for a separator of one character: the string
    is cut at the first [maxsplit] separators. *)
Fixpoint split (sep : ascii) (maxsplit : nat) (s : string) : list string :=
  match s with
  | EmptyString => [""]
  | String c rest =>
      match maxsplit with
      | S m =>
          if Ascii.eqb c sep then "" :: split sep m rest
          else match split sep maxsplit rest with
               | part :: parts => String c part :: parts
               | [] => [String c ""]
               end
      | O => [s]
      end
  end.

(** [a, b, c = l] *)
Definition unpack3 (l : list string) : Error + (string * string * string) :=
  match l with
  | [a; b; c] => inr (a, b, c)
  | _ => inl ValueError
  end.

(** The three parts of the user id of the crash reporter:
<<
    parts = user_id.split("|", 2)
    login_id, epic_account_id, machine_id = parts + [""] * (3 - len(parts))
>> *)
Definition user_id_parts (user_id : string) : Error + (string * string * string) :=
  let parts := split "|" 2 user_id in
  unpack3 (parts ++ replicate (3 - length parts) "").

Section WithHelpers.

(** What this module calls and the sources at hand do not hold:
    [set_path] and [setdefault_path] of [sentry.utils.safe], which update
    the event along a path of keys, and the parser
    [Unreal4Crash.from_bytes]. *)
Variable set_path : gmap string PyVal -> list string -> PyVal -> gmap string PyVal.
Variable setdefault_path : gmap string PyVal -> list string -> PyVal -> gmap string PyVal.
Variable Crash : Type.
Variable from_bytes : string -> Error + Crash.

(** [set_path(event, *path, value=value)] *)
Definition call_set_path (path : list string) (value : PyVal) : St unit :=
  fun ev => (inr tt, set_path ev path value).

(** [setdefault_path(event, *path, value=value)] *)
Definition call_setdefault_path (path : list string) (value : PyVal) : St unit :=
  fun ev => (inr tt, setdefault_path ev path value).

(** [process_unreal_crash]:
<<
    event["environment"] = environment
    if user_id:
        parts = user_id.split("|", 2)
        login_id, epic_account_id, machine_id = parts + [""] * (3 - len(parts))
        event["user"] = {"id": login_id if login_id else user_id}
        if epic_account_id:
            set_path(event, "tags", "epic_account_id", value=epic_account_id)
        if machine_id:
            set_path(event, "tags", "machine_id", value=machine_id)
    return Unreal4Crash.from_bytes(payload)
>> *)
Definition process_unreal_crash (payload : string) (user_id : option string)
  (environment : PyVal) : St Crash :=
  _ ← setitem "environment" environment;
  _ ← match user_id with
      | Some uid =>
          if truthy (VStr uid) then
            p ← lift (user_id_parts uid);
            let '(login_id, epic_account_id, machine_id) := p in
            _ ← setitem "user"
                  (VDict {[ "id" := VStr (if truthy (VStr login_id)
                                          then login_id else uid) ]});
            _ ← (if truthy (VStr epic_account_id)
                 then call_set_path ["tags"; "epic_account_id"] (VStr epic_account_id)
                 else mret tt);
            if truthy (VStr machine_id)
            then call_set_path ["tags"; "machine_id"] (VStr machine_id)
            else mret tt
          else mret tt
      | None => mret tt
      end;
  lift (from_bytes payload).

(** One breadcrumb of [merge_unreal_logs_event]:
    [{"timestamp": log.get("timestamp"), "category": log.get("component"),
      "message": message}] *)
Definition breadcrumb (log message : PyVal) : Error + PyVal :=
  t ← py_get log "timestamp" VNone;
  c ← py_get log "component" VNone;
  mret (VDict {[ "timestamp" := t; "category" := c; "message" := message ]}).

(** The loop of [merge_unreal_logs_event] on the object [breadcrumbs]
    refers to; the object after the loop is returned with the outcome.
    Only a list has [append]. *)
Fixpoint append_logs (unreal_logs : list PyVal) (breadcrumbs : PyVal)
  : (Error + unit) * PyVal :=
  match unreal_logs with
  | [] => (inr tt, breadcrumbs)
  | log :: rest =>
      match py_get log "message" VNone with
      | inl e => (inl e, breadcrumbs)
      | inr message =>
          if truthy message then
            match breadcrumbs with
            | VList l =>
                match breadcrumb log message with
                | inl e => (inl e, breadcrumbs)
                | inr crumb => append_logs rest (VList (l ++ [crumb]))
                end
            | _ => (inl (AttributeError "append"), breadcrumbs)
            end
          else append_logs rest breadcrumbs
      end
  end.

(** [merge_unreal_logs_event]:
<<
    setdefault_path(event, "breadcrumbs", "values", value=[])
    breadcrumbs = event["breadcrumbs"]["values"]

    for log in unreal_logs:
        message = log.get("message")
        if message:
            breadcrumbs.append({...})
>>
    [breadcrumbs] refers to the object inside the event, which the loop
    updates in place. *)
Definition merge_unreal_logs_event (unreal_logs : list PyVal) : St unit :=
  _ ← call_setdefault_path ["breadcrumbs"; "values"] (VList []);
  holder ← getitem "breadcrumbs";
  match holder with
  | VDict b =>
      match b !! "values" with
      | Some breadcrumbs =>
          fun ev =>
            let (outcome, breadcrumbs') := append_logs unreal_logs breadcrumbs in
            (outcome, <["breadcrumbs" := VDict (<["values" := breadcrumbs']> b)]> ev)
      | None => lift (inl (KeyError "values"))
      end
  | _ => lift (inl TypeError)
  end.

(** One frame of a thread of [merge_apple_crash_report]. *)
Definition frame_entry (frame : PyVal) : Error + PyVal :=
  a ← py_get frame "instruction_addr" VNone;
  m ← py_get frame "module" VNone;
  l ← py_get frame "lineno" VNone;
  f ← py_get frame "filename" VNone;
  mret (VDict {[ "instruction_addr" := a; "package" := m;
                 "lineno" := l; "filename" := f ]}).

(** The dict [merge_apple_crash_report] appends for a thread. *)
Definition thread_entry (thread crashed : PyVal) : Error + PyVal :=
  i ← py_get thread "id" VNone;
  n ← py_get thread "name" VNone;
  fs ← py_get thread "frames" (VList []);
  rfs ← py_reversed fs;
  frames ← mapM frame_entry rfs;
  regs ← py_get thread "registers" VNone;
  mret (VDict {[ "id" := i; "name" := n; "crashed" := crashed;
                 "stacktrace" :=
                   VDict {[ "frames" := VList frames;
                            "registers" := if truthy regs then regs else VNone ]} ]}).

(** [event[k].append]: the list [event[k]] that is about to be appended
    to. *)
Definition append_target (k : string) : St (list PyVal) :=
  target ← getitem k;
  match target with
  | VList l => mret l
  | _ => lift (inl (AttributeError "append"))
  end.

(** The body of the loop over the threads:
<<
        crashed = thread.get("crashed")
        event["threads"].append({...})
        if crashed:
            event["level"] = "fatal"
>> *)
Definition merge_thread (thread : PyVal) : St unit :=
  crashed ← lift (py_get thread "crashed" VNone);
  l ← append_target "threads";
  entry ← lift (thread_entry thread crashed);
  _ ← setitem "threads" (VList (l ++ [entry]));
  if truthy crashed then setitem "level" (VStr "fatal") else mret tt.

(** One image of [merge_apple_crash_report]. *)
Definition image_entry (module : PyVal) : Error + PyVal :=
  p ← py_get module "path" VNone;
  u ← py_get module "uuid" VNone;
  a ← py_get module "addr" VNone;
  z ← py_get module "size" VNone;
  r ← py_get module "arch" VNone;
  mret (VDict {[ "type" := VStr "macho"; "code_file" := p; "debug_id" := u;
                 "image_addr" := a; "image_size" := z; "arch" := r ]}).

(** [event.setdefault(k, {})[k2] = v] *)
Definition setdefault_setitem (k k2 : string) (v : PyVal) : St unit := fun ev =>
  match ev !! k with
  | None => (inr tt, <[k := VDict {[ k2 := v ]}]> ev)
  | Some held =>
      match py_setitem held k2 v with
      | inr held' => (inr tt, <[k := held']> ev)
      | inl e => (inl e, ev)
      end
  end.

(** [merge_apple_crash_report]:
<<
    event["platform"] = "native"
    timestamp = apple_crash_report.get("timestamp")
    if timestamp:
        event["timestamp"] = timestamp
    event["threads"] = []
    for thread in apple_crash_report["threads"]:
        ...
    if event.get("level") is None:
        event["level"] = "info"
    metadata = apple_crash_report.get("metadata")
    if metadata:
        set_path(event, "contexts", "os", "raw_description",
                 value=metadata.get("OS Version"))
        set_path(event, "contexts", "device", "model",
                 value=metadata.get("Hardware Model"))
    images = [{...} for module in apple_crash_report.get("binary_images")]
    event.setdefault("debug_meta", {})["images"] = images
>> *)
Definition merge_apple_crash_report (apple_crash_report : gmap string PyVal)
  : St unit :=
  _ ← setitem "platform" (VStr "native");
  let timestamp := default VNone (apple_crash_report !! "timestamp") in
  _ ← (if truthy timestamp then setitem "timestamp" timestamp else mret tt);
  _ ← setitem "threads" (VList []);
  threads ← lift (match apple_crash_report !! "threads" with
                  | Some t => inr t
                  | None => inl (KeyError "threads")
                  end);
  ts ← lift (py_iter threads);
  _ ← for_each ts merge_thread;
  level ← get "level";
  _ ← match level with
      | VNone => setitem "level" (VStr "info")
      | _ => mret tt
      end;
  let metadata := default VNone (apple_crash_report !! "metadata") in
  _ ← (if truthy metadata then
         os ← lift (py_get metadata "OS Version" VNone);
         _ ← call_set_path ["contexts"; "os"; "raw_description"] os;
         model ← lift (py_get metadata "Hardware Model" VNone);
         call_set_path ["contexts"; "device"; "model"] model
       else mret tt);
  modules ← lift (py_iter (default VNone (apple_crash_report !! "binary_images")));
  images ← lift (mapM image_entry modules);
  setdefault_setitem "debug_meta" "images" (VList images).

(** What [merge_unreal_context_event] works on: the event, the runtime
    properties (a dict inside the context, emptied in place as they are
    used) and the user reports created so far, each with its project,
    event id, name, email and comments. *)
Record Ctx : Type := mkCtx {
  c_event : gmap string PyVal;
  c_props : gmap string PyVal;
  c_reports : list (Z * PyVal * PyVal * string * PyVal)
}.

Definition Sc (A : Type) : Type := Ctx -> (Error + A) * Ctx.

#[global] Instance Sc_ret : MRet Sc := fun A a c => (inr a, c).

#[global] Instance Sc_bind : MBind Sc := fun A B k m c =>
  match m c with
  | (inr a, c') => k a c'
  | (inl e, c') => (inl e, c')
  end.

(** [runtime_prop.pop(k, dflt)] *)
Definition pop (k : string) (dflt : PyVal) : Sc PyVal := fun c =>
  (inr (default dflt (c_props c !! k)),
   {| c_event := c_event c; c_props := delete k (c_props c);
      c_reports := c_reports c |}).

(** A computation on the event, within the context. *)
Definition on_event {A : Type} (m : St A) : Sc A := fun c =>
  let (r, ev) := m (c_event c) in
  (r, {| c_event := ev; c_props := c_props c; c_reports := c_reports c |}).

(** [UserReport.objects.create(project=project, event_id=event_id,
    name=name, email=email, comments=comments)] *)
Definition create_user_report (project : Z) (event_id name : PyVal) (email : string)
  (comments : PyVal) : Sc unit := fun c =>
  (inr tt,
   {| c_event := c_event c; c_props := c_props c;
      c_reports := c_reports c ++ [(project, event_id, name, email, comments)] |}).

(** [event["contexts"]["unreal"].update( **runtime_prop)] *)
Definition update_unreal_context : Sc unit := fun c =>
  match c_event c !! "contexts" with
  | None => (inl (KeyError "contexts"), c)
  | Some (VDict contexts) =>
      match contexts !! "unreal" with
      | None => (inl (KeyError "unreal"), c)
      | Some (VDict unreal) =>
          (inr tt,
           {| c_event := <["contexts" :=
                             VDict (<["unreal" := VDict (c_props c ∪ unreal)]> contexts)]>
                           (c_event c);
              c_props := c_props c; c_reports := c_reports c |})
      | Some _ => (inl (AttributeError "update"), c)
      end
  | Some _ => (inl TypeError, c)
  end.

(** [v is None] *)
Definition is_none (v : PyVal) : bool :=
  match v with VNone => true | _ => false end.

(** The body of [merge_unreal_context_event] once the runtime properties
    are at hand:
<<
    message = runtime_prop.pop("error_message", None)
    if message is not None:
        event["message"] = message
    username = runtime_prop.pop("username", None)
    if username is not None:
        set_path(event, "user", "username", value=username)
    memory_physical = runtime_prop.pop("memory_stats_total_physical", None)
    if memory_physical is not None:
        set_path(event, "contexts", "device", "memory_size", value=memory_physical)
    os_major = runtime_prop.pop("misc_os_version_major", None)
    if os_major is not None:
        set_path(event, "contexts", "os", "name", value=os_major)
    gpu_brand = runtime_prop.pop("misc_primary_cpu_brand", None)
    if gpu_brand is not None:
        set_path(event, "contexts", "gpu", "name", value=gpu_brand)
    user_desc = runtime_prop.pop("user_description", None)
    if user_desc is not None:
        feedback_user = "unknown"
        if username is not None:
            feedback_user = username
        UserReport.objects.create(project=project, event_id=event["event_id"],
                                  name=feedback_user, email="", comments=user_desc)
    runtime_prop.pop("modules", None)
    set_path(event, "contexts", "unreal", "type", value="unreal")
    event["contexts"]["unreal"].update( **runtime_prop)
    event["sdk"] = {
        "name": "sentry.unreal.crashreporter",
        "version": runtime_prop.pop("crash_reporter_client_version", "0.0.0"),
    }
>> *)
Definition merge_runtime_properties (project : Z) : Sc unit :=
  message ← pop "error_message" VNone;
  _ ← (if is_none message then mret tt else on_event (setitem "message" message));
  username ← pop "username" VNone;
  _ ← (if is_none username then mret tt
       else on_event (call_set_path ["user"; "username"] username));
  memory_physical ← pop "memory_stats_total_physical" VNone;
  _ ← (if is_none memory_physical then mret tt
       else on_event (call_set_path ["contexts"; "device"; "memory_size"] memory_physical));
  os_major ← pop "misc_os_version_major" VNone;
  _ ← (if is_none os_major then mret tt
       else on_event (call_set_path ["contexts"; "os"; "name"] os_major));
  gpu_brand ← pop "misc_primary_cpu_brand" VNone;
  _ ← (if is_none gpu_brand then mret tt
       else on_event (call_set_path ["contexts"; "gpu"; "name"] gpu_brand));
  user_desc ← pop "user_description" VNone;
  _ ← (if is_none user_desc then mret tt
       else
         let feedback_user := if is_none username then VStr "unknown" else username in
         event_id ← on_event (getitem "event_id");
         create_user_report project event_id feedback_user "" user_desc);
  _ ← pop "modules" VNone;
  _ ← on_event (call_set_path ["contexts"; "unreal"; "type"] (VStr "unreal"));
  _ ← update_unreal_context;
  version ← pop "crash_reporter_client_version" (VStr "0.0.0");
  on_event (setitem "sdk" (VDict {[ "name" := VStr "sentry.unreal.crashreporter";
                                    "version" := version ]})).

(** [merge_unreal_context_event]:
<<
    runtime_prop = unreal_context.get("runtime_properties")
    if runtime_prop is None:
        return
    ...
>>
    The result holds the outcome, the event, the context (whose runtime
    properties the call has emptied of what it used) and the user reports
    created.  Only a dict has the [pop] that takes a default. *)
Definition merge_unreal_context_event (unreal_context : gmap string PyVal)
  (project : Z) (event : gmap string PyVal)
  : (Error + unit) * gmap string PyVal * gmap string PyVal
    * list (Z * PyVal * PyVal * string * PyVal) :=
  match default VNone (unreal_context !! "runtime_properties") with
  | VNone => (inr tt, event, unreal_context, [])
  | VDict runtime_prop =>
      let (outcome, c) :=
        merge_runtime_properties project
          {| c_event := event; c_props := runtime_prop; c_reports := [] |} in
      (outcome, c_event c,
       <["runtime_properties" := VDict (c_props c)]> unreal_context, c_reports c)
  | VList _ => (inl TypeError, event, unreal_context, [])
  | _ => (inl (AttributeError "pop"), event, unreal_context, [])
  end.

End WithHelpers.

(** *** Reading values, for the statements *)

(** The runtime properties the call takes out of the dict, in the order
    in which it does so; the version of the crash reporter client comes
    last, after the others have been copied. *)
Definition used_first : list string :=
  ["error_message"; "username"; "memory_stats_total_physical"; "misc_os_version_major";
   "misc_primary_cpu_brand"; "user_description"; "modules"].


Definition is_dict (v : PyVal) : bool :=
  match v with VDict _ => true | _ => false end.

(** The entry of a dict under a key, [None] when there is none. *)
Definition field (k : string) (v : PyVal) : PyVal :=
  match v with
  | VDict d => default VNone (d !! k)
  | _ => VNone
  end.

(** The elements of a list. *)
Definition items (v : PyVal) : list PyVal :=
  match v with VList l => l | _ => [] end.

(** The character occurs in the string. *)
Definition contains (c : ascii) (s : string) : bool :=
  existsb (Ascii.eqb c) (list_ascii_of_string s).

(** A thread of a report as the parser gives it: a dict whose frames, if
    it has any, are a list of dicts. *)
Definition thread_ok (thread : PyVal) : bool :=
  match thread with
  | VDict d =>
      match d !! "frames" with
      | None => true
      | Some (VList fs) => forallb is_dict fs
      | Some _ => false
      end
  | _ => false
  end.

(** The metadata of a report: nothing, or a dict. *)
Definition metadata_ok (metadata : PyVal) : bool :=
  negb (truthy metadata) || is_dict metadata.

(** The event can take the images: it has no [debug_meta] or a dict. *)
Definition debug_meta_ok (event : gmap string PyVal) : bool :=
  match event !! "debug_meta" with
  | None => true
  | Some v => is_dict v
  end.

(** A log has a message. *)
Definition has_message (log : PyVal) : bool := truthy (field "message" log).

(** A thread has crashed. *)
Definition has_crashed (thread : PyVal) : bool := truthy (field "crashed" thread).

(** [out] is the frame [merge_apple_crash_report] makes of [frame]. *)
Definition is_frame_of (frame out : PyVal) : Prop :=
  field "instruction_addr" out = field "instruction_addr" frame
  /\ field "package" out = field "module" frame
  /\ field "lineno" out = field "lineno" frame
  /\ field "filename" out = field "filename" frame.

(** [entry] is the thread [merge_apple_crash_report] makes of [thread]:
    the frames are those of the thread in reverse order. *)
Definition is_entry_of (thread entry : PyVal) : Prop :=
  field "id" entry = field "id" thread
  /\ field "name" entry = field "name" thread
  /\ field "crashed" entry = field "crashed" thread
  /\ field "registers" (field "stacktrace" entry)
     = (if truthy (field "registers" thread) then field "registers" thread else VNone)
  /\ Forall2 is_frame_of (rev (items (field "frames" thread)))
       (items (field "frames" (field "stacktrace" entry))).

(** [image] is the image [merge_apple_crash_report] makes of [module]. *)
Definition is_image_of (module image : PyVal) : Prop :=
  field "type" image = VStr "macho"
  /\ field "code_file" image = field "path" module
  /\ field "debug_id" image = field "uuid" module
  /\ field "image_addr" image = field "addr" module
  /\ field "image_size" image = field "size" module
  /\ field "arch" image = field "arch" module.

(** The level of the event after [merge_apple_crash_report]. *)
Definition merged_level (threads : list PyVal) (event : gmap string PyVal) : PyVal :=
  if existsb has_crashed threads then VStr "fatal"
  else match default VNone (event !! "level") with
       | VNone => VStr "info"
       | level => level
       end.

(** *** Examples *)

(** A [set_path] for the examples: it walks the path, puts a dict where
    there is nothing, and sets the value at the end; it gives up where it
    meets something that is not a dict. *)
Fixpoint set_path_example (data : gmap string PyVal) (path : list string)
  (value : PyVal) : gmap string PyVal :=
  match path with
  | [] => data
  | [p] => <[p := value]> data
  | p :: rest =>
      match data !! p with
      | None | Some VNone => <[p := VDict (set_path_example ∅ rest value)]> data
      | Some (VDict d) => <[p := VDict (set_path_example d rest value)]> data
      | Some _ => data
      end
  end.

(** A [setdefault_path] for the examples: like [set_path_example], but it
    keeps a value that is already at the end of the path. *)
Fixpoint setdefault_path_example (data : gmap string PyVal) (path : list string)
  (value : PyVal) : gmap string PyVal :=
  match path with
  | [] => data
  | [p] =>
      match data !! p with
      | None | Some VNone => <[p := value]> data
      | Some _ => data
      end
  | p :: rest =>
      match data !! p with
      | None | Some VNone => <[p := VDict (setdefault_path_example ∅ rest value)]> data
      | Some (VDict d) => <[p := VDict (setdefault_path_example d rest value)]> data
      | Some _ => data
      end
  end.

(** Three log entries, the second without a message, and an event that
    has one breadcrumb already. *)
Definition ex_logs : list PyVal :=
  [ VDict {[ "timestamp" := VStr "t1"; "component" := VStr "LogInit";
             "message" := VStr "starting" ]};
    VDict {[ "timestamp" := VStr "t2"; "component" := VStr "LogInit" ]};
    VDict {[ "timestamp" := VStr "t3"; "component" := VStr "LogWindows";
             "message" := VStr "crashed" ]} ].

Definition ex_crumb : PyVal := VDict {[ "message" := VStr "earlier" ]}.

Definition ex_logged_event : gmap string PyVal :=
  {[ "event_id" := VStr "abc";
     "breadcrumbs" := VDict {[ "values" := VList [ex_crumb] ]} ]}.

(** A crash report with two threads, the second of which has crashed, and
    one binary image. *)
Definition ex_frame (addr : string) : PyVal :=
  VDict {[ "instruction_addr" := VStr addr; "module" := VStr "game" ]}.

Definition ex_threads : list PyVal :=
  [ VDict {[ "id" := VInt 0; "crashed" := VBool false;
             "frames" := VList [ex_frame "0x1"; ex_frame "0x2"] ]};
    VDict {[ "id" := VInt 1; "crashed" := VBool true;
             "frames" := VList [ex_frame "0x3"; ex_frame "0x4"; ex_frame "0x5"] ]} ].

Definition ex_images : list PyVal :=
  [ VDict {[ "path" := VStr "/game"; "uuid" := VStr "u-1"; "addr" := VStr "0x1000";
             "size" := VInt 4096; "arch" := VStr "x86_64" ]} ].

Definition ex_report : gmap string PyVal :=
  {[ "timestamp" := VInt 1500000000;
     "threads" := VList ex_threads;
     "metadata" := VDict {[ "OS Version" := VStr "Mac OS X 10.14";
                            "Hardware Model" := VStr "MacBookPro11,3" ]};
     "binary_images" := VList ex_images ]}.

Definition ex_apple_event : gmap string PyVal :=
  {[ "event_id" := VStr "abc"; "level" := VStr "warning";
     "debug_meta" := VDict {[ "sdk_info" := VStr "kept" ]} ]}.

(** The context of an Unreal crash, with a description by the user, and
    the event it is merged into. *)
Definition ex_context : gmap string PyVal :=
  {[ "runtime_properties" :=
       VDict {[ "error_message" := VStr "Access violation";
                "username" := VStr "jane";
                "user_description" := VStr "it crashed on load";
                "modules" := VStr "a.dll;b.dll";
                "crash_reporter_client_version" := VStr "1.0";
                "engine_mode" := VStr "Game" ]} ]}.

Definition ex_unreal_event : gmap string PyVal := {[ "event_id" := VStr "abc" ]}.

(** A parser for the examples, which accepts nothing. *)
Definition from_bytes_example (payload : string) : Error + unit := inl Unreal4Error.

End Unreal.

(** ** The tasks of the incidents

    [sentry.incidents.tasks].  The tables the tasks read are arguments,
    what they do to the outside (unsubscribing, sending mail, deleting in
    chunks, scheduling a task) is logged. *)

Module Incidents.

Inductive Error : Type :=
| DoesNotExist
| DeleteAborted
| ValueError
| UnableToAcquireLock.

Record User : Type := mkUser {
  user_id : Z;
  user_name : string;
  user_email : string
}.

Record Incident : Type := mkIncident {
  incident_id : Z;
  incident_identifier : Z;
  incident_title : string;
  incident_organization : Z;
  incident_organization_slug : string;
  incident_projects : list Z
}.

Record Activity : Type := mkActivity {
  activity_type : Z;
  activity_incident : Incident;
  activity_user : option User;
  activity_value : option string;
  activity_previous_value : option string;
  activity_comment : option string
}.

(** The context of the mail about an activity. *)
Record Context : Type := mkContext {
  ctx_user_name : string;
  ctx_action : string;
  ctx_link : string;
  ctx_comment : option string;
  ctx_unsubscribe_link : string
}.

(** [MessageBuilder(subject=..., template=..., html_template=...,
    type=..., context=...)] *)
Record Message : Type := mkMessage {
  msg_subject : string;
  msg_template : string;
  msg_html_template : string;
  msg_type : string;
  msg_context : Context
}.

(** What a task does to the outside. *)
Inductive Action : Type :=
| Unsubscribe (incident : Z) (user : User)
| SendAsync (msg : Message) (to : list string)
| Chunk (alert_rule_id : Z) (transaction_id : string)
| ApplyAsync (alert_rule_id : Z) (transaction_id : option string) (countdown : Z).

(** A task: it logs what it does and may raise. *)
Definition Task (A : Type) : Type := list Action -> (Error + A) * list Action.

#[global] Instance Task_ret : MRet Task := fun A a log => (inr a, log).

#[global] Instance Task_bind : MBind Task := fun A B k m log =>
  match m log with
  | (inr a, log') => k a log'
  | (inl e, log') => (inl e, log')
  end.

Definition lift {A : Type} (r : Error + A) : Task A := fun log => (r, log).

Definition act (a : Action) : Task unit := fun log => (inr tt, (log ++ [a])%list).

Fixpoint for_each {A : Type} (l : list A) (body : A -> Task unit) : Task unit :=
  match l with
  | [] => mret tt
  | x :: rest => _ ← body x; for_each rest body
  end.

(** [str(n)] for an integer. *)
Definition str_of_int (z : Z) : string := NilZero.string_of_int (Z.to_int z).

(** [user != other], where [other] may be [None]: two users are the same
    when they have the same id. *)
Definition differs (user : User) (other : option User) : bool :=
  match other with
  | Some o => negb (user_id user =? user_id o)
  | None => true
  end.

Section WithModels.

(** What the tasks use and the sources at hand do not hold: the values of
    [IncidentActivityType.COMMENT] and [STATUS_CHANGE]; the name, in
    lower case, of the [IncidentStatus] for a value as the activity
    stores it (the conversion to an integer or the lookup can fail); the
    address of the page of an incident and the signed link to unsubscribe;
    the subscribers of an incident; and the access of a user of an
    organization to a project. *)
Variable COMMENT STATUS_CHANGE : Z.
Variable status_name : option string -> Error + string.
Variable incident_url : string -> Z -> string.
Variable unsubscribe_link : User -> Z -> string.
Variable get_incident_subscribers : Incident -> list User.
Variable has_project_access : User -> Z -> Z -> bool.

(** [build_activity_context] *)
Definition build_activity_context (activity : Activity) (user : User)
  : Error + Context :=
  match
    (if activity_type activity =? COMMENT then inr "left a comment"
     else
       match status_name (activity_previous_value activity) with
       | inl e => inl e
       | inr previous =>
           match status_name (activity_value activity) with
           | inl e => inl e
           | inr current =>
               inr ("changed status from " ++ previous ++ " to " ++ current)%string
           end
       end)
  with
  | inl e => inl e
  | inr action =>
      let incident := activity_incident activity in
      let action :=
        (action ++ " on incident " ++ incident_title incident ++ " (#"
           ++ str_of_int (incident_identifier incident) ++ ")")%string in
      inr {| ctx_user_name := match activity_user activity with
                              | Some u => user_name u
                              | None => "Sentry"
                              end;
             ctx_action := action;
             ctx_link :=
               (incident_url (incident_organization_slug incident)
                  (incident_identifier incident)
                ++ "?" ++ "referrer=incident_activity_email")%string;
             ctx_comment := activity_comment activity;
             ctx_unsubscribe_link := unsubscribe_link user (incident_id incident) |}
  end.

(** [generate_incident_activity_email] *)
Definition generate_incident_activity_email (activity : Activity) (user : User)
  : Error + Message :=
  let incident := activity_incident activity in
  match build_activity_context activity user with
  | inl e => inl e
  | inr context =>
      inr {| msg_subject :=
               ("Activity on Incident " ++ incident_title incident ++ " (#"
                  ++ str_of_int (incident_identifier incident) ++ ")")%string;
             msg_template := "sentry/emails/incidents/activity.txt";
             msg_html_template := "sentry/emails/incidents/activity.html";
             msg_type := "incident.activity";
             msg_context := context |}
  end.

(** The user has access to one of the projects:
    [any(project for project in projects if access.has_project_access(project))]. *)
Definition has_access (user : User) (incident : Incident) : bool :=
  existsb (has_project_access user (incident_organization incident))
          (incident_projects incident).

(** [send_subscriber_notifications]:
<<
    try:
        activity = IncidentActivity.objects.select_related(...).get(id=activity_id)
    except IncidentActivity.DoesNotExist:
        return
    if activity.type not in (COMMENT.value, STATUS_CHANGE.value):
        return
    projects = list(activity.incident.projects.all())
    for subscriber in get_incident_subscribers(activity.incident).select_related("user"):
        user = subscriber.user
        access = from_user(user, activity.incident.organization)
        if not any(project for project in projects if access.has_project_access(project)):
            unsubscribe_from_incident(activity.incident, user)
        elif user != activity.user:
            msg = generate_incident_activity_email(activity, user)
            msg.send_async([user.email])
>> *)
Definition send_subscriber_notifications (activities : gmap Z Activity)
  (activity_id : Z) : Task unit :=
  match activities !! activity_id with
  | None => mret tt
  | Some activity =>
      if negb ((activity_type activity =? COMMENT)
               || (activity_type activity =? STATUS_CHANGE))
      then mret tt
      else
        let incident := activity_incident activity in
        for_each (get_incident_subscribers incident) (fun user =>
          if negb (has_access user incident) then
            act (Unsubscribe (incident_id incident) user)
          else if differs user (activity_user activity) then
            msg ← lift (generate_incident_activity_email activity user);
            act (SendAsync msg [user_email user])
          else mret tt)
  end.

End WithModels.

(** A suspect commit of an incident, with its rank. *)
Record SuspectCommit : Type := mkSuspectCommit {
  sc_incident : Z;
  sc_commit_id : Z;
  sc_order : nat
}.

(** [calculate_incident_suspects]:
<<
    lock = locks.get(u"incident:suspects:{}".format(incident_id), duration=60 * 10)
    with TimedRetryPolicy(60)(lock.acquire):
        incident = Incident.objects.get(id=incident_id)
        suspect_commits = get_incident_suspect_commits(incident)
        with transaction.atomic():
            IncidentSuspectCommit.objects.filter(incident=incident).delete()
            IncidentSuspectCommit.objects.bulk_create([
                IncidentSuspectCommit(incident=incident, commit_id=commit_id, order=i)
                for i, commit_id in enumerate(suspect_commits)])
>>
    [acquire] tells whether the lock of a name is obtained within the time
    of the retry policy; the table of the suspect commits is passed and
    returned. *)
Definition calculate_incident_suspects (acquire : string -> bool)
  (incidents : gmap Z Incident) (get_incident_suspect_commits : Incident -> list Z)
  (incident_id : Z) (table : list SuspectCommit)
  : (Error + unit) * list SuspectCommit :=
  if acquire ("incident:suspects:" ++ str_of_int incident_id)%string then
    match incidents !! incident_id with
    | None => (inl DoesNotExist, table)
    | Some incident =>
        let suspect_commits := get_incident_suspect_commits incident in
        (inr tt,
         (List.filter (fun row => negb (sc_incident row =? incident_id)) table
          ++ imap (fun i commit_id => mkSuspectCommit incident_id commit_id i)
                  suspect_commits)%list)
    end
  else (inl UnableToAcquireLock, table).

(** [s or dflt] for a string or [None]. *)
Definition or_else (s : option string) (dflt : string) : string :=
  match s with
  | Some x => if String.eqb x "" then dflt else x
  | None => dflt
  end.

(** [delete_alert_rule]:
<<
    try:
        instance = AlertRule.objects_with_deleted.get(id=alert_rule_id)
    except AlertRule.DoesNotExist:
        return
    if instance.status not in (DELETION_IN_PROGRESS.value, PENDING_DELETION.value):
        raise DeleteAborted
    task = deletions.get(model=AlertRule, query={"id": alert_rule_id},
                         transaction_id=transaction_id or uuid4().hex)
    has_more = task.chunk()
    if has_more:
        delete_alert_rule.apply_async(
            kwargs={"alert_rule_id": alert_rule_id, "transaction_id": transaction_id},
            countdown=15)
>>
    [rules] gives the status of every alert rule, the deleted ones
    included; [chunk] tells whether a chunk of the deletion leaves more to
    delete; [uuid] is the fresh identifier. *)
Definition delete_alert_rule (DELETION_IN_PROGRESS PENDING_DELETION : Z)
  (rules : gmap Z Z) (chunk : Z -> string -> bool) (uuid : string)
  (alert_rule_id : Z) (transaction_id : option string) : Task unit :=
  match rules !! alert_rule_id with
  | None => mret tt
  | Some status =>
      if negb ((status =? DELETION_IN_PROGRESS) || (status =? PENDING_DELETION))
      then lift (inl DeleteAborted)
      else
        let task_transaction := or_else transaction_id uuid in
        _ ← act (Chunk alert_rule_id task_transaction);
        if chunk alert_rule_id task_transaction
        then act (ApplyAsync alert_rule_id transaction_id 15)
        else mret tt
  end.

(** *** For the statements *)

(** An action of [send_subscriber_notifications] is in order: it
    unsubscribes a subscriber of the incident who has no access to any of
    its projects, or sends a mail to the address of a subscriber who has
    access and is not the user of the activity. *)
Definition in_order (get_incident_subscribers : Incident -> list User)
  (has_project_access : User -> Z -> Z -> bool) (activity : Activity) (a : Action)
  : Prop :=
  let incident := activity_incident activity in
  match a with
  | Unsubscribe i user =>
      i = incident_id incident
      /\ user ∈ get_incident_subscribers incident
      /\ has_access has_project_access user incident = false
  | SendAsync msg to =>
      exists user,
        user ∈ get_incident_subscribers incident
        /\ to = [user_email user]
        /\ has_access has_project_access user incident = true
        /\ differs user (activity_user activity) = true
  | _ => False
  end.

(** *** Examples *)

Definition alice : User := mkUser 1 "Alice" "alice@example.com".
Definition bob : User := mkUser 2 "Bob" "bob@example.com".
Definition carol : User := mkUser 3 "Carol" "carol@example.com".

Definition ex_incident : Incident :=
  mkIncident 10 4 "Spike of errors" 100 "acme" [7; 8].

(** A comment by Alice on the incident. *)
Definition ex_activity : Activity :=
  mkActivity 3 ex_incident (Some alice) None None (Some "looking into it").

Definition ex_activities : gmap Z Activity := {[ 55 := ex_activity ]}.

(** Alice and Bob have access to project 7, Carol to none. *)
Definition ex_access (user : User) (organization project : Z) : bool :=
  (project =? 7) && negb (user_id user =? 3).

Definition ex_status_name (value : option string) : Error + string :=
  match value with
  | Some "1" => inr "open"
  | Some "2" => inr "closed"
  | _ => inl ValueError
  end.

Definition ex_incident_url (slug : string) (identifier : Z) : string :=
  ("https://sentry.example/" ++ slug ++ "/incidents/" ++ str_of_int identifier
     ++ "/")%string.

Definition ex_unsubscribe_link (user : User) (incident : Z) : string :=
  ("https://sentry.example/unsubscribe/" ++ str_of_int incident)%string.

Definition ex_table : list SuspectCommit :=
  [mkSuspectCommit 10 900 0; mkSuspectCommit 11 901 0; mkSuspectCommit 10 902 1].

End Incidents.

(** ** The bases of the project endpoints

    [sentry.api.bases.project]. *)

Module ProjectBases.

Inductive Error : Type :=
| ResourceDoesNotExist
| ProjectMoved (new_url slug : string)
| MultipleObjectsReturned
| Raised (name : string).

Record Organization : Type := mkOrganization {
  org_id : Z;
  org_slug : string
}.

Record Project : Type := mkProject {
  proj_id : Z;
  proj_slug : string;
  proj_organization : Organization;
  proj_status : Z;
  proj_teams : list Z
}.

Record ProjectRedirect : Type := mkProjectRedirect {
  redirect_organization : Organization;
  redirect_slug : string;
  redirect_project : Project
}.

(** [request.auth], when it is not [None]; [auth_project_id] is [None]
    when the object has no attribute [project_id]. *)
Record Auth : Type := mkAuth {
  auth_name : string;
  auth_project_id : option Z
}.

Record Request : Type := mkRequest {
  request_user : Z;
  request_user_is_authenticated : bool;
  request_auth : option Auth;
  request_full_path : string;
  request_organization : option Organization
}.

(** The classes of permission of the module. *)
Inductive Permission : Type :=
| ProjectPermission
| StrictProjectPermission
| ProjectReleasePermission
| ProjectEventPermission
| ProjectSettingPermission
| RelaxedSearchPermission.

(** [scope_map] of each class. *)
Definition scope_map (self : Permission) : gmap string (list string) :=
  match self with
  | ProjectPermission =>
      {[ "GET" := ["project:read"; "project:write"; "project:admin"];
         "POST" := ["project:write"; "project:admin"];
         "PUT" := ["project:write"; "project:admin"];
         "DELETE" := ["project:admin"] ]}
  | StrictProjectPermission =>
      {[ "GET" := ["project:write"; "project:admin"];
         "POST" := ["project:write"; "project:admin"];
         "PUT" := ["project:write"; "project:admin"];
         "DELETE" := ["project:admin"] ]}
  | ProjectReleasePermission =>
      {[ "GET" := ["project:read"; "project:write"; "project:admin"; "project:releases"];
         "POST" := ["project:write"; "project:admin"; "project:releases"];
         "PUT" := ["project:write"; "project:admin"; "project:releases"];
         "DELETE" := ["project:admin"; "project:releases"] ]}
  | ProjectEventPermission =>
      {[ "GET" := ["event:read"; "event:write"; "event:admin"];
         "POST" := ["event:write"; "event:admin"];
         "PUT" := ["event:write"; "event:admin"];
         "DELETE" := ["event:admin"] ]}
  | ProjectSettingPermission =>
      {[ "GET" := ["project:read"; "project:write"; "project:admin"];
         "POST" := ["project:write"; "project:admin"];
         "PUT" := ["project:write"; "project:admin"];
         "DELETE" := ["project:write"; "project:admin"] ]}
  | RelaxedSearchPermission =>
      {[ "GET" := ["project:read"; "project:write"; "project:admin"];
         "POST" := ["project:write"; "project:admin"; "project:read"];
         "PUT" := ["project:write"; "project:admin"; "project:read"];
         "DELETE" := ["project:read"; "project:write"; "project:admin"] ]}
  end.

(** The scopes a class lists for a method; none for a method it does not
    name. *)
Definition scopes (self : Permission) (method : string) : list string :=
  default [] (scope_map self !! method).

(** *** [str.replace] *)

(** The rest of [s] after the prefix [p], if [s] starts with [p]. *)
Fixpoint strip_prefix (p s : string) : option string :=
  match p, s with
  | EmptyString, _ => Some s
  | String a p', String b s' => if Ascii.eqb a b then strip_prefix p' s' else None
  | String _ _, EmptyString => None
  end.

(** Replacing, from left to right, the occurrences of a pattern that is
    not empty; [skip] characters, the rest of an occurrence just
    replaced, are passed over first. *)
Fixpoint replace_from (old new : string) (skip : nat) (s : string) : string :=
  match s with
  | EmptyString => EmptyString
  | String c rest =>
      match skip with
      | S k => replace_from old new k rest
      | O =>
          match strip_prefix old s with
          | Some _ => new ++ replace_from old new (String.length old - 1) rest
          | None => String c (replace_from old new 0 rest)
          end
      end
  end.

(** With an empty pattern, [new] goes before every character and at the
    end. *)
Fixpoint replace_empty (new s : string) : string :=
  match s with
  | EmptyString => new
  | String c rest => new ++ String c (replace_empty new rest)
  end.

(** [s.replace(old, new)] *)
Definition str_replace (s old new : string) : string :=
  match old with
  | EmptyString => replace_empty new s
  | String _ _ => replace_from old new 0 s
  end.

(** [old] occurs in [s]. *)
Definition occurs (old s : string) : Prop :=
  exists pre post, s = pre ++ old ++ post.

(** Whether [old] occurs in [s]. *)
Fixpoint occursb (old s : string) : bool :=
  match strip_prefix old s with
  | Some _ => true
  | None =>
      match s with
      | EmptyString => false
      | String _ rest => occursb old rest
      end
  end.

(** [queryset.get()]: the one row, or none, or too many. *)
Definition get_one {A : Type} (rows : list A) : Error + option A :=
  match rows with
  | [] => inr None
  | [row] => inr (Some row)
  | _ => inl MultipleObjectsReturned
  end.

(** The path of a project in an address:
    ["projects/%s/%s/" % (organization_slug, project_slug)]. *)
Definition project_path (organization_slug project_slug : string) : string :=
  "projects/" ++ organization_slug ++ "/" ++ project_slug ++ "/".

(** A value of [kwargs]: the project, or what the caller passed. *)
Inductive Arg : Type :=
| ArgProject (project : Project)
| ArgValue (v : PyVal).

(** What [convert_args] writes to: the request and the tags of the
    scope. *)
Record Env : Type := mkEnv {
  env_request : Request;
  env_tags : gmap string Z
}.

Section WithModels.

(** What the module uses and the sources at hand do not hold:
    [OrganizationPermission.has_object_permission], which may raise;
    [has_team_permission]; [is_system_auth]; [is_active_superuser]; the
    roles of the members of an organization for a user; whether a role
    is global, [roles.get(role).is_global], where the role may be
    unknown; [ProjectStatus.VISIBLE]; and [check_object_permissions] of
    the endpoint, which raises when the permission is denied. *)
Variable organization_has_object_permission : Request -> Organization -> Error + bool.
Variable has_team_permission : Request -> Z -> gmap string (list string) -> bool.
Variable is_system_auth : option Auth -> bool.
Variable is_active_superuser : Request -> bool.
Variable member_roles : Organization -> Z -> list string.
Variable role_is_global : string -> Error + bool.
Variable VISIBLE : Z.
Variable check_object_permissions : Request -> Project -> Error + unit.

(** [ProjectPermission.has_object_permission]:
<<
    result = super(ProjectPermission, self).has_object_permission(
        request, view, project.organization)
    if not result:
        return result
    if project.teams.exists():
        return any(has_team_permission(request, team, self.scope_map)
                   for team in project.teams.all())
    elif is_system_auth(request.auth):
        return True
    elif request.user.is_authenticated():
        if is_active_superuser(request):
            return True
        try:
            role = (OrganizationMember.objects.filter(
                        organization=project.organization, user=request.user)
                    .values_list("role", flat=True).get())
        except OrganizationMember.DoesNotExist:
            return False
        return roles.get(role).is_global
    elif hasattr(request.auth, "project_id") and project.id == request.auth.project_id:
        return True
    return False
>> *)
Definition has_object_permission (self : Permission) (request : Request)
  (project : Project) : Error + bool :=
  match organization_has_object_permission request (proj_organization project) with
  | inl e => inl e
  | inr false => inr false
  | inr true =>
      match proj_teams project with
      | _ :: _ =>
          inr (existsb (fun team => has_team_permission request team (scope_map self))
                       (proj_teams project))
      | [] =>
          if is_system_auth (request_auth request) then inr true
          else if request_user_is_authenticated request then
            if is_active_superuser request then inr true
            else
              match get_one (member_roles (proj_organization project)
                                          (request_user request)) with
              | inl e => inl e
              | inr None => inr false
              | inr (Some role) => role_is_global role
              end
          else
            match request_auth request with
            | Some {| auth_project_id := Some p |} => inr (proj_id project =? p)
            | _ => inr false
            end
      end
  end.

(** [ProjectEndpoint.convert_args]:
<<
    try:
        project = (Project.objects
                   .filter(organization__slug=organization_slug, slug=project_slug)
                   .select_related("organization").prefetch_related("teams").get())
    except Project.DoesNotExist:
        try:
            redirect = ProjectRedirect.objects.select_related("project")
            redirect = redirect.get(organization__slug=organization_slug,
                                    redirect_slug=project_slug)
            requested_url = request.get_full_path()
            new_url = requested_url.replace(
                "projects/%s/%s/" % (organization_slug, project_slug),
                "projects/%s/%s/" % (organization_slug, redirect.project.slug))
            if requested_url != new_url:
                raise ProjectMoved(new_url, redirect.project.slug)
            raise ResourceDoesNotExist
        except ProjectRedirect.DoesNotExist:
            raise ResourceDoesNotExist
    if project.status != ProjectStatus.VISIBLE:
        raise ResourceDoesNotExist
    self.check_object_permissions(request, project)
    with configure_scope() as scope:
        scope.set_tag("project", project.id)
        scope.set_tag("organization", project.organization_id)
    request._request.organization = project.organization
    kwargs["project"] = project
    return (args, kwargs)
>> *)
Definition get_project (projects : list Project)
  (organization_slug project_slug : string) : Error + option Project :=
  get_one (List.filter
             (fun p => String.eqb (org_slug (proj_organization p)) organization_slug
                       && String.eqb (proj_slug p) project_slug)
             projects).

Definition get_redirect (redirects : list ProjectRedirect)
  (organization_slug project_slug : string) : Error + option ProjectRedirect :=
  get_one (List.filter
             (fun r => String.eqb (org_slug (redirect_organization r)) organization_slug
                       && String.eqb (redirect_slug r) project_slug)
             redirects).

Definition find_project (projects : list Project) (redirects : list ProjectRedirect)
  (request : Request) (organization_slug project_slug : string) : Error + Project :=
  match get_project projects organization_slug project_slug with
  | inl e => inl e
  | inr (Some project) => inr project
  | inr None =>
      match get_redirect redirects organization_slug project_slug with
      | inl e => inl e
      | inr None => inl ResourceDoesNotExist
      | inr (Some redirect) =>
          let requested_url := request_full_path request in
          let new_url :=
            str_replace requested_url
              (project_path organization_slug project_slug)
              (project_path organization_slug (proj_slug (redirect_project redirect))) in
          if negb (String.eqb requested_url new_url)
          then inl (ProjectMoved new_url (proj_slug (redirect_project redirect)))
          else inl ResourceDoesNotExist
      end
  end.

Definition convert_args (projects : list Project) (redirects : list ProjectRedirect)
  (organization_slug project_slug : string) (args : list PyVal)
  (kwargs : gmap string Arg) (env : Env)
  : (Error + (list PyVal * gmap string Arg)) * Env :=
  let request := env_request env in
  match find_project projects redirects request organization_slug project_slug with
  | inl e => (inl e, env)
  | inr project =>
      if negb (proj_status project =? VISIBLE) then (inl ResourceDoesNotExist, env)
      else
        match check_object_permissions request project with
        | inl e => (inl e, env)
        | inr _ =>
            (inr (args, <[ "project" := ArgProject project ]> kwargs),
             {| env_request :=
                  {| request_user := request_user request;
                     request_user_is_authenticated := request_user_is_authenticated request;
                     request_auth := request_auth request;
                     request_full_path := request_full_path request;
                     request_organization := Some (proj_organization project) |};
                env_tags :=
                  <[ "organization" := org_id (proj_organization project) ]>
                    (<[ "project" := proj_id project ]> (env_tags env)) |})
        end
  end.

End WithModels.

(** *** Examples *)

Definition acme : Organization := mkOrganization 100 "acme".

Definition backend : Project := mkProject 7 "backend" acme 0 [].

Definition hidden : Project := mkProject 8 "old-site" acme 1 [].

Definition ex_projects : list Project := [backend; hidden].

(** The project [backend] was once called [api]. *)
Definition ex_redirects : list ProjectRedirect := [mkProjectRedirect acme "api" backend].

Definition ex_request (path : string) : Request :=
  mkRequest 1 true None path None.

Definition ex_env (path : string) : Env := mkEnv (ex_request path) {[ "release" := 3 ]}.

Definition ex_check (request : Request) (project : Project) : Error + unit :=
  if request_user_is_authenticated request then inr tt else inl (Raised "NotAuthenticated").

End ProjectBases.

(** * Properties *)

(** ** The column lists *)

(** C7: [minimal_columns] is the sequence event_id, group_id, project_id,
    timestamp; [full_columns] is [minimal_columns] followed by culprit,
    location, message, platform, title, type, the tags key and value and
    the user identity columns email, ip_address, user_id, username; every
    element of [minimal_columns] is an element of [full_columns]. *)
Theorem minimal_and_full_columns :
  minimal_columns
  = [Columns.event_id; Columns.group_id; Columns.project_id; Columns.timestamp]
  /\ full_columns
     = (minimal_columns
        ++ [Columns.culprit; Columns.location; Columns.message; Columns.platform;
            Columns.title; Columns.type; Columns.tags_key; Columns.tags_value;
            Columns.email; Columns.ip_address; Columns.user_id;
            Columns.username])%list
  /\ Forall (fun c => c ∈ full_columns) minimal_columns.
Proof.
  split; [reflexivity|]. split; [reflexivity|].
  unfold full_columns. apply Forall_forall. intros c Hc.
  apply elem_of_app. by left.
Qed.

(** Every member of the enumeration is a column of [full_columns], and
    the members have pairwise distinct values. *)
Lemma full_columns_complete (c : Columns.t) : c ∈ full_columns.
Proof. destruct c; unfold full_columns, minimal_columns; simpl; set_solver. Qed.

Lemma value_injective (c d : Columns.t) : Columns.value c = Columns.value d -> c = d.
Proof. destruct c, d; simpl; intros H; first [reflexivity | discriminate H]. Qed.

(** ** Running [bind_nodes] *)

Section BindNodesFacts.

Variable get_multi : list node_id -> gmap node_id (option Body).
Variable get_ref : NodeData -> Event -> option Z.

Lemma attrs_ok_cons w name i l :
  attrs_ok w name (i :: l) = true ->
  (exists n d, ev_attrs i !! name = Some n /\ heap w !! n = Some d)
  /\ attrs_ok w name l = true.
Proof.
  unfold attrs_ok. simpl. intros H. apply andb_prop in H as [Hi Hl].
  split; [|exact Hl]. unfold node_at in Hi.
  destruct (ev_attrs i !! name) as [n|] eqn:En; [|discriminate].
  destruct (heap w !! n) as [d|] eqn:Ed; [|discriminate]. eauto.
Qed.

(** One step of a computation that returns. *)
Lemma bind_returned {A B : Type} (m : M A) (k : A -> M B) w a w' :
  m w = (Returned a, w') -> (m ≫= k) w = k a w'.
Proof. intros H. unfold mbind, M_bind. by rewrite H. Qed.

Lemma getattr_run i name n w :
  ev_attrs i !! name = Some n -> getattr i name w = (Returned n, w).
Proof. intros H. unfold getattr. by rewrite H. Qed.

Lemma read_id_run n d w :
  heap w !! n = Some d -> read_id n w = (Returned (nd_id d), w).
Proof. intros H. unfold read_id. by rewrite H. Qed.

Lemma id_at_Some n d w : heap w !! n = Some d -> id_at w n = nd_id d.
Proof. intros H. unfold id_at. by rewrite H. Qed.

(** The comprehension reads only: it returns the pairs and leaves the
    world as it is. *)
Lemma object_nodes_run w name l :
  attrs_ok w name l = true ->
  object_nodes l name w = (Returned (node_pairs w name l), w).
Proof.
  induction l as [|i l IH]; intros Hok; [reflexivity|].
  apply attrs_ok_cons in Hok as [(n & d & En & Ed) Hl].
  specialize (IH Hl).
  unfold node_pairs in *. cbn [object_nodes omap list_omap].
  rewrite (bind_returned _ _ _ _ _ (getattr_run _ _ _ w En)).
  rewrite (bind_returned _ _ _ _ _ (read_id_run _ _ w Ed)).
  rewrite En, (id_at_Some _ _ _ Ed).
  destruct (truthy_id (nd_id d)); [|exact IH].
  rewrite (bind_returned _ _ _ _ _ (getattr_run _ _ _ w En)).
  rewrite (bind_returned _ _ _ _ _ IH). reflexivity.
Qed.

Lemma node_pairs_allocated w name l :
  attrs_ok w name l = true ->
  Forall (fun p => is_Some (heap w !! p.2)) (node_pairs w name l).
Proof.
  induction l as [|i l IH]; intros Hok; [constructor|].
  apply attrs_ok_cons in Hok as [(n & d & En & Ed) Hl].
  unfold node_pairs in *. cbn [omap list_omap]. rewrite En.
  destruct (truthy_id (id_at w n)); [|by apply IH].
  constructor; [cbn [snd]; by rewrite Ed | by apply IH].
Qed.

Lemma node_pairs_truthy w name l p :
  p ∈ node_pairs w name l ->
  p.1 ∈ l /\ ev_attrs p.1 !! name = Some p.2 /\ truthy_id (id_at w p.2) = true.
Proof.
  unfold node_pairs. rewrite list_elem_of_omap. intros (i & Hi & Hp).
  destruct (ev_attrs i !! name) as [n|] eqn:En; [|discriminate].
  destruct (truthy_id (id_at w n)) eqn:Et; [|discriminate].
  injection Hp as <-. simpl. auto.
Qed.

Lemma node_pairs_elem w name l i n :
  i ∈ l -> ev_attrs i !! name = Some n -> truthy_id (id_at w n) = true ->
  (i, n) ∈ node_pairs w name l.
Proof.
  intros Hi En Ht. unfold node_pairs. apply list_elem_of_omap.
  exists i. split; [exact Hi|]. by rewrite En, Ht.
Qed.

(** The ids read from the pairs are the key list. *)
Lemma read_ids_run w ps :
  Forall (fun p : Event * nat => is_Some (heap w !! p.2)) ps ->
  mapM (fun p : Event * nat => read_id (snd p)) ps w
  = (Returned (map (fun p : Event * nat => id_at w p.2) ps), w).
Proof.
  induction 1 as [|p ps [d Hd] _ IH]; [reflexivity|].
  cbn [mapM map].
  rewrite (bind_returned _ _ _ _ _ (read_id_run _ _ w Hd)).
  rewrite (bind_returned _ _ _ _ _ IH).
  by rewrite (id_at_Some _ _ _ Hd).
Qed.

Lemma key_list_node_pairs w name l :
  attrs_ok w name l = true ->
  map (fun p : Event * nat => id_at w p.2) (node_pairs w name l) = key_list w name l.
Proof.
  induction l as [|i l IH]; intros Hok; [reflexivity|].
  apply attrs_ok_cons in Hok as [(n & d & En & Ed) Hl].
  specialize (IH Hl).
  unfold node_pairs, key_list, node_at in *. cbn [omap list_omap].
  rewrite En, Ed, (id_at_Some _ _ _ Ed).
  destruct (truthy_id (nd_id d)); [|exact IH].
  cbn [map snd]. by rewrite IH, (id_at_Some _ _ _ Ed).
Qed.

Lemma node_get_ref_run n item d w :
  heap w !! n = Some d ->
  node_get_ref get_ref n item w = (Returned (get_ref d item), w).
Proof. intros H. unfold node_get_ref. by rewrite H. Qed.

Lemma node_bind_data_run n data r d w :
  heap w !! n = Some d ->
  node_bind_data n data r w
  = (Returned tt,
     {| heap := <[n := bind_data d data r]> (heap w);
        get_multi_calls := get_multi_calls w |}).
Proof. intros H. unfold node_bind_data. by rewrite H. Qed.

(** The loop binds, to every node of the pairs, the answer for its id (or
    the empty body); it touches no other object, no node id and not the
    log. *)
Lemma for_each_bind_run (res : gmap node_id (option Body)) (ps : list (Event * nat)) :
  forall w,
    Forall (fun p : Event * nat => is_Some (heap w !! p.2)) ps ->
    exists w',
      for_each ps (fun p : Event * nat =>
        let (item, node) := p in
        k ← read_id node;
        let data := or_empty (dict_get res k) in
        r ← node_get_ref get_ref node item;
        node_bind_data node data r) w = (Returned tt, w')
      /\ get_multi_calls w' = get_multi_calls w
      /\ (forall n, id_at w' n = id_at w n)
      /\ (forall n, n ∉ ps.*2 -> heap w' !! n = heap w !! n)
      /\ (forall n, n ∈ ps.*2 ->
            exists d', heap w' !! n = Some d'
                       /\ nd_data d' = Some (or_empty (dict_get res (id_at w n)))).
Proof.
  induction ps as [|[item node] ps IH]; intros w Hall.
  - exists w. split; [reflexivity|]. split; [reflexivity|].
    split; [reflexivity|]. split; [reflexivity|].
    intros n Hn. cbn in Hn. by apply elem_of_nil in Hn.
  - apply Forall_cons in Hall as [[d Hd] Hrest]. cbn [snd] in Hd.
    set (data := or_empty (dict_get res (nd_id d))).
    set (w1 := {| heap := <[node := bind_data d data (get_ref d item)]> (heap w);
                  get_multi_calls := get_multi_calls w |}).
    assert (Hid1 : forall n, id_at w1 n = id_at w n).
    { intros n. unfold id_at, w1. cbn [heap].
      destruct (decide (node = n)) as [<-|Hne].
      - by rewrite lookup_insert_eq, Hd.
      - by rewrite lookup_insert_ne. }
    assert (Hrest1 : Forall (fun p : Event * nat => is_Some (heap w1 !! p.2)) ps).
    { eapply Forall_impl; [exact Hrest|]. intros p [d0 Hp]. unfold w1. cbn [heap].
      destruct (decide (node = p.2)) as [<-|Hne].
      - rewrite lookup_insert_eq. eauto.
      - rewrite lookup_insert_ne by done. eauto. }
    destruct (IH w1 Hrest1) as (w' & Hrun & Hcalls & Hids & Hout & Hin).
    exists w'. split; [|split; [|split; [|split]]].
    + cbn [for_each].
      erewrite bind_returned; [exact Hrun|].
      rewrite (bind_returned _ _ _ _ _ (read_id_run _ _ w Hd)).
      rewrite (bind_returned _ _ _ _ _ (node_get_ref_run _ item _ w Hd)).
      by rewrite (node_bind_data_run _ _ _ _ w Hd).
    + by rewrite Hcalls.
    + intros n. by rewrite Hids, Hid1.
    + intros n Hn. rewrite fmap_cons, not_elem_of_cons in Hn. destruct Hn as [Hne Hn].
      rewrite (Hout n Hn). unfold w1. cbn [heap]. cbn [snd] in Hne.
      by rewrite lookup_insert_ne.
    + intros n Hn.
      destruct (decide (n ∈ ps.*2)) as [Hps|Hps].
      * destruct (Hin n Hps) as (d' & Hd' & Hdata). exists d'.
        split; [exact Hd'|]. by rewrite Hdata, Hid1.
      * rewrite fmap_cons, elem_of_cons in Hn. destruct Hn as [->|Hn]; [|done].
        cbn [snd] in *. rewrite (Hout node Hps). unfold w1. cbn [heap].
        rewrite lookup_insert_eq. eexists. split; [reflexivity|].
        cbn [bind_data nd_data]. by rewrite (id_at_Some _ _ _ Hd).
Qed.

Lemma key_list_nil_iff w name l :
  attrs_ok w name l = true ->
  key_list w name l = [] <-> existsb (has_node_id w name) l = false.
Proof.
  induction l as [|i l IH]; intros Hok; [done|].
  apply attrs_ok_cons in Hok as [(n & d & En & Ed) Hl].
  specialize (IH Hl). unfold key_list, has_node_id, node_at in *.
  cbn [omap list_omap existsb]. rewrite En, Ed.
  destruct (truthy_id (nd_id d)); cbn [orb]; [split; discriminate | exact IH].
Qed.

(** What a call of [bind_nodes] does, when every event has the attribute:
    it returns; it logs one call with the key list, or none when the key
    list is empty, and then changes nothing at all; it leaves every node
    id and every node without a node id as it was; and it binds, to the
    node of every event with a node id, the answer for that id or the
    empty body. *)
Lemma bind_nodes_run w name l :
  attrs_ok w name l = true ->
  exists w',
    bind_nodes get_multi get_ref l name w = (Returned tt, w')
    /\ get_multi_calls w'
       = (get_multi_calls w
          ++ match key_list w name l with [] => [] | _ :: _ => [key_list w name l] end)%list
    /\ (key_list w name l = [] -> w' = w)
    /\ (forall n, id_at w' n = id_at w n)
    /\ (forall n, truthy_id (id_at w n) = false -> heap w' !! n = heap w !! n)
    /\ (forall i n, i ∈ l -> ev_attrs i !! name = Some n ->
          truthy_id (id_at w n) = true ->
          exists d', heap w' !! n = Some d'
                     /\ nd_data d'
                        = Some (or_empty (dict_get (get_multi (key_list w name l))
                                                   (id_at w n)))).
Proof.
  intros Hok. unfold bind_nodes.
  rewrite (bind_returned _ _ _ _ _ (object_nodes_run w name l Hok)).
  rewrite (bind_returned _ _ _ _ _
             (read_ids_run w _ (node_pairs_allocated w name l Hok))).
  rewrite (key_list_node_pairs w name l Hok).
  destruct (key_list w name l) as [|k ks] eqn:Ekeys.
  - exists w. split; [reflexivity|]. split; [by rewrite app_nil_r|].
    split; [done|]. split; [done|]. split; [done|].
    intros i n Hi En Ht. exfalso.
    pose proof (node_pairs_elem w name l i n Hi En Ht) as Hin.
    rewrite <- (key_list_node_pairs w name l Hok) in Ekeys.
    destruct (node_pairs w name l); [by apply elem_of_nil in Hin | discriminate].
  - set (w2 := {| heap := heap w;
                  get_multi_calls := (get_multi_calls w ++ [k :: ks])%list |}).
    assert (Hcall : nodestore_get_multi get_multi (k :: ks) w
                    = (Returned (get_multi (k :: ks)), w2)) by reflexivity.
    rewrite (bind_returned _ _ _ _ _ Hcall).
    destruct (for_each_bind_run (get_multi (k :: ks)) (node_pairs w name l) w2
                (node_pairs_allocated w name l Hok))
      as (w' & Hrun & Hcalls & Hids & Hout & Hin).
    exists w'. split; [exact Hrun|]. split; [by rewrite Hcalls|].
    split; [discriminate|]. split; [exact Hids|]. split.
    + intros n Hn. rewrite Hout; [reflexivity|].
      intros Hmem. apply list_elem_of_fmap in Hmem as ([i n'] & -> & Hp).
      apply node_pairs_truthy in Hp as (_ & _ & Ht). cbn [snd] in *. congruence.
    + intros i n Hi En Ht. apply Hin. apply list_elem_of_fmap.
      exists (i, n). split; [reflexivity|]. by apply node_pairs_elem.
Qed.

End BindNodesFacts.

(** ** What [bind_nodes] asks the blob store and what it binds *)

Section BindNodesClaims.

Variable get_multi : list node_id -> gmap node_id (option Body).
Variable get_ref : NodeData -> Event -> option Z.

Lemma calls_since_app w w' (new : list (list node_id)) :
  get_multi_calls w' = (get_multi_calls w ++ new)%list -> calls_since w w' = new.
Proof. intros H. unfold calls_since. rewrite H. apply drop_app_length. Qed.

(** Events without a node id add nothing to the key list. *)
Lemma key_list_filter w name l :
  key_list w name (List.filter (has_node_id w name) l) = key_list w name l.
Proof.
  induction l as [|i l IH]; [reflexivity|].
  cbn [List.filter]. unfold key_list, has_node_id in *.
  destruct (node_at w name i) as [d|] eqn:Ei.
  - destruct (truthy_id (nd_id d)) eqn:Et; cbn [omap list_omap].
    + rewrite Ei, Et. f_equal. exact IH.
    + rewrite Ei, Et. exact IH.
  - cbn [omap list_omap]. rewrite Ei. exact IH.
Qed.

(** A node id occurs in the key list once for every event that carries
    it. *)
Lemma key_list_count w name l (k : node_id) :
  length (List.filter (fun x => bool_decide (x = k)) (key_list w name l))
  = length (List.filter (carries w name k) l).
Proof.
  induction l as [|i l IH]; [reflexivity|].
  unfold key_list, carries in *. cbn [omap list_omap List.filter].
  destruct (node_at w name i) as [d|]; [|exact IH].
  destruct (truthy_id (nd_id d)); cbn [andb List.filter]; [|exact IH].
  destruct (bool_decide (nd_id d = k)); cbn [length]; by rewrite IH.
Qed.

Lemma carries_inv w name k i :
  carries w name k i = true ->
  exists n d, ev_attrs i !! name = Some n /\ heap w !! n = Some d
              /\ nd_id d = k /\ truthy_id (id_at w n) = true.
Proof.
  unfold carries, node_at. intros H.
  destruct (ev_attrs i !! name) as [n|] eqn:En; [|discriminate].
  destruct (heap w !! n) as [d|] eqn:Ed; [|discriminate].
  apply andb_prop in H as [Ht Hk]. apply bool_decide_eq_true in Hk.
  exists n, d. by rewrite (id_at_Some _ _ _ Ed).
Qed.

(** C1, amended: a call of [bind_nodes] returns after exactly one
    multi-get when at least one event of the list has a node id, however
    many events there are, and after none when no event has one. *)
Theorem bind_nodes_one_call_if_some_node_id w name l :
  attrs_ok w name l = true ->
  exists w',
    bind_nodes get_multi get_ref l name w = (Returned tt, w')
    /\ length (calls_since w w')
       = if existsb (has_node_id w name) l then 1%nat else 0%nat.
Proof.
  intros Hok.
  destruct (bind_nodes_run get_multi get_ref w name l Hok)
    as (w' & Hrun & Hcalls & _).
  exists w'. split; [exact Hrun|].
  rewrite (calls_since_app _ _ _ Hcalls).
  pose proof (key_list_nil_iff w name l Hok) as Hnil.
  destruct (key_list w name l) as [|k ks].
  - by rewrite (proj1 Hnil eq_refl).
  - destruct (existsb (has_node_id w name) l); [reflexivity|].
    by specialize (proj2 Hnil eq_refl).
Qed.

(** The key list is the node ids of the events that have one, event by
    event in the order of the list. *)
Lemma key_list_in_order w name l :
  key_list w name l = event_node_id w name <$> List.filter (has_node_id w name) l.
Proof.
  induction l as [|i l IH]; [reflexivity|].
  unfold key_list, has_node_id, event_node_id in *. cbn [omap list_omap List.filter].
  destruct (node_at w name i) as [d|] eqn:Ei; [|exact IH].
  destruct (truthy_id (nd_id d)); [|exact IH].
  rewrite fmap_cons, Ei. f_equal. exact IH.
Qed.

(** C2, amended: a call of [bind_nodes] asks the blob store at most once,
    and the key list of that multi-get is the node ids of the events of
    the list that have one, one entry for each such event, in the order
    of the list; so it holds a node id once for every event that carries
    it: an id shared by several events is repeated, not merged. *)
Theorem bind_nodes_key_list_once_per_event w name l :
  attrs_ok w name l = true ->
  exists w',
    bind_nodes get_multi get_ref l name w = (Returned tt, w')
    /\ (length (calls_since w w') <= 1)%nat
    /\ forall ks, ks ∈ calls_since w w' ->
         ks = event_node_id w name <$> List.filter (has_node_id w name) l
         /\ forall k,
              length (List.filter (fun x => bool_decide (x = k)) ks)
              = length (List.filter (carries w name k) l).
Proof.
  intros Hok.
  destruct (bind_nodes_run get_multi get_ref w name l Hok)
    as (w' & Hrun & Hcalls & _).
  exists w'. split; [exact Hrun|].
  rewrite (calls_since_app _ _ _ Hcalls).
  destruct (key_list w name l) as [|k0 ks0] eqn:Ekeys.
  - split; [cbn; lia|]. intros ks Hks. by apply elem_of_nil in Hks.
  - split; [cbn; lia|]. intros ks Hks.
    apply list_elem_of_singleton in Hks as ->. rewrite <- Ekeys. split.
    + apply key_list_in_order.
    + intros k. apply key_list_count.
Qed.

(** C3: when the answer of the multi-get has no entry for the node id of
    an event of the list, [bind_nodes] returns without an exception and
    the node of that event holds the empty body. *)
Theorem bind_nodes_missing_blob_binds_empty_body w name l j i (k : node_id) :
  attrs_ok w name l = true ->
  l !! j = Some i ->
  carries w name k i = true ->
  get_multi (key_list w name l) !! k = None ->
  exists w',
    bind_nodes get_multi get_ref l name w = (Returned tt, w')
    /\ nd_data <$> node_at w' name i = Some (Some ∅).
Proof.
  intros Hok Hj Hk Habsent.
  destruct (bind_nodes_run get_multi get_ref w name l Hok)
    as (w' & Hrun & _ & _ & _ & _ & Hbound).
  exists w'. split; [exact Hrun|].
  apply carries_inv in Hk as (n & d & En & Ed & Hid & Ht).
  destruct (Hbound i n (list_elem_of_lookup_2 _ _ _ Hj) En Ht) as (d' & Hd' & Hdata).
  unfold node_at. rewrite En, Hd'. cbn. rewrite Hdata.
  rewrite (id_at_Some _ _ _ Ed), Hid. unfold dict_get. by rewrite Habsent.
Qed.

(** C8: [bind_nodes] returns without an exception, the key list of its
    multi-get is the one of the events that have a node id, and the node
    of an event without a node id is after the call what it was before. *)
Theorem bind_nodes_skips_events_without_node_id w name l :
  attrs_ok w name l = true ->
  exists w',
    bind_nodes get_multi get_ref l name w = (Returned tt, w')
    /\ (forall ks, ks ∈ calls_since w w' ->
          ks = key_list w name (List.filter (has_node_id w name) l)
          /\ Forall (fun k => truthy_id k = true) ks)
    /\ (forall j i, l !! j = Some i -> has_node_id w name i = false ->
          node_at w' name i = node_at w name i).
Proof.
  intros Hok.
  destruct (bind_nodes_run get_multi get_ref w name l Hok)
    as (w' & Hrun & Hcalls & _ & _ & Hsame & _).
  exists w'. split; [exact Hrun|]. split.
  - rewrite (calls_since_app _ _ _ Hcalls), key_list_filter.
    intros ks Hks.
    assert (ks = key_list w name l) as ->.
    { destruct (key_list w name l); [by apply elem_of_nil in Hks|].
      by apply list_elem_of_singleton in Hks. }
    split; [reflexivity|].
    rewrite <- (key_list_node_pairs w name l Hok).
    apply Forall_forall. intros k Hin.
    apply list_elem_of_fmap in Hin as (p & -> & Hp).
    by apply node_pairs_truthy in Hp as (_ & _ & Ht).
  - intros j i Hj Hno. unfold has_node_id, node_at in *.
    destruct (ev_attrs i !! name) as [n|] eqn:En; [|reflexivity].
    apply Hsame. unfold id_at. by destruct (heap w !! n).
Qed.


(** C10: when no event of the list has a node id, and so for the empty
    list, [bind_nodes] returns at once: the world after the call is the
    world before it, with no call logged and no object changed. *)
Theorem bind_nodes_without_node_ids_is_noop w name l :
  attrs_ok w name l = true ->
  existsb (has_node_id w name) l = false ->
  bind_nodes get_multi get_ref l name w = (Returned tt, w).
Proof.
  intros Hok Hnone.
  destruct (bind_nodes_run get_multi get_ref w name l Hok)
    as (w' & Hrun & _ & Hnil & _).
  rewrite Hrun. f_equal. apply Hnil. by apply key_list_nil_iff.
Qed.

End BindNodesClaims.

(** The run on the four example events: one multi-get with the keys [a],
    [a], [b]; the two events with the id [a], for which the blob store has
    nothing, hold the empty body, the event without an id is untouched and
    the event with the id [b] holds its blob. *)
Example bind_nodes_example :
  let run := bind_nodes_default (blob_store_get_multi ex_blobs) project_ref
               ex_events ex_world in
  run.1 = Returned tt
  /\ get_multi_calls run.2 = [[Some "a"; Some "a"; Some "b"]]
  /\ (fun n => nd_data <$> heap run.2 !! n) <$> [0; 1; 2; 3]%nat
     = [Some (Some ∅); Some (Some ∅); Some None;
        Some (Some {[ "message" := "boom" ]})].
Proof. by vm_compute. Qed.

(** An event without the attribute stops the call in the comprehension,
    before anything is asked or bound. *)
Example bind_nodes_missing_attribute :
  bind_nodes (blob_store_get_multi ex_blobs) project_ref ex_events "body" ex_world
  = (Raised (AttributeError "body"), ex_world).
Proof. reflexivity. Qed.

Lemma bind_nodes_one_call_if_some_node_id_witness :
  attrs_ok ex_world "data" ex_events = true
  /\ exists w',
       bind_nodes (blob_store_get_multi ex_blobs) project_ref ex_events "data" ex_world
       = (Returned tt, w')
       /\ length (calls_since ex_world w') = 1%nat.
Proof.
  split; [reflexivity|].
  apply (bind_nodes_one_call_if_some_node_id
           (blob_store_get_multi ex_blobs) project_ref ex_world "data" ex_events).
  reflexivity.
Defined.

(** C1 fails for a list without node ids: on the empty list the call
    returns without a multi-get. *)
Lemma bind_nodes_empty_list_makes_no_call :
  exists w',
    bind_nodes (blob_store_get_multi ex_blobs) project_ref [] "data" ex_world
    = (Returned tt, w')
    /\ length (calls_since ex_world w') <> 1%nat.
Proof. exists ex_world. split; [reflexivity|]. vm_compute. discriminate. Qed.

Lemma bind_nodes_key_list_once_per_event_witness :
  attrs_ok ex_world "data" ex_events = true
  /\ exists w',
       bind_nodes (blob_store_get_multi ex_blobs) project_ref ex_events "data" ex_world
       = (Returned tt, w')
       /\ (length (calls_since ex_world w') <= 1)%nat
       /\ forall ks, ks ∈ calls_since ex_world w' ->
            ks = event_node_id ex_world "data"
                   <$> List.filter (has_node_id ex_world "data") ex_events
            /\ forall k,
                 length (List.filter (fun x => bool_decide (x = k)) ks)
                 = length (List.filter (carries ex_world "data" k) ex_events).
Proof.
  split; [reflexivity|].
  apply (bind_nodes_key_list_once_per_event
           (blob_store_get_multi ex_blobs) project_ref ex_world "data" ex_events).
  reflexivity.
Defined.

(** C2 fails when two events share a node id: the key list of the
    multi-get holds that id twice. *)
Lemma bind_nodes_shared_node_id_is_repeated :
  exists w' ks,
    bind_nodes (blob_store_get_multi ex_blobs) project_ref ex_events "data" ex_world
    = (Returned tt, w')
    /\ calls_since ex_world w' = [ks]
    /\ ks = [Some "a"; Some "a"; Some "b"]
    /\ ~ NoDup ks.
Proof.
  exists (bind_nodes (blob_store_get_multi ex_blobs) project_ref ex_events "data"
            ex_world).2, [Some "a"; Some "a"; Some "b"].
  split; [by vm_compute|]. split; [by vm_compute|]. split; [reflexivity|].
  intros H. apply NoDup_cons in H as [H _]. apply H. apply list_elem_of_here.
Qed.

Lemma bind_nodes_missing_blob_binds_empty_body_witness :
  attrs_ok ex_world "data" ex_events = true
  /\ ex_events !! 0%nat = Some (ex_event "e1" 100 0)
  /\ carries ex_world "data" (Some "a") (ex_event "e1" 100 0) = true
  /\ blob_store_get_multi ex_blobs (key_list ex_world "data" ex_events) !! Some "a" = None
  /\ exists w',
       bind_nodes (blob_store_get_multi ex_blobs) project_ref ex_events "data" ex_world
       = (Returned tt, w')
       /\ nd_data <$> node_at w' "data" (ex_event "e1" 100 0) = Some (Some ∅).
Proof.
  split; [reflexivity|]. split; [reflexivity|]. split; [reflexivity|].
  split; [by vm_compute|].
  apply (bind_nodes_missing_blob_binds_empty_body
           (blob_store_get_multi ex_blobs) project_ref ex_world "data" ex_events
           0%nat (ex_event "e1" 100 0) (Some "a"));
    first [reflexivity | by vm_compute].
Defined.

Lemma bind_nodes_skips_events_without_node_id_witness :
  attrs_ok ex_world "data" ex_events = true
  /\ exists w',
       bind_nodes (blob_store_get_multi ex_blobs) project_ref ex_events "data" ex_world
       = (Returned tt, w')
       /\ (forall ks, ks ∈ calls_since ex_world w' ->
             ks = key_list ex_world "data"
                    (List.filter (has_node_id ex_world "data") ex_events)
             /\ Forall (fun k => truthy_id k = true) ks)
       /\ (forall j i, ex_events !! j = Some i ->
             has_node_id ex_world "data" i = false ->
             node_at w' "data" i = node_at ex_world "data" i).
Proof.
  split; [reflexivity|].
  apply (bind_nodes_skips_events_without_node_id
           (blob_store_get_multi ex_blobs) project_ref ex_world "data" ex_events).
  reflexivity.
Defined.


Lemma bind_nodes_without_node_ids_is_noop_witness :
  attrs_ok ex_world "data" [ex_event "e3" 300 2] = true
  /\ existsb (has_node_id ex_world "data") [ex_event "e3" 300 2] = false
  /\ bind_nodes (blob_store_get_multi ex_blobs) project_ref [ex_event "e3" 300 2]
       "data" ex_world
     = (Returned tt, ex_world).
Proof.
  split; [reflexivity|]. split; [reflexivity|].
  apply (bind_nodes_without_node_ids_is_noop
           (blob_store_get_multi ex_blobs) project_ref ex_world "data"
           [ex_event "e3" 300 2]); reflexivity.
Defined.

(** ** The abstract query methods *)

(** Each of the four query methods of [EventStorage] raises
    [NotImplementedError] and leaves the world as it is. *)
Lemma abstract_methods_raise w project_id event_id cols start end_ conditions
      filter_keys orderby limit offset event :
  get_event_by_id project_id event_id cols w = (Raised NotImplementedError, w)
  /\ get_events start end_ cols conditions filter_keys orderby limit offset w
     = (Raised NotImplementedError, w)
  /\ get_next_event_id event conditions filter_keys w = (Raised NotImplementedError, w)
  /\ get_prev_event_id event conditions filter_keys w = (Raised NotImplementedError, w).
Proof. repeat split. Qed.

(** ** The query backend *)

Module BackendFacts.

Import Backend.

Lemma key_project cols e : key (project cols e) = key e.
Proof. reflexivity. Qed.

Lemma has_key_true k e : has_key k e = true <-> key e = k.
Proof. unfold has_key. apply bool_decide_eq_true. Qed.

Lemma has_key_false k e : has_key k e = false <-> key e <> k.
Proof. unfold has_key. apply bool_decide_eq_false. Qed.

(** *** Sorting keeps the rows *)

Lemma insert_by_perm orderby e l : insert_by orderby e l ≡ₚ e :: l.
Proof.
  induction l as [|x l IH]; [reflexivity|].
  cbn [insert_by]. destruct (compare_by orderby e x); try reflexivity.
  - rewrite IH. apply perm_swap.
  - rewrite IH. apply perm_swap.
Qed.

Lemma sort_by_perm orderby l : sort_by orderby l ≡ₚ l.
Proof.
  induction l as [|x l IH]; [reflexivity|].
  cbn [sort_by]. by rewrite insert_by_perm, IH.
Qed.

Lemma listing_elem store conditions filter_keys e :
  e ∈ listing store conditions filter_keys
  <-> e ∈ store /\ matches conditions filter_keys e = true.
Proof.
  unfold listing. rewrite sort_by_perm, list_elem_of_filter.
  rewrite Is_true_true. tauto.
Qed.

Lemma listing_keys_NoDup store conditions filter_keys :
  NoDup (key <$> store) -> NoDup (key <$> listing store conditions filter_keys).
Proof.
  intros Hnd. unfold listing. rewrite sort_by_perm.
  induction store as [|e store IH]; [constructor|].
  rewrite fmap_cons in Hnd. apply NoDup_cons in Hnd as [Hnotin Hnd].
  rewrite filter_cons. destruct (decide _); [|by apply IH].
  rewrite fmap_cons. apply NoDup_cons. split; [|by apply IH].
  intros Hin. apply Hnotin. apply list_elem_of_fmap in Hin as (e' & -> & He').
  apply list_elem_of_fmap. exists e'. split; [reflexivity|].
  by apply list_elem_of_filter in He' as [_ ?].
Qed.

(** Every event [get_events] returns is a stored row that the filter lets
    through, restricted to the columns. *)
Lemma get_events_elem store now a e :
  e ∈ get_events store now a ->
  exists row, row ∈ listing store (a_conditions a) (a_filter_keys a)
              /\ key row = key e.
Proof.
  unfold get_events, query. intros He.
  apply list_elem_of_fmap in He as (row & -> & Hrow).
  exists row. split; [|reflexivity].
  apply subseteq_take, subseteq_drop in Hrow.
  rewrite sort_by_perm in Hrow. apply list_elem_of_filter in Hrow as [Hm Hin].
  apply Is_true_true, andb_prop in Hm as [_ Hm].
  by apply listing_elem.
Qed.

(** *** Neighbours in a list with distinct keys *)

Lemma before_in_cons k a b l :
  before_in k (a :: b :: l) = if has_key k b then Some a else before_in k (b :: l).
Proof. reflexivity. Qed.

Lemma after_in_cons k a b l :
  after_in k (a :: b :: l) = if has_key k a then Some b else after_in k (b :: l).
Proof. reflexivity. Qed.

Lemma before_in_elem k l p : before_in k l = Some p -> p ∈ l.
Proof.
  induction l as [|a [|b l] IH]; [discriminate..|].
  rewrite before_in_cons. destruct (has_key k b).
  - intros [= ->]. apply list_elem_of_here.
  - intros H. apply list_elem_of_further. by apply IH.
Qed.

Lemma after_in_elem k a l q : after_in k (a :: l) = Some q -> q ∈ l.
Proof.
  revert a. induction l as [|b l IH]; intros a; [discriminate|].
  rewrite after_in_cons. destruct (has_key k a).
  - intros [= ->]. apply list_elem_of_here.
  - intros H. apply list_elem_of_further. by apply (IH b).
Qed.

(** A row that is not the first has a row before it. *)
Lemma before_in_exists k l :
  k ∈ key <$> l -> is_first k l = false -> exists p, before_in k l = Some p.
Proof.
  induction l as [|a l IH]; intros Hin Hfirst; [by apply elem_of_nil in Hin|].
  unfold is_first in Hfirst. cbn [head] in Hfirst.
  rewrite fmap_cons, elem_of_cons in Hin.
  destruct Hin as [Hk|Hin]; [by apply has_key_false in Hfirst|].
  destruct l as [|b l]; [by apply elem_of_nil in Hin|].
  rewrite before_in_cons. destruct (has_key k b) eqn:Hb; [eauto|].
  apply IH; [exact Hin|]. unfold is_first. cbn [head]. exact Hb.
Qed.

(** A row that is not the last has a row after it. *)
Lemma after_in_exists k l :
  k ∈ key <$> l -> is_last k l = false -> exists q, after_in k l = Some q.
Proof.
  induction l as [|a l IH]; intros Hin Hlast; [by apply elem_of_nil in Hin|].
  destruct l as [|b l].
  - unfold is_last in Hlast. cbn in Hlast. apply has_key_false in Hlast.
    rewrite fmap_cons, elem_of_cons in Hin. destruct Hin as [Hk|Hin]; [done|].
    by apply elem_of_nil in Hin.
  - rewrite after_in_cons. destruct (has_key k a) eqn:Ha; [eauto|].
    apply IH.
    + rewrite fmap_cons, elem_of_cons in Hin. destruct Hin as [Hk|Hin]; [|exact Hin].
      apply has_key_false in Ha. congruence.
    + exact Hlast.
Qed.

(** The row after the row before [k] has key [k]. *)
Lemma after_before k l p :
  NoDup (key <$> l) -> before_in k l = Some p ->
  exists e, after_in (key p) l = Some e /\ key e = k.
Proof.
  induction l as [|a [|b l] IH]; [discriminate..|].
  intros Hnd. rewrite before_in_cons, after_in_cons. destruct (has_key k b) eqn:Hb.
  - intros [= ->]. exists b. split; [|by apply has_key_true].
    by rewrite (proj2 (has_key_true (key p) p) eq_refl).
  - intros Hp. rewrite fmap_cons in Hnd. apply NoDup_cons in Hnd as [Ha Hnd].
    assert (has_key (key p) a = false) as ->; [|by apply IH].
    apply has_key_false. intros Heq. apply Ha. rewrite Heq.
    apply list_elem_of_fmap. exists p. split; [reflexivity|].
    by apply before_in_elem in Hp.
Qed.

(** The row before the row after [k] has key [k]. *)
Lemma before_after k l q :
  NoDup (key <$> l) -> after_in k l = Some q ->
  exists e, before_in (key q) l = Some e /\ key e = k.
Proof.
  induction l as [|a [|b l] IH]; [discriminate..|].
  intros Hnd. rewrite before_in_cons, after_in_cons. destruct (has_key k a) eqn:Ha.
  - intros [= ->]. exists a. split; [|by apply has_key_true].
    by rewrite (proj2 (has_key_true (key q) q) eq_refl).
  - intros Hq. rewrite fmap_cons in Hnd. apply NoDup_cons in Hnd as [_ Hnd].
    assert (has_key (key q) b = false) as ->; [|by apply IH].
    apply has_key_false. intros Heq.
    rewrite fmap_cons in Hnd. apply NoDup_cons in Hnd as [Hb _].
    apply Hb. rewrite Heq.
    apply list_elem_of_fmap. exists q. split; [reflexivity|].
    by apply after_in_elem in Hq.
Qed.

(** *** Sorting orders the rows *)

Lemma compare_field_antisym field a b :
  compare_field field b a = CompOpp (compare_field field a b).
Proof.
  unfold compare_field.
  repeat match goal with |- context [if ?c then _ else _] => destruct c end;
    first [apply Z.compare_antisym | apply String.compare_antisym | reflexivity].
Qed.

Lemma compare_term_antisym term a b :
  compare_term term b a = CompOpp (compare_term term a b).
Proof.
  unfold compare_term. destruct term as [|c field]; [apply compare_field_antisym|].
  destruct (Ascii.eqb_spec c "-"%char) as [->|Hc].
  - by rewrite (compare_field_antisym field a b).
  - assert (forall X Y : comparison,
              match c with "-"%char => X | _ => Y end = Y) as Hother.
    { intros X Y. destruct c as [[] [] [] [] [] [] [] []]; congruence. }
    rewrite !Hother. apply compare_field_antisym.
Qed.

Lemma compare_by_antisym orderby a b :
  compare_by orderby b a = CompOpp (compare_by orderby a b).
Proof.
  induction orderby as [|term orderby IH]; [reflexivity|].
  cbn [compare_by]. rewrite (compare_term_antisym term a b).
  by destruct (compare_term term a b).
Qed.

Lemma insert_by_HdRel orderby x e l :
  ordered_by orderby x e -> HdRel (ordered_by orderby) x l ->
  HdRel (ordered_by orderby) x (insert_by orderby e l).
Proof.
  intros Hxe Hxl. destruct l as [|y l]; [by constructor|].
  cbn [insert_by]. apply HdRel_inv in Hxl.
  destruct (compare_by orderby e y); by constructor.
Qed.

Lemma insert_by_sorted orderby e l :
  Sorted (ordered_by orderby) l -> Sorted (ordered_by orderby) (insert_by orderby e l).
Proof.
  induction 1 as [|x l Hl IH Hx]; [by repeat constructor|].
  cbn [insert_by]. destruct (compare_by orderby e x) eqn:Hex.
  - constructor; [exact IH|]. apply insert_by_HdRel; [|exact Hx].
    unfold ordered_by. rewrite compare_by_antisym, Hex. discriminate.
  - constructor; [by constructor|]. constructor. unfold ordered_by. by rewrite Hex.
  - constructor; [exact IH|]. apply insert_by_HdRel; [|exact Hx].
    unfold ordered_by. rewrite compare_by_antisym, Hex. discriminate.
Qed.

Lemma sort_by_sorted orderby l : Sorted (ordered_by orderby) (sort_by orderby l).
Proof.
  induction l as [|x l IH]; [constructor|]. cbn [sort_by]. by apply insert_by_sorted.
Qed.

Lemma compare_by_project orderby cols a b :
  compare_by orderby (project cols a) (project cols b) = compare_by orderby a b.
Proof. induction orderby as [|term orderby IH]; [reflexivity|]. cbn [compare_by]. by rewrite IH. Qed.

Lemma Sorted_drop_by (R : relation Event) n l : Sorted R l -> Sorted R (drop n l).
Proof.
  revert l. induction n as [|n IH]; intros l Hl; [by rewrite drop_0|].
  destruct l as [|x l]; [constructor|]. apply IH. by apply Sorted_inv in Hl as [? _].
Qed.

Lemma Sorted_take_by (R : relation Event) n l : Sorted R l -> Sorted R (take n l).
Proof.
  revert n. induction l as [|x l IH]; intros n Hl; [by rewrite take_nil|].
  destruct n as [|n]; [constructor|]. apply Sorted_inv in Hl as [Hl Hx].
  cbn [take]. constructor; [by apply IH|].
  destruct l as [|y l]; [by destruct n; constructor|].
  destruct n; [constructor|]. constructor. by apply HdRel_inv in Hx.
Qed.

(** The result of a query is ordered per [orderby]. *)
Lemma query_sorted store start end_ cols conditions filter_keys orderby limit offset :
  Sorted (ordered_by orderby)
    (query store start end_ cols conditions filter_keys orderby limit offset).
Proof.
  unfold query. apply Sorted_fmap with (R1 := ordered_by orderby).
  - intros a b. unfold ordered_by. by rewrite compare_by_project.
  - apply Sorted_take_by, Sorted_drop_by, sort_by_sorted.
Qed.

(** The default ordering puts the later event first, and of two events of
    the same time the one with the greater event id. *)
Lemma default_order_descending a b :
  ordered_by default_orderby a b ->
  ev_timestamp b <= ev_timestamp a
  /\ (ev_timestamp a = ev_timestamp b ->
      String.compare (ev_event_id a) (ev_event_id b) <> Lt).
Proof.
  unfold ordered_by, default_orderby. cbn.
  destruct (Z.compare_spec (ev_timestamp a) (ev_timestamp b)) as [Heq|Hlt|Hgt]; cbn.
  - intros H. split; [lia|]. intros _.
    destruct (String.compare (ev_event_id a) (ev_event_id b)); cbn in H; congruence.
  - intros H. congruence.
  - intros _. split; lia.
Qed.

(** *** Stepping to the next and to the previous event *)

(** C4: let the pairs (project_id, event_id) of the stored rows be
    distinct, and let [E] be an event that [get_events] returns under the
    default ordering and that is neither the first nor the last row the
    filter lets through.  Then [get_next_event_id] finds an event, and
    [get_prev_event_id] on an event with the pair it returned gives the
    pair of [E]; and the same with next and previous exchanged. *)
Theorem next_prev_round_trip store now a j E :
  NoDup (key <$> store) ->
  a_orderby a = None ->
  get_events store now a !! j = Some E ->
  is_first (key E) (listing store (a_conditions a) (a_filter_keys a)) = false ->
  is_last (key E) (listing store (a_conditions a) (a_filter_keys a)) = false ->
  (exists k,
     get_next_event_id store E (a_conditions a) (a_filter_keys a) = inr k
     /\ forall N, key N = k ->
          get_prev_event_id store N (a_conditions a) (a_filter_keys a)
          = inr (ev_project_id E, ev_event_id E))
  /\ (exists k,
        get_prev_event_id store E (a_conditions a) (a_filter_keys a) = inr k
        /\ forall N, key N = k ->
             get_next_event_id store N (a_conditions a) (a_filter_keys a)
             = inr (ev_project_id E, ev_event_id E)).
Proof.
  intros Hnd _ Hj Hfirst Hlast.
  apply list_elem_of_lookup_2, get_events_elem in Hj as (row & Hrow & Hkey).
  assert (Hin : key E ∈ key <$> listing store (a_conditions a) (a_filter_keys a)).
  { apply list_elem_of_fmap. exists row. by split. }
  pose proof (listing_keys_NoDup store (a_conditions a) (a_filter_keys a) Hnd) as HndL.
  unfold get_next_event_id, get_prev_event_id. split.
  - destruct (before_in_exists _ _ Hin Hfirst) as [p Hp]. rewrite Hp.
    exists (key p). split; [reflexivity|]. intros N ->.
    destruct (after_before _ _ _ HndL Hp) as (e & -> & He). by rewrite He.
  - destruct (after_in_exists _ _ Hin Hlast) as [q Hq]. rewrite Hq.
    exists (key q). split; [reflexivity|]. intros N ->.
    destruct (before_after _ _ _ HndL Hq) as (e & -> & He). by rewrite He.
Qed.

Lemma next_prev_round_trip_witness :
  NoDup (key <$> scenario)
  /\ a_orderby (only_filter None None) = None
  /\ get_events scenario 1000 (only_filter None None) !! 1%nat
     = Some (project minimal_columns e2)
  /\ is_first (key e2) (listing scenario None None) = false
  /\ is_last (key e2) (listing scenario None None) = false
  /\ (exists k,
        get_next_event_id scenario (project minimal_columns e2) None None = inr k
        /\ forall N, key N = k ->
             get_prev_event_id scenario N None None = inr (42, "e2"))
  /\ (exists k,
        get_prev_event_id scenario (project minimal_columns e2) None None = inr k
        /\ forall N, key N = k ->
             get_next_event_id scenario N None None = inr (42, "e2")).
Proof.
  assert (Hnd : NoDup (key <$> scenario)).
  { apply (bool_decide_unpack (NoDup (key <$> scenario))). by vm_compute. }
  split; [exact Hnd|]. split; [reflexivity|]. split; [reflexivity|].
  split; [reflexivity|]. split; [reflexivity|].
  apply (next_prev_round_trip scenario 1000 (only_filter None None) 1%nat
           (project minimal_columns e2) Hnd); reflexivity.
Defined.

(** *** The defaults of [get_events] *)

(** C5: a call of [get_events] that gives no value for the optional
    parameters is the query from the epoch to the current time, with the
    columns [minimal_columns], ordered by descending time and then by
    descending event id, with limit 100 and offset 0. *)
Theorem get_events_defaults store now conditions filter_keys :
  get_events store now (only_filter conditions filter_keys)
  = query store 0 now minimal_columns conditions filter_keys
      ["-time"; "-event_id"] 100 0.
Proof. reflexivity. Qed.

Lemma query_length store start end_ cols conditions filter_keys orderby limit offset :
  (length (query store start end_ cols conditions filter_keys orderby limit offset)
   <= limit)%nat.
Proof. unfold query. rewrite length_map, length_take. lia. Qed.

(** What the defaults mean for the result: at most 100 events, none from
    before the epoch or from after the current time, the later ones
    first. *)
Lemma get_events_default_shape store now conditions filter_keys :
  let r := get_events store now (only_filter conditions filter_keys) in
  (length r <= 100)%nat
  /\ Forall (fun e => 0 <= ev_timestamp e <= now) r
  /\ Sorted (fun a b => ev_timestamp b <= ev_timestamp a) r.
Proof.
  cbv zeta. rewrite get_events_defaults. split; [apply query_length|]. split.
  - unfold query. apply Forall_forall. intros e He.
    apply list_elem_of_fmap in He as (row & -> & Hrow).
    apply subseteq_take, subseteq_drop in Hrow.
    rewrite sort_by_perm in Hrow. apply list_elem_of_filter in Hrow as [Hm _].
    apply Is_true_true, andb_prop in Hm as [Hr _].
    unfold in_range in Hr. apply andb_prop in Hr as [H1 H2].
    cbn [project ev_timestamp]. lia.
  - pose proof (query_sorted store 0 now minimal_columns conditions filter_keys
                  ["-time"; "-event_id"] 100 0) as Hs.
    induction Hs as [|x l Hl IH Hx]; [constructor|].
    constructor; [exact IH|]. destruct Hx as [|y l Hxy]; constructor.
    by apply default_order_descending in Hxy as [? _].
Qed.

(** Each parameter has its default on its own: a value that is given is
    used, whatever the other parameters. *)
Lemma get_events_explicit store now start end_ cols conditions filter_keys
      orderby limit offset :
  get_events store now
    {| a_start := Some start; a_end := Some end_; a_cols := Some cols;
       a_conditions := conditions; a_filter_keys := filter_keys;
       a_orderby := Some orderby; a_limit := Some limit; a_offset := Some offset |}
  = query store start end_ cols conditions filter_keys orderby limit offset.
Proof. reflexivity. Qed.

(** *** Point lookups *)

Lemma find_has_key_None k store :
  existsb (has_key k) store = false -> find (has_key k) store = None.
Proof.
  induction store as [|e store IH]; [reflexivity|].
  cbn [existsb find]. destruct (has_key k e); [discriminate|exact IH].
Qed.

(** C6: for a pair (project_id, event_id) that no stored row has,
    [get_event_by_id] fails with [NotFound]; it returns no event. *)
Theorem get_event_by_id_not_found store project_id event_id cols :
  existsb (has_key (project_id, event_id)) store = false ->
  get_event_by_id store project_id event_id cols = inl NotFound.
Proof.
  intros Hnone. unfold get_event_by_id. by rewrite find_has_key_None.
Qed.

Lemma get_event_by_id_not_found_witness :
  existsb (has_key (42, "e9")) scenario = false
  /\ get_event_by_id scenario 42 "e9" minimal_columns = inl NotFound.
Proof.
  split; [reflexivity|].
  apply (get_event_by_id_not_found scenario 42 "e9" minimal_columns). reflexivity.
Defined.

(** A pair that a stored row has is found: the lookup returns a row with
    that pair, restricted to the columns. *)
Lemma get_event_by_id_found store project_id event_id cols :
  existsb (has_key (project_id, event_id)) store = true ->
  exists row, row ∈ store /\ key row = (project_id, event_id)
              /\ get_event_by_id store project_id event_id cols
                 = inr (project cols row).
Proof.
  unfold get_event_by_id.
  induction store as [|e store IH]; [discriminate|].
  cbn [existsb find]. destruct (has_key _ e) eqn:He.
  - intros _. exists e. split; [apply list_elem_of_here|].
    split; [by apply has_key_true|reflexivity].
  - intros H. destruct (IH H) as (row & Hrow & Hk & Hget).
    exists row. split; [by apply list_elem_of_further|]. by split.
Qed.

End BackendFacts.

(** * Further properties of [bind_nodes] *)

Section BindNodesMore.

Variable get_multi : list node_id -> gmap node_id (option Body).
Variable get_ref : NodeData -> Event -> option Z.

(** The loop of [bind_nodes] for the answer [res]. *)
Local Abbreviation bind_loop res ps :=
  (for_each ps (fun p : Event * nat =>
     let (item, node) := p in
     k ← read_id node;
     let data := or_empty (dict_get res k) in
     r ← node_get_ref get_ref node item;
     node_bind_data node data r)).

(** With every attribute in place, a call is the guard on the key list
    followed by the logged multi-get and the loop. *)
Lemma bind_nodes_unfold w name l :
  attrs_ok w name l = true ->
  bind_nodes get_multi get_ref l name w
  = match key_list w name l with
    | [] => (Returned tt, w)
    | _ :: _ =>
        bind_loop (get_multi (key_list w name l)) (node_pairs w name l)
          {| heap := heap w;
             get_multi_calls := (get_multi_calls w ++ [key_list w name l])%list |}
    end.
Proof.
  intros Hok. unfold bind_nodes.
  rewrite (bind_returned _ _ _ _ _ (object_nodes_run w name l Hok)).
  rewrite (bind_returned _ _ _ _ _
             (read_ids_run w _ (node_pairs_allocated w name l Hok))).
  rewrite (key_list_node_pairs w name l Hok).
  by destruct (key_list w name l).
Qed.

(** The loop keeps the set of objects. *)
Lemma for_each_bind_dom (res : gmap node_id (option Body)) ps :
  forall w w',
    bind_loop res ps w = (Returned tt, w') ->
    forall n, is_Some (heap w' !! n) <-> is_Some (heap w !! n).
Proof.
  induction ps as [|[item node] ps IH]; intros w w' Hrun n.
  - by injection Hrun as <-.
  - cbn [for_each] in Hrun. unfold mbind at 1, M_bind at 1 in Hrun.
    unfold mbind at 1, M_bind at 1, read_id at 1 in Hrun.
    destruct (heap w !! node) as [d|] eqn:Hd; [|discriminate].
    rewrite (bind_returned _ _ _ _ _ (node_get_ref_run get_ref _ item _ w Hd)) in Hrun.
    rewrite (node_bind_data_run _ _ _ _ w Hd) in Hrun.
    rewrite (IH _ _ Hrun n). cbn [heap].
    destruct (decide (node = n)) as [<-|Hne].
    + rewrite lookup_insert_eq, Hd. split; eauto.
    + by rewrite lookup_insert_ne.
Qed.

(** The key list and the pairs depend on the world through the node ids
    only. *)
Lemma key_list_by_id w name l :
  key_list w name l
  = omap (fun i => match ev_attrs i !! name with
                   | Some n => if truthy_id (id_at w n) then Some (id_at w n) else None
                   | None => None
                   end) l.
Proof.
  unfold key_list. induction l as [|i l IH]; [reflexivity|].
  cbn [omap list_omap]. rewrite IH. unfold node_at, id_at.
  destruct (ev_attrs i !! name) as [n|]; [|reflexivity].
  by destruct (heap w !! n).
Qed.

Lemma key_list_ids w w' name l :
  (forall n, id_at w' n = id_at w n) -> key_list w' name l = key_list w name l.
Proof.
  intros Hids. rewrite !key_list_by_id.
  induction l as [|i l IH]; [reflexivity|].
  cbn [omap list_omap]. rewrite IH.
  destruct (ev_attrs i !! name) as [n|]; [|reflexivity]. by rewrite Hids.
Qed.

Lemma node_pairs_ids w w' name l :
  (forall n, id_at w' n = id_at w n) -> node_pairs w' name l = node_pairs w name l.
Proof.
  intros Hids. unfold node_pairs.
  induction l as [|i l IH]; [reflexivity|].
  cbn [omap list_omap]. rewrite IH.
  destruct (ev_attrs i !! name) as [n|]; [|reflexivity]. by rewrite Hids.
Qed.

Lemma attrs_ok_dom w w' name l :
  (forall n, is_Some (heap w' !! n) <-> is_Some (heap w !! n)) ->
  attrs_ok w name l = true -> attrs_ok w' name l = true.
Proof.
  intros Hdom. unfold attrs_ok. rewrite !forallb_forall. intros Hok i Hi.
  specialize (Hok i Hi). unfold node_at in *.
  destruct (ev_attrs i !! name) as [n|]; [|discriminate].
  destruct (heap w !! n) as [d|] eqn:Hd; [|discriminate].
  destruct (proj2 (Hdom n) (ex_intro _ d Hd)) as [d' ->]. reflexivity.
Qed.

(** The whole effect of a call. *)
Lemma bind_nodes_effect w name l :
  attrs_ok w name l = true ->
  exists w',
    bind_nodes get_multi get_ref l name w = (Returned tt, w')
    /\ get_multi_calls w'
       = (get_multi_calls w
          ++ match key_list w name l with [] => [] | _ :: _ => [key_list w name l] end)%list
    /\ (forall n, id_at w' n = id_at w n)
    /\ (forall n, is_Some (heap w' !! n) <-> is_Some (heap w !! n))
    /\ (forall n, n ∉ (node_pairs w name l).*2 -> heap w' !! n = heap w !! n)
    /\ (forall n, n ∈ (node_pairs w name l).*2 ->
          exists d', heap w' !! n = Some d'
                     /\ nd_data d'
                        = Some (or_empty (dict_get (get_multi (key_list w name l))
                                                   (id_at w n)))).
Proof.
  intros Hok. rewrite (bind_nodes_unfold w name l Hok).
  destruct (key_list w name l) as [|k ks] eqn:Ekeys.
  - exists w. split; [reflexivity|]. split; [by rewrite app_nil_r|].
    split; [done|]. split; [done|]. split; [done|].
    intros n Hn. exfalso.
    rewrite <- (key_list_node_pairs w name l Hok) in Ekeys.
    destruct (node_pairs w name l); [by apply elem_of_nil in Hn | discriminate].
  - set (w2 := {| heap := heap w;
                  get_multi_calls := (get_multi_calls w ++ [k :: ks])%list |}).
    destruct (for_each_bind_run get_ref (get_multi (k :: ks)) (node_pairs w name l) w2
                (node_pairs_allocated w name l Hok))
      as (w' & Hrun & Hcalls & Hids & Hout & Hin).
    exists w'. split; [exact Hrun|]. split; [by rewrite Hcalls|].
    split; [exact Hids|]. split; [|split; [exact Hout|exact Hin]].
    exact (for_each_bind_dom _ _ _ _ Hrun).
Qed.

Lemma node_pairs_snd w name l n :
  n ∈ (node_pairs w name l).*2
  <-> exists i, i ∈ l /\ ev_attrs i !! name = Some n /\ truthy_id (id_at w n) = true.
Proof.
  rewrite list_elem_of_fmap. split.
  - intros ([i n'] & -> & Hp). apply node_pairs_truthy in Hp as (Hi & En & Ht).
    cbn [fst snd] in *. eauto.
  - intros (i & Hi & En & Ht). exists (i, n). split; [reflexivity|].
    by apply node_pairs_elem.
Qed.

(** X1: when the answer of the multi-get holds a non-empty body for the
    node id of an event of the list, the node of that event holds this
    body after the call, whatever it held before. *)
Theorem bind_nodes_binds_fetched_body w name l j i (k : node_id) (b : Body) :
  attrs_ok w name l = true ->
  l !! j = Some i ->
  carries w name k i = true ->
  get_multi (key_list w name l) !! k = Some (Some b) ->
  b <> ∅ ->
  exists w',
    bind_nodes get_multi get_ref l name w = (Returned tt, w')
    /\ nd_data <$> node_at w' name i = Some (Some b).
Proof.
  intros Hok Hj Hk Hans Hb.
  destruct (bind_nodes_run get_multi get_ref w name l Hok)
    as (w' & Hrun & _ & _ & _ & _ & Hbound).
  exists w'. split; [exact Hrun|].
  apply carries_inv in Hk as (n & d & En & Ed & Hid & Ht).
  destruct (Hbound i n (list_elem_of_lookup_2 _ _ _ Hj) En Ht) as (d' & Hd' & Hdata).
  unfold node_at. rewrite En, Hd'. cbn. rewrite Hdata.
  rewrite (id_at_Some _ _ _ Ed), Hid. unfold dict_get. rewrite Hans.
  cbn. by destruct (decide (b = ∅)).
Qed.

(** X2: an answer that holds [None] or the empty dict for the node id of
    an event is treated like a missing entry: the node holds the empty
    body after the call. *)
Theorem bind_nodes_false_blob_binds_empty_body w name l j i (k : node_id) :
  attrs_ok w name l = true ->
  l !! j = Some i ->
  carries w name k i = true ->
  get_multi (key_list w name l) !! k = Some None
  \/ get_multi (key_list w name l) !! k = Some (Some ∅) ->
  exists w',
    bind_nodes get_multi get_ref l name w = (Returned tt, w')
    /\ nd_data <$> node_at w' name i = Some (Some ∅).
Proof.
  intros Hok Hj Hk Hans.
  destruct (bind_nodes_run get_multi get_ref w name l Hok)
    as (w' & Hrun & _ & _ & _ & _ & Hbound).
  exists w'. split; [exact Hrun|].
  apply carries_inv in Hk as (n & d & En & Ed & Hid & Ht).
  destruct (Hbound i n (list_elem_of_lookup_2 _ _ _ Hj) En Ht) as (d' & Hd' & Hdata).
  unfold node_at. rewrite En, Hd'. cbn. rewrite Hdata.
  rewrite (id_at_Some _ _ _ Ed), Hid. unfold dict_get.
  destruct Hans as [-> | ->]; [reflexivity|]. cbn. by destruct (decide _).
Qed.

(** X3: a call changes no node id, creates and removes no object, leaves
    every object alone that no event of the list refers to under the
    attribute, and keeps the calls logged before it. *)
Theorem bind_nodes_frame w name l :
  attrs_ok w name l = true ->
  exists w',
    bind_nodes get_multi get_ref l name w = (Returned tt, w')
    /\ (forall n, id_at w' n = id_at w n)
    /\ (forall n, is_Some (heap w' !! n) <-> is_Some (heap w !! n))
    /\ (forall n, (forall i, i ∈ l -> ev_attrs i !! name <> Some n) ->
          heap w' !! n = heap w !! n)
    /\ get_multi_calls w `prefix_of` get_multi_calls w'.
Proof.
  intros Hok.
  destruct (bind_nodes_effect w name l Hok)
    as (w' & Hrun & Hcalls & Hids & Hdom & Hout & _).
  exists w'. split; [exact Hrun|]. split; [exact Hids|]. split; [exact Hdom|]. split.
  - intros n Hn. apply Hout. rewrite node_pairs_snd. intros (i & Hi & En & _).
    by apply (Hn i Hi).
  - rewrite Hcalls. by eexists.
Qed.

(** X4: when an event of the list lacks the attribute, the call raises
    [AttributeError] out of the comprehension: nothing has been asked of
    the blob store and no node has been bound, also for the events before
    it. *)
Theorem bind_nodes_missing_attribute_raises w name l j i :
  l !! j = Some i ->
  attrs_ok w name (take j l) = true ->
  ev_attrs i !! name = None ->
  bind_nodes get_multi get_ref l name w = (Raised (AttributeError name), w).
Proof.
  intros Hj Hok Hnone.
  assert (Hcomp : object_nodes l name w = (Raised (AttributeError name), w)).
  { clear get_multi get_ref. revert j Hj Hok.
    induction l as [|x l IH]; intros j Hj Hok; [done|].
    destruct j as [|j]; cbn in Hj.
    - injection Hj as ->. cbn [object_nodes].
      unfold mbind at 1, M_bind at 1, getattr. by rewrite Hnone.
    - cbn [take] in Hok. apply attrs_ok_cons in Hok as [(n & d & En & Ed) Hl].
      specialize (IH j Hj Hl). cbn [object_nodes].
      rewrite (bind_returned _ _ _ _ _ (getattr_run _ _ _ w En)).
      rewrite (bind_returned _ _ _ _ _ (read_id_run _ _ w Ed)).
      destruct (truthy_id (nd_id d)); [|exact IH].
      rewrite (bind_returned _ _ _ _ _ (getattr_run _ _ _ w En)).
      unfold mbind, M_bind. by rewrite IH. }
  unfold bind_nodes. unfold mbind at 1, M_bind at 1. by rewrite Hcomp.
Qed.

End BindNodesMore.

Lemma bind_nodes_binds_fetched_body_witness :
  attrs_ok ex_world "data" ex_events = true
  /\ ex_events !! 3%nat = Some (ex_event "e4" 400 3)
  /\ carries ex_world "data" (Some "b") (ex_event "e4" 400 3) = true
  /\ blob_store_get_multi ex_blobs (key_list ex_world "data" ex_events) !! Some "b"
     = Some (Some {[ "message" := "boom" ]})
  /\ ({[ "message" := "boom" ]} : gmap string string) <> ∅
  /\ exists w',
       bind_nodes (blob_store_get_multi ex_blobs) project_ref ex_events "data" ex_world
       = (Returned tt, w')
       /\ nd_data <$> node_at w' "data" (ex_event "e4" 400 3)
          = Some (Some {[ "message" := "boom" ]}).
Proof.
  assert (Hne : ({[ "message" := "boom" ]} : gmap string string) <> ∅).
  { intros H. apply (f_equal (fun m : gmap string string => m !! "message")) in H.
    vm_compute in H. discriminate H. }
  split; [reflexivity|]. split; [reflexivity|]. split; [reflexivity|].
  split; [by vm_compute|]. split; [exact Hne|].
  apply (bind_nodes_binds_fetched_body
           (blob_store_get_multi ex_blobs) project_ref ex_world "data" ex_events
           3%nat (ex_event "e4" 400 3) (Some "b") {[ "message" := "boom" ]});
    first [reflexivity | by vm_compute | exact Hne].
Defined.

Lemma bind_nodes_false_blob_binds_empty_body_witness :
  attrs_ok ex_world "data" ex_events = true
  /\ ex_events !! 0%nat = Some (ex_event "e1" 100 0)
  /\ carries ex_world "data" (Some "a") (ex_event "e1" 100 0) = true
  /\ none_get_multi (key_list ex_world "data" ex_events) !! Some "a" = Some None
  /\ exists w',
       bind_nodes none_get_multi project_ref ex_events "data" ex_world
       = (Returned tt, w')
       /\ nd_data <$> node_at w' "data" (ex_event "e1" 100 0) = Some (Some ∅).
Proof.
  split; [reflexivity|]. split; [reflexivity|]. split; [reflexivity|].
  split; [by vm_compute|].
  apply (bind_nodes_false_blob_binds_empty_body
           none_get_multi project_ref ex_world "data" ex_events
           0%nat (ex_event "e1" 100 0) (Some "a"));
    first [reflexivity | left; by vm_compute].
Defined.

Lemma bind_nodes_frame_witness :
  attrs_ok ex_world "data" ex_events = true
  /\ exists w',
       bind_nodes (blob_store_get_multi ex_blobs) project_ref ex_events "data" ex_world
       = (Returned tt, w')
       /\ (forall n, id_at w' n = id_at ex_world n)
       /\ (forall n, is_Some (heap w' !! n) <-> is_Some (heap ex_world !! n))
       /\ (forall n, (forall i, i ∈ ex_events -> ev_attrs i !! "data" <> Some n) ->
             heap w' !! n = heap ex_world !! n)
       /\ get_multi_calls ex_world `prefix_of` get_multi_calls w'.
Proof.
  split; [reflexivity|].
  apply (bind_nodes_frame
           (blob_store_get_multi ex_blobs) project_ref ex_world "data" ex_events).
  reflexivity.
Defined.

Lemma bind_nodes_missing_attribute_raises_witness :
  [ex_event "e1" 100 0; mkEvent 42 "e5" None 500 [] ∅] !! 1%nat
  = Some (mkEvent 42 "e5" None 500 [] ∅)
  /\ attrs_ok ex_world "data"
       (take 1 [ex_event "e1" 100 0; mkEvent 42 "e5" None 500 [] ∅]) = true
  /\ ev_attrs (mkEvent 42 "e5" None 500 [] ∅) !! "data" = None
  /\ bind_nodes (blob_store_get_multi ex_blobs) project_ref
       [ex_event "e1" 100 0; mkEvent 42 "e5" None 500 [] ∅] "data" ex_world
     = (Raised (AttributeError "data"), ex_world).
Proof.
  split; [reflexivity|]. split; [reflexivity|]. split; [reflexivity|].
  apply (bind_nodes_missing_attribute_raises
           (blob_store_get_multi ex_blobs) project_ref ex_world "data"
           [ex_event "e1" 100 0; mkEvent 42 "e5" None 500 [] ∅] 1%nat
           (mkEvent 42 "e5" None 500 [] ∅)); reflexivity.
Defined.

(** X6: calling [bind_nodes] a second time on the same list asks the blob
    store for the same key list again, and binds to the node of every
    event with a node id what the blob store answers this second time,
    whatever the first call bound: nothing is skipped for being bound
    already.  When the second answer gives, for every key asked for, the
    body the first answer gave, the nodes are left as the first call left
    them. *)
Theorem bind_nodes_twice get_multi get_multi' get_ref w name l :
  attrs_ok w name l = true ->
  exists w' w'',
    bind_nodes get_multi get_ref l name w = (Returned tt, w')
    /\ bind_nodes get_multi' get_ref l name w' = (Returned tt, w'')
    /\ calls_since w' w'' = calls_since w w'
    /\ (forall i n, i ∈ l -> ev_attrs i !! name = Some n ->
          truthy_id (id_at w n) = true ->
          nd_data <$> heap w'' !! n
          = Some (Some (or_empty (dict_get (get_multi' (key_list w name l))
                                           (id_at w n)))))
    /\ ((forall k, k ∈ key_list w name l ->
           or_empty (dict_get (get_multi' (key_list w name l)) k)
           = or_empty (dict_get (get_multi (key_list w name l)) k)) ->
        heap w'' = heap w').
Proof.
  intros Hok.
  destruct (bind_nodes_effect get_multi get_ref w name l Hok)
    as (w' & Hrun & Hcalls & Hids & Hdom & Hout & Hin).
  pose proof (attrs_ok_dom w w' name l Hdom Hok) as Hok'.
  destruct (bind_nodes_effect get_multi' get_ref w' name l Hok')
    as (w'' & Hrun' & Hcalls' & Hids' & Hdom' & Hout' & Hin').
  rewrite (key_list_ids w w' name l Hids) in Hcalls', Hin'.
  rewrite (node_pairs_ids w w' name l Hids) in Hout', Hin'.
  exists w', w''. split; [exact Hrun|]. split; [exact Hrun'|]. split; [|split].
  - by rewrite (calls_since_app _ _ _ Hcalls), (calls_since_app _ _ _ Hcalls').
  - intros i n Hi En Ht.
    assert (Hn : n ∈ (node_pairs w name l).*2) by (apply node_pairs_snd; eauto).
    destruct (Hin' n Hn) as (d2 & -> & Hd2). cbn. by rewrite Hd2, Hids.
  - intros Hsame. apply map_eq. intros n.
    destruct (decide (n ∈ (node_pairs w name l).*2)) as [Hn|Hn];
      [|exact (Hout' n Hn)].
    destruct (Hin n Hn) as (d1 & E1 & Hd1). destruct (Hin' n Hn) as (d2 & E2 & Hd2).
    rewrite E1, E2. f_equal.
    assert (Hid : nd_id d2 = nd_id d1).
    { rewrite <- (id_at_Some _ _ _ E1), <- (id_at_Some _ _ _ E2). apply Hids'. }
    assert (Hkey : id_at w n ∈ key_list w name l).
    { rewrite <- (key_list_node_pairs w name l Hok).
      apply list_elem_of_fmap in Hn as (pr & -> & Hpr).
      apply list_elem_of_In. apply (in_map (fun q : Event * nat => id_at w q.2)).
      by apply list_elem_of_In. }
    rewrite Hids, (Hsame _ Hkey), <- Hd1 in Hd2.
    destruct d1, d2. cbn in *. by subst.
Qed.

Lemma bind_nodes_twice_witness :
  attrs_ok ex_world "data" ex_events = true
  /\ exists w' w'',
       bind_nodes none_get_multi project_ref ex_events "data" ex_world
       = (Returned tt, w')
       /\ bind_nodes (blob_store_get_multi ex_blobs) project_ref ex_events "data" w'
          = (Returned tt, w'')
       /\ calls_since w' w'' = calls_since ex_world w'
       /\ (forall i n, i ∈ ex_events -> ev_attrs i !! "data" = Some n ->
             truthy_id (id_at ex_world n) = true ->
             nd_data <$> heap w'' !! n
             = Some (Some (or_empty
                             (dict_get (blob_store_get_multi ex_blobs
                                          (key_list ex_world "data" ex_events))
                                       (id_at ex_world n)))))
       /\ ((forall k, k ∈ key_list ex_world "data" ex_events ->
              or_empty (dict_get (blob_store_get_multi ex_blobs
                                    (key_list ex_world "data" ex_events)) k)
              = or_empty (dict_get (none_get_multi
                                      (key_list ex_world "data" ex_events)) k)) ->
           heap w'' = heap w').
Proof.
  split; [reflexivity|].
  apply (bind_nodes_twice none_get_multi (blob_store_get_multi ex_blobs) project_ref
           ex_world "data" ex_events).
  reflexivity.
Defined.

(** The blob store gets the body of [b] between two calls: the second
    call binds it, over the empty body the first call bound. *)
Example bind_nodes_twice_rebinds :
  exists w' w'',
    bind_nodes none_get_multi project_ref ex_events "data" ex_world = (Returned tt, w')
    /\ bind_nodes (blob_store_get_multi ex_blobs) project_ref ex_events "data" w'
       = (Returned tt, w'')
    /\ nd_data <$> heap w' !! 3%nat = Some (Some ∅)
    /\ nd_data <$> heap w'' !! 3%nat = Some (Some {[ "message" := "boom" ]})
    /\ get_multi_calls w''
       = [[Some "a"; Some "a"; Some "b"]; [Some "a"; Some "a"; Some "b"]].
Proof.
  exists (bind_nodes none_get_multi project_ref ex_events "data" ex_world).2.
  exists (bind_nodes (blob_store_get_multi ex_blobs) project_ref ex_events "data"
            (bind_nodes none_get_multi project_ref ex_events "data" ex_world).2).2.
  repeat split; by vm_compute.
Qed.

(** * Crash reports *)

Module UnrealFacts.

Import Unreal.

(** ** The user id of the crash reporter *)

(** Cutting at the first separator, when there is one. *)
Lemma split_S sep n s :
  (contains sep s = false /\ split sep (S n) s = [s])
  \/ (exists a rest, s = (a ++ String sep rest)%string
                     /\ contains sep a = false
                     /\ split sep (S n) s = a :: split sep n rest).
Proof.
  induction s as [|c r IH].
  - left. by split.
  - cbn [split]. destruct (Ascii.eqb_spec c sep) as [->|Hc].
    + right. exists "", r. repeat split.
    + assert (Hcs : Ascii.eqb sep c = false).
      { apply Ascii.eqb_neq. congruence. }
      destruct IH as [[Hno Hs]|(a & rest & -> & Hno & Hs)].
      * left. rewrite Hs. split; [|reflexivity].
        unfold contains in *. cbn. by rewrite Hcs.
      * right. exists (String c a), rest. rewrite Hs. repeat split.
        unfold contains in *. cbn. by rewrite Hcs.
Qed.

Lemma split_0 sep s : split sep 0 s = [s].
Proof. by destruct s. Qed.

Lemma user_id_parts_cases (user_id : string) :
  exists login_id epic_account_id machine_id,
    user_id_parts user_id = inr (login_id, epic_account_id, machine_id)
    /\ contains "|" login_id = false
    /\ contains "|" epic_account_id = false
    /\ ((epic_account_id = "" /\ machine_id = "" /\ user_id = login_id)
        \/ (machine_id = "" /\ contains "|" user_id = true
            /\ user_id = (login_id ++ "|" ++ epic_account_id)%string)
        \/ user_id = (login_id ++ "|" ++ epic_account_id ++ "|" ++ machine_id)%string).
Proof.
  unfold user_id_parts.
  destruct (split_S "|" 1 user_id) as [[Hno ->]|(a & rest & -> & Ha & ->)].
  - exists user_id, "", "". split; [reflexivity|]. split; [exact Hno|].
    split; [reflexivity|]. left. by repeat split.
  - destruct (split_S "|" 0 rest) as [[Hno ->]|(b & r2 & -> & Hb & ->)].
    + exists a, rest, "". split; [reflexivity|]. split; [exact Ha|].
      split; [exact Hno|]. right. left. split; [reflexivity|]. split; [|reflexivity].
      unfold contains. rewrite existsb_exists. exists "|"%char. split; [|reflexivity].
      clear. induction a as [|c a IH]; [left; reflexivity | right; exact IH].
    + rewrite split_0. exists a, b, r2. split; [reflexivity|]. split; [exact Ha|].
      split; [exact Hb|]. right. right. reflexivity.
Qed.

(** X7: the user id always splits into three parts (the unpacking never
    fails); the first two hold no separator, and the parts are the user
    id cut at its first two separators: nothing of it is lost. *)
Theorem user_id_parts_spec (user_id : string) :
  exists login_id epic_account_id machine_id,
    user_id_parts user_id = inr (login_id, epic_account_id, machine_id)
    /\ contains "|" login_id = false
    /\ contains "|" epic_account_id = false
    /\ ((epic_account_id = "" /\ machine_id = "" /\ user_id = login_id)
        \/ (machine_id = "" /\ contains "|" user_id = true
            /\ user_id = (login_id ++ "|" ++ epic_account_id)%string)
        \/ user_id = (login_id ++ "|" ++ epic_account_id ++ "|" ++ machine_id)%string).
Proof. exact (user_id_parts_cases user_id). Qed.

Lemma set_path_example_local ev p ps v k :
  k <> p -> set_path_example ev (p :: ps) v !! k = ev !! k.
Proof.
  intros Hk. destruct ps as [|q ps]; cbn [set_path_example].
  - by rewrite lookup_insert_ne.
  - destruct (ev !! p) as [[| | | | |]|]; try reflexivity; by rewrite lookup_insert_ne.
Qed.

Section WithHelpers.

Variable set_path : gmap string PyVal -> list string -> PyVal -> gmap string PyVal.
Variable setdefault_path : gmap string PyVal -> list string -> PyVal -> gmap string PyVal.
Variable Crash : Type.
Variable from_bytes : string -> Error + Crash.

Lemma st_bind_ok {A B : Type} (m : St A) (k : A -> St B) ev a ev' :
  m ev = (inr a, ev') -> (m ≫= k) ev = k a ev'.
Proof. intros H. unfold mbind, St_bind. by rewrite H. Qed.

Lemma st_bind_err {A B : Type} (m : St A) (k : A -> St B) ev e ev' :
  m ev = (inl e, ev') -> (m ≫= k) ev = (inl e, ev').
Proof. intros H. unfold mbind, St_bind. by rewrite H. Qed.

Lemma truthy_VStr s : truthy (VStr s) = negb (String.eqb s "").
Proof. reflexivity. Qed.

(** X8: for a user id that is not empty, and a [set_path] that touches
    only the entry of the event its path starts with, the event holds
    after [process_unreal_crash] the environment and a user whose id is
    the login part of the user id, or the whole user id when the login
    part is empty; that id is never empty.  The result is the one of the
    parser. *)
Theorem process_unreal_crash_user payload user_id environment event :
  (forall ev p ps v k, k <> p -> set_path ev (p :: ps) v !! k = ev !! k) ->
  user_id <> "" ->
  exists login_id epic_account_id machine_id ev',
    user_id_parts user_id = inr (login_id, epic_account_id, machine_id)
    /\ process_unreal_crash set_path Crash from_bytes payload (Some user_id)
         environment event
       = (from_bytes payload, ev')
    /\ ev' !! "environment" = Some environment
    /\ ev' !! "user"
       = Some (VDict {[ "id" := VStr (if String.eqb login_id "" then user_id
                                      else login_id) ]})
    /\ (if String.eqb login_id "" then user_id else login_id) <> "".
Proof.
  intros Hlocal Hne.
  destruct (user_id_parts_cases user_id) as (a & b & c & Hparts & _).
  assert (Hu : truthy (VStr user_id) = true).
  { rewrite truthy_VStr. by destruct (String.eqb_spec user_id ""). }
  set (ev1 := <["user" := VDict {[ "id" := VStr (if String.eqb a "" then user_id else a) ]}]>
                (<["environment" := environment]> event)).
  set (ev2 := if truthy (VStr b) then set_path ev1 ["tags"; "epic_account_id"] (VStr b)
              else ev1).
  set (ev3 := if truthy (VStr c) then set_path ev2 ["tags"; "machine_id"] (VStr c)
              else ev2).
  assert (Hkeep : forall k, k <> "tags" -> ev3 !! k = ev1 !! k).
  { intros k Hk. unfold ev3, ev2.
    destruct (truthy (VStr c)), (truthy (VStr b)); rewrite ?Hlocal; auto. }
  exists a, b, c, ev3. split; [exact Hparts|]. split; [|split; [|split]].
  - unfold process_unreal_crash. unfold mbind at 1, St_bind at 1. cbn [setitem].
    rewrite Hu. unfold mbind at 1, St_bind at 1.
    unfold mbind at 1, St_bind at 1. unfold lift at 1. rewrite Hparts.
    unfold mbind at 1, St_bind at 1. cbn [setitem].
    rewrite !truthy_VStr. fold ev1.
    unfold ev3, ev2. rewrite !truthy_VStr.
    destruct (String.eqb a ""), (String.eqb b ""), (String.eqb c ""); reflexivity.
  - rewrite Hkeep by done. unfold ev1.
    rewrite lookup_insert_ne by done. by rewrite lookup_insert_eq.
  - rewrite Hkeep by done. unfold ev1. by rewrite lookup_insert_eq.
  - destruct (String.eqb_spec a ""); [exact Hne|done].
Qed.

(** X9: for a user id without a separator, [process_unreal_crash] sets the
    environment and, unless the user id is missing or empty, the user
    with the whole user id; it sets no tag, and the user of the event is
    left alone when there is no user id. *)
Theorem process_unreal_crash_plain_user_id payload (user_id : option string)
        environment event :
  contains "|" (default "" user_id) = false ->
  process_unreal_crash set_path Crash from_bytes payload user_id environment event
  = (from_bytes payload,
     if truthy (VStr (default "" user_id))
     then <["user" := VDict {[ "id" := VStr (default "" user_id) ]}]>
            (<["environment" := environment]> event)
     else <["environment" := environment]> event).
Proof.
  intros Hno. destruct user_id as [uid|]; [|reflexivity].
  change (default "" (Some uid)) with uid in *.
  unfold process_unreal_crash. unfold mbind at 1, St_bind at 1. cbn [setitem].
  destruct (truthy (VStr uid)) eqn:Hu; [|reflexivity].
  assert (Hparts : user_id_parts uid = inr (uid, "", "")).
  { unfold user_id_parts.
    destruct (split_S "|" 1 uid) as [[_ ->]|(a & rest & -> & _ & _)]; [reflexivity|].
    exfalso. unfold contains in Hno. clear -Hno.
    induction a as [|x a IH]; cbn in Hno; [discriminate|].
    apply orb_false_elim in Hno as [_ Hno]. by apply IH. }
  unfold mbind at 1, St_bind at 1.
  unfold mbind at 1, St_bind at 1. unfold lift at 1. rewrite Hparts.
  unfold mbind at 1, St_bind at 1. cbn [setitem]. rewrite Hu. reflexivity.
Qed.

(** ** Breadcrumbs from the logs *)

Lemma breadcrumb_fields (t c m : PyVal) :
  let crumb := VDict {[ "timestamp" := t; "category" := c; "message" := m ]} in
  field "message" crumb = m /\ field "category" crumb = c /\ field "timestamp" crumb = t.
Proof. by vm_compute. Qed.

Lemma append_logs_dicts (unreal_logs : list PyVal) :
  forallb is_dict unreal_logs = true ->
  forall old,
    exists new,
      append_logs unreal_logs (VList old) = (inr tt, VList (old ++ new))
      /\ field "message" <$> new = field "message" <$> List.filter has_message unreal_logs
      /\ field "category" <$> new = field "component" <$> List.filter has_message unreal_logs
      /\ field "timestamp" <$> new = field "timestamp" <$> List.filter has_message unreal_logs.
Proof.
  induction unreal_logs as [|log logs IH]; intros Hdicts old.
  - exists []. by rewrite app_nil_r.
  - cbn [forallb] in Hdicts. apply andb_prop in Hdicts as [Hlog Hlogs].
    destruct log as [| | | | |d]; try discriminate.
    cbn [append_logs py_get List.filter].
    assert (Hhm : has_message (VDict d) = truthy (default VNone (d !! "message")))
      by reflexivity.
    rewrite Hhm. destruct (truthy (default VNone (d !! "message"))) eqn:Hm.
    + set (crumb := VDict {[ "timestamp" := default VNone (d !! "timestamp");
                             "category" := default VNone (d !! "component");
                             "message" := default VNone (d !! "message") ]}).
      destruct (IH Hlogs (old ++ [crumb])%list) as (new & Hrun & Hmsg & Hcat & Hts).
      destruct (breadcrumb_fields (default VNone (d !! "timestamp"))
                  (default VNone (d !! "component")) (default VNone (d !! "message")))
        as (Fm & Fc & Ft).
      exists (crumb :: new). split.
      { change (breadcrumb (VDict d) (default VNone (d !! "message"))) with
          (inr crumb : Error + PyVal).
        cbn beta iota. rewrite Hrun. by rewrite <- app_assoc. }
      rewrite !fmap_cons, Hmsg, Hcat, Hts. fold crumb in Fm, Fc, Ft.
      rewrite Fm, Fc, Ft. by repeat split.
    + destruct (IH Hlogs old) as (new & Hrun & Hrest). exists new. by split.
Qed.

(** X10: when [setdefault_path] leaves the event with a list under
    breadcrumbs, values, and every log is a dict, [merge_unreal_logs_event]
    appends to that list one breadcrumb for every log that has a message,
    in the order of the logs, with the message, the component as
    category and the timestamp of the log; the breadcrumbs that were there
    stay in front, and nothing else of the event changes. *)
Theorem merge_unreal_logs_event_appends unreal_logs event b old :
  setdefault_path event ["breadcrumbs"; "values"] (VList []) !! "breadcrumbs"
  = Some (VDict b) ->
  b !! "values" = Some (VList old) ->
  forallb is_dict unreal_logs = true ->
  exists new,
    merge_unreal_logs_event setdefault_path unreal_logs event
    = (inr tt,
       <["breadcrumbs" := VDict (<["values" := VList (old ++ new)]> b)]>
         (setdefault_path event ["breadcrumbs"; "values"] (VList [])))
    /\ length new = length (List.filter has_message unreal_logs)
    /\ field "message" <$> new = field "message" <$> List.filter has_message unreal_logs
    /\ field "category" <$> new = field "component" <$> List.filter has_message unreal_logs
    /\ field "timestamp" <$> new = field "timestamp" <$> List.filter has_message unreal_logs.
Proof.
  intros Hholder Hvalues Hdicts.
  destruct (append_logs_dicts unreal_logs Hdicts old) as (new & Hrun & Hmsg & Hcat & Hts).
  exists new. split; [|split; [|by repeat split]].
  - unfold merge_unreal_logs_event. unfold mbind at 1, St_bind at 1.
    cbn [call_setdefault_path]. unfold mbind at 1, St_bind at 1, getitem at 1.
    rewrite Hholder, Hvalues, Hrun. reflexivity.
  - apply (f_equal length) in Hmsg. by rewrite !length_fmap in Hmsg.
Qed.

(** ** Apple crash reports *)

Lemma res_bind_ok {A B : Type} (m : Error + A) (k : A -> Error + B) a :
  m = inr a -> (m ≫= k) = k a.
Proof. by intros ->. Qed.

Lemma frame_entry_dict d :
  exists out, frame_entry (VDict d) = inr out /\ is_frame_of (VDict d) out.
Proof. eexists. split; [reflexivity|]. by vm_compute. Qed.

Lemma image_entry_dict d :
  exists out, image_entry (VDict d) = inr out /\ is_image_of (VDict d) out.
Proof. eexists. split; [reflexivity|]. by vm_compute. Qed.

Lemma mapM_dicts (f : PyVal -> Error + PyVal) (R : PyVal -> PyVal -> Prop) :
  (forall d, exists out, f (VDict d) = inr out /\ R (VDict d) out) ->
  forall l, forallb is_dict l = true ->
    exists outs, mapM f l = inr outs /\ Forall2 R l outs.
Proof.
  intros Hf l. induction l as [|x l IH]; intros Hl.
  - exists []. split; [reflexivity|constructor].
  - cbn [forallb] in Hl. apply andb_prop in Hl as [Hx Hl].
    destruct x as [| | | | |d]; try discriminate.
    destruct (Hf d) as (o & Ho & Hr). destruct (IH Hl) as (os & Hos & Hrs).
    exists (o :: os). split; [|by constructor].
    cbn [mapM]. rewrite (res_bind_ok _ _ _ Ho). rewrite (res_bind_ok _ _ _ Hos).
    reflexivity.
Qed.

Lemma thread_entry_ok thread crashed :
  thread_ok thread = true ->
  exists entry,
    thread_entry thread crashed = inr entry
    /\ field "id" entry = field "id" thread
    /\ field "name" entry = field "name" thread
    /\ field "crashed" entry = crashed
    /\ field "registers" (field "stacktrace" entry)
       = (if truthy (field "registers" thread) then field "registers" thread else VNone)
    /\ Forall2 is_frame_of (rev (items (field "frames" thread)))
         (items (field "frames" (field "stacktrace" entry))).
Proof.
  destruct thread as [| | | | |d]; try discriminate. cbn [thread_ok]. intros Hok.
  assert (exists fs, default (VList []) (d !! "frames") = VList fs
                     /\ items (field "frames" (VDict d)) = fs
                     /\ forallb is_dict fs = true) as (fs & Hfs & Hitems & Hdicts).
  { cbn [field]. destruct (d !! "frames") as [[| | | |fs|]|]; try discriminate; eauto. }
  destruct (mapM_dicts frame_entry is_frame_of frame_entry_dict (rev fs))
    as (outs & Houts & Hrel).
  { apply forallb_forall. intros x Hx. apply in_rev in Hx.
    by apply (proj1 (forallb_forall _ _) Hdicts). }
  eexists. split.
  { unfold thread_entry. cbn [py_get mbind Res_bind]. rewrite Hfs.
    cbn [py_reversed mbind Res_bind]. rewrite Houts. reflexivity. }
  rewrite Hitems.
  split; [by vm_compute|]. split; [by vm_compute|]. split; [by vm_compute|].
  split; [by vm_compute|].
  assert (Hout : forall x y z r o,
            items (field "frames" (field "stacktrace"
              (VDict {[ "id" := x; "name" := y; "crashed" := z;
                        "stacktrace" := VDict {[ "frames" := VList o;
                                                 "registers" := r ]} ]}))) = o)
    by (intros; by vm_compute).
  rewrite Hout. exact Hrel.
Qed.

Lemma merge_thread_run thread ev acc :
  thread_ok thread = true ->
  ev !! "threads" = Some (VList acc) ->
  exists entry,
    is_entry_of thread entry
    /\ merge_thread thread ev
       = (inr tt,
          if has_crashed thread
          then <["level" := VStr "fatal"]> (<["threads" := VList (acc ++ [entry])]> ev)
          else <["threads" := VList (acc ++ [entry])]> ev).
Proof.
  intros Hok Hacc.
  destruct (thread_entry_ok thread (field "crashed" thread) Hok)
    as (entry & Hentry & Hid & Hname & Hcr & Hregs & Hframes).
  exists entry. split; [by repeat split|].
  destruct thread as [| | | | |d]; try discriminate.
  unfold merge_thread.
  rewrite (st_bind_ok (lift (py_get (VDict d) "crashed" VNone)) _ ev
             (field "crashed" (VDict d)) ev eq_refl).
  assert (Htarget : append_target "threads" ev = (inr acc, ev)).
  { unfold append_target. unfold mbind, St_bind, getitem. by rewrite Hacc. }
  rewrite (st_bind_ok _ _ _ _ _ Htarget).
  assert (Hlift : lift (thread_entry (VDict d) (field "crashed" (VDict d))) ev
                  = (inr entry, ev)) by (unfold lift; by rewrite Hentry).
  rewrite (st_bind_ok _ _ _ _ _ Hlift).
  unfold mbind, St_bind. cbn [setitem]. unfold has_crashed.
  by destruct (truthy (field "crashed" (VDict d))).
Qed.

Lemma merge_threads_run threads :
  forall ev acc,
    forallb thread_ok threads = true ->
    ev !! "threads" = Some (VList acc) ->
    exists entries ev',
      for_each threads merge_thread ev = (inr tt, ev')
      /\ Forall2 is_entry_of threads entries
      /\ ev' !! "threads" = Some (VList (acc ++ entries))
      /\ ev' !! "level"
         = (if existsb has_crashed threads then Some (VStr "fatal") else ev !! "level")
      /\ forall k, k <> "threads" -> k <> "level" -> ev' !! k = ev !! k.
Proof.
  induction threads as [|thread threads IH]; intros ev acc Hok Hacc.
  - exists [], ev. split; [reflexivity|]. split; [constructor|].
    split; [by rewrite app_nil_r|]. by split.
  - cbn [forallb] in Hok. apply andb_prop in Hok as [Hthread Hthreads].
    destruct (merge_thread_run thread ev acc Hthread Hacc) as (entry & Hentry & Hrun).
    set (ev1 := if has_crashed thread
                then <["level" := VStr "fatal"]>
                       (<["threads" := VList (acc ++ [entry])]> ev)
                else <["threads" := VList (acc ++ [entry])]> ev) in *.
    assert (Hacc1 : ev1 !! "threads" = Some (VList (acc ++ [entry]))).
    { unfold ev1. destruct (has_crashed thread).
      - rewrite lookup_insert_ne by done. by rewrite lookup_insert_eq.
      - by rewrite lookup_insert_eq. }
    destruct (IH ev1 (acc ++ [entry])%list Hthreads Hacc1)
      as (entries & ev' & Hloop & Hrel & Hthr & Hlevel & Hkeep).
    exists (entry :: entries), ev'. split; [|split; [|split; [|split]]].
    + cbn [for_each]. by rewrite (st_bind_ok _ _ _ _ _ Hrun).
    + by constructor.
    + rewrite Hthr. by rewrite <- app_assoc.
    + rewrite Hlevel. cbn [existsb]. unfold ev1. destruct (has_crashed thread); cbn [orb].
      * rewrite lookup_insert_eq. by destruct (existsb has_crashed threads).
      * by rewrite lookup_insert_ne.
    + intros k Hk1 Hk2. rewrite (Hkeep k Hk1 Hk2). unfold ev1.
      destruct (has_crashed thread); by rewrite !lookup_insert_ne.
Qed.

(** [merge_apple_crash_report] up to the images, on a report whose threads
    and metadata are as the parser gives them. *)
Lemma merge_apple_crash_report_steps report event threads :
  (forall ev p ps v k, k <> p -> set_path ev (p :: ps) v !! k = ev !! k) ->
  report !! "threads" = Some (VList threads) ->
  forallb thread_ok threads = true ->
  metadata_ok (default VNone (report !! "metadata")) = true ->
  exists entries ev6,
    merge_apple_crash_report set_path report event
    = (modules ← lift (py_iter (default VNone (report !! "binary_images")));
       images ← lift (mapM image_entry modules);
       setdefault_setitem "debug_meta" "images" (VList images)) ev6
    /\ Forall2 is_entry_of threads entries
    /\ ev6 !! "platform" = Some (VStr "native")
    /\ ev6 !! "timestamp"
       = (if truthy (default VNone (report !! "timestamp"))
          then Some (default VNone (report !! "timestamp"))
          else event !! "timestamp")
    /\ ev6 !! "threads" = Some (VList entries)
    /\ ev6 !! "level" = Some (merged_level threads event)
    /\ forall k,
         k ∉ ["platform"; "timestamp"; "threads"; "level"; "contexts"] ->
         ev6 !! k = event !! k.
Proof.
  intros Hlocal Hthreads Hok Hmeta.
  set (ev1 := <["platform" := VStr "native"]> event).
  set (tsv := default VNone (report !! "timestamp")).
  set (ev2 := if truthy tsv then <["timestamp" := tsv]> ev1 else ev1).
  set (ev3 := <["threads" := VList []]> ev2).
  destruct (merge_threads_run threads ev3 [] Hok (lookup_insert_eq _ _ _))
    as (entries & ev4 & Hloop & Hrel & Hthr & Hlevel & Hkeep4).
  set (ev5 := match default VNone (ev4 !! "level") with
              | VNone => <["level" := VStr "info"]> ev4
              | _ => ev4
              end).
  set (md := default VNone (report !! "metadata")) in *.
  set (ev6 := if truthy md
              then set_path
                     (set_path ev5 ["contexts"; "os"; "raw_description"]
                        (field "OS Version" md))
                     ["contexts"; "device"; "model"] (field "Hardware Model" md)
              else ev5).
  assert (K3 : forall k, k <> "platform" -> k <> "timestamp" -> k <> "threads" ->
                         ev3 !! k = event !! k).
  { intros k H1 H2 H3. unfold ev3, ev2, ev1. rewrite lookup_insert_ne by done.
    destruct (truthy tsv); by rewrite !lookup_insert_ne. }
  assert (L4 : ev4 !! "level"
               = if existsb has_crashed threads then Some (VStr "fatal")
                 else event !! "level").
  { rewrite Hlevel. by rewrite K3. }
  assert (L5 : ev5 !! "level" = Some (merged_level threads event)).
  { unfold ev5, merged_level. rewrite L4.
    destruct (existsb has_crashed threads); cbn.
    - by rewrite L4.
    - destruct (event !! "level") as [[| | | | |]|] eqn:E; cbn;
        rewrite ?lookup_insert_eq, ?L4; try reflexivity. }
  assert (K5 : forall k, k <> "level" -> ev5 !! k = ev4 !! k).
  { intros k Hk. unfold ev5.
    destruct (default VNone (ev4 !! "level")); try reflexivity.
    by rewrite lookup_insert_ne. }
  assert (K6 : forall k, k <> "contexts" -> ev6 !! k = ev5 !! k).
  { intros k Hk. unfold ev6. destruct (truthy md); [|reflexivity].
    by rewrite !Hlocal. }
  exists entries, ev6. split; [|split; [exact Hrel|]].
  - unfold merge_apple_crash_report.
    unfold mbind at 1, St_bind at 1. cbn [setitem]. fold ev1 tsv.
    assert (S2 : (if truthy tsv then setitem "timestamp" tsv else mret tt) ev1
                 = (inr tt, ev2)).
    { unfold ev2. by destruct (truthy tsv). }
    rewrite (st_bind_ok _ _ _ _ _ S2).
    unfold mbind at 1, St_bind at 1. cbn [setitem]. fold ev3.
    rewrite Hthreads. unfold mbind at 1, St_bind at 1. unfold lift at 1.
    unfold mbind at 1, St_bind at 1. unfold lift at 1. cbn [py_iter].
    rewrite (st_bind_ok _ _ _ _ _ Hloop).
    unfold mbind at 1, St_bind at 1. unfold get at 1.
    assert (S5 : match default VNone (ev4 !! "level") with
                 | VNone => setitem "level" (VStr "info")
                 | _ => mret tt
                 end ev4 = (inr tt, ev5)).
    { unfold ev5. by destruct (default VNone (ev4 !! "level")). }
    rewrite (st_bind_ok _ _ _ _ _ S5). fold md.
    assert (S6 : (if truthy md
                  then os ← lift (py_get md "OS Version" VNone);
                       _ ← call_set_path set_path ["contexts"; "os"; "raw_description"] os;
                       model ← lift (py_get md "Hardware Model" VNone);
                       call_set_path set_path ["contexts"; "device"; "model"] model
                  else mret tt) ev5 = (inr tt, ev6)).
    { unfold ev6. unfold metadata_ok in Hmeta.
      destruct (truthy md) eqn:Hmd; [|reflexivity]. cbn [negb orb] in Hmeta.
      destruct md as [| | | | |d]; try discriminate. reflexivity. }
    rewrite (st_bind_ok _ _ _ _ _ S6). reflexivity.
  - assert (K : forall k, k <> "contexts" -> k <> "level" -> ev6 !! k = ev4 !! k).
    { intros k H2 H3. by rewrite K6, K5. }
    split; [|split; [|split; [|split]]].
    + rewrite K, Hkeep4 by done. unfold ev3, ev2, ev1.
      rewrite lookup_insert_ne by done.
      destruct (truthy tsv); rewrite ?lookup_insert_ne by done; by rewrite lookup_insert_eq.
    + rewrite K, Hkeep4 by done. unfold ev3, ev2, ev1.
      rewrite lookup_insert_ne by done. fold tsv.
      destruct (truthy tsv); [by rewrite lookup_insert_eq|by rewrite lookup_insert_ne].
    + rewrite K by done. exact Hthr.
    + by rewrite K6.
    + intros k Hk. rewrite !not_elem_of_cons in Hk.
      destruct Hk as (H1 & H2 & H3 & H4 & H5 & _).
      rewrite K, Hkeep4, K3; done.
Qed.

(** The whole effect of [merge_apple_crash_report] on a report as the
    parser gives it. *)
Lemma merge_apple_crash_report_run report event threads modules :
  (forall ev p ps v k, k <> p -> set_path ev (p :: ps) v !! k = ev !! k) ->
  report !! "threads" = Some (VList threads) ->
  forallb thread_ok threads = true ->
  metadata_ok (default VNone (report !! "metadata")) = true ->
  report !! "binary_images" = Some (VList modules) ->
  forallb is_dict modules = true ->
  debug_meta_ok event = true ->
  exists entries images ev',
    merge_apple_crash_report set_path report event = (inr tt, ev')
    /\ Forall2 is_entry_of threads entries
    /\ Forall2 is_image_of modules images
    /\ ev' !! "platform" = Some (VStr "native")
    /\ ev' !! "timestamp"
       = (if truthy (default VNone (report !! "timestamp"))
          then Some (default VNone (report !! "timestamp"))
          else event !! "timestamp")
    /\ ev' !! "threads" = Some (VList entries)
    /\ ev' !! "level" = Some (merged_level threads event)
    /\ ev' !! "debug_meta"
       = Some (VDict (<["images" := VList images]>
                        (match event !! "debug_meta" with
                         | Some (VDict dm) => dm
                         | _ => ∅
                         end)))
    /\ forall k,
         k ∉ ["platform"; "timestamp"; "threads"; "level"; "contexts"; "debug_meta"] ->
         ev' !! k = event !! k.
Proof.
  intros Hlocal Hthreads Hok Hmeta Hmods Hdicts Hdm.
  destruct (merge_apple_crash_report_steps report event threads
              Hlocal Hthreads Hok Hmeta)
    as (entries & ev6 & Hrun & Hrel & Hp & Hts & Ht & Hl & Hk).
  destruct (mapM_dicts image_entry is_image_of image_entry_dict modules Hdicts)
    as (images & Himages & Hirel).
  set (dm := match event !! "debug_meta" with Some (VDict dm) => dm | _ => ∅ end).
  assert (D6 : ev6 !! "debug_meta" = event !! "debug_meta").
  { apply Hk. rewrite !not_elem_of_cons. repeat split; try done. apply not_elem_of_nil. }
  exists entries, images, (<["debug_meta" := VDict (<["images" := VList images]> dm)]> ev6).
  split; [|split; [exact Hrel|split; [exact Hirel|]]].
  - rewrite Hrun, Hmods.
    unfold mbind at 1, St_bind at 1. unfold lift at 1. cbn [py_iter default from_option id].
    unfold mbind at 1, St_bind at 1. unfold lift at 1. rewrite Himages.
    unfold setdefault_setitem. rewrite D6. unfold dm.
    unfold debug_meta_ok in Hdm.
    destruct (event !! "debug_meta") as [[| | | | |d]|]; try discriminate; reflexivity.
  - split; [by rewrite lookup_insert_ne|]. split; [by rewrite lookup_insert_ne|].
    split; [by rewrite lookup_insert_ne|]. split; [by rewrite lookup_insert_ne|].
    split; [by rewrite lookup_insert_eq|].
    intros k Hk'. rewrite !not_elem_of_cons in Hk'.
    destruct Hk' as (H1 & H2 & H3 & H4 & H5 & H6 & _).
    rewrite lookup_insert_ne by done. apply Hk.
    rewrite !not_elem_of_cons. repeat split; try done. apply not_elem_of_nil.
Qed.

(** X11: on a report as the parser gives it, [merge_apple_crash_report]
    returns, and the event is then native with the level [fatal] when a
    thread has crashed, whatever level the event had; otherwise it keeps
    its level, or gets [info] when it had none. *)
Theorem merge_apple_crash_report_level report event threads modules :
  (forall ev p ps v k, k <> p -> set_path ev (p :: ps) v !! k = ev !! k) ->
  report !! "threads" = Some (VList threads) ->
  forallb thread_ok threads = true ->
  metadata_ok (default VNone (report !! "metadata")) = true ->
  report !! "binary_images" = Some (VList modules) ->
  forallb is_dict modules = true ->
  debug_meta_ok event = true ->
  exists ev',
    merge_apple_crash_report set_path report event = (inr tt, ev')
    /\ ev' !! "platform" = Some (VStr "native")
    /\ ev' !! "level"
       = Some (if existsb has_crashed threads then VStr "fatal"
               else match default VNone (event !! "level") with
                    | VNone => VStr "info"
                    | level => level
                    end).
Proof.
  intros Hlocal Hthreads Hok Hmeta Hmods Hdicts Hdm.
  destruct (merge_apple_crash_report_run report event threads modules
              Hlocal Hthreads Hok Hmeta Hmods Hdicts Hdm)
    as (entries & images & ev' & Hrun & _ & _ & Hp & _ & _ & Hl & _).
  exists ev'. by repeat split.
Qed.

(** X12: the threads of the event are, after the call, those of the
    report, one entry for each in the same order, each with the id, the
    name, the crashed flag and the registers of its thread and with the
    frames of its thread in reverse order; what the event held as threads
    before is gone. *)
Theorem merge_apple_crash_report_threads report event threads modules :
  (forall ev p ps v k, k <> p -> set_path ev (p :: ps) v !! k = ev !! k) ->
  report !! "threads" = Some (VList threads) ->
  forallb thread_ok threads = true ->
  metadata_ok (default VNone (report !! "metadata")) = true ->
  report !! "binary_images" = Some (VList modules) ->
  forallb is_dict modules = true ->
  debug_meta_ok event = true ->
  exists entries ev',
    merge_apple_crash_report set_path report event = (inr tt, ev')
    /\ ev' !! "threads" = Some (VList entries)
    /\ Forall2 is_entry_of threads entries.
Proof.
  intros Hlocal Hthreads Hok Hmeta Hmods Hdicts Hdm.
  destruct (merge_apple_crash_report_run report event threads modules
              Hlocal Hthreads Hok Hmeta Hmods Hdicts Hdm)
    as (entries & images & ev' & Hrun & Hrel & _ & _ & _ & Ht & _).
  exists entries, ev'. by repeat split.
Qed.

(** X13: the event holds after the call, under debug_meta, one image of
    type macho for every binary image of the report, in the same order,
    with its path, uuid, address, size and architecture; the other
    entries of a debug_meta the event had are kept. *)
Theorem merge_apple_crash_report_images report event threads modules :
  (forall ev p ps v k, k <> p -> set_path ev (p :: ps) v !! k = ev !! k) ->
  report !! "threads" = Some (VList threads) ->
  forallb thread_ok threads = true ->
  metadata_ok (default VNone (report !! "metadata")) = true ->
  report !! "binary_images" = Some (VList modules) ->
  forallb is_dict modules = true ->
  debug_meta_ok event = true ->
  exists images ev',
    merge_apple_crash_report set_path report event = (inr tt, ev')
    /\ ev' !! "debug_meta"
       = Some (VDict (<["images" := VList images]>
                        (match event !! "debug_meta" with
                         | Some (VDict dm) => dm
                         | _ => ∅
                         end)))
    /\ Forall2 is_image_of modules images.
Proof.
  intros Hlocal Hthreads Hok Hmeta Hmods Hdicts Hdm.
  destruct (merge_apple_crash_report_run report event threads modules
              Hlocal Hthreads Hok Hmeta Hmods Hdicts Hdm)
    as (entries & images & ev' & Hrun & _ & Hrel & _ & _ & _ & _ & Hd & _).
  exists images, ev'. by repeat split.
Qed.

(** X14: the call overwrites the timestamp of the event only with a
    timestamp of the report that is true, and it leaves every entry of
    the event alone other than platform, timestamp, threads, level,
    contexts and debug_meta. *)
Theorem merge_apple_crash_report_keeps report event threads modules :
  (forall ev p ps v k, k <> p -> set_path ev (p :: ps) v !! k = ev !! k) ->
  report !! "threads" = Some (VList threads) ->
  forallb thread_ok threads = true ->
  metadata_ok (default VNone (report !! "metadata")) = true ->
  report !! "binary_images" = Some (VList modules) ->
  forallb is_dict modules = true ->
  debug_meta_ok event = true ->
  exists ev',
    merge_apple_crash_report set_path report event = (inr tt, ev')
    /\ ev' !! "timestamp"
       = (if truthy (default VNone (report !! "timestamp"))
          then Some (default VNone (report !! "timestamp"))
          else event !! "timestamp")
    /\ forall k,
         k ∉ ["platform"; "timestamp"; "threads"; "level"; "contexts"; "debug_meta"] ->
         ev' !! k = event !! k.
Proof.
  intros Hlocal Hthreads Hok Hmeta Hmods Hdicts Hdm.
  destruct (merge_apple_crash_report_run report event threads modules
              Hlocal Hthreads Hok Hmeta Hmods Hdicts Hdm)
    as (entries & images & ev' & Hrun & _ & _ & _ & Hts & _ & _ & _ & Hk).
  exists ev'. by repeat split.
Qed.

(** X15: a report without threads makes the call raise [KeyError]; the
    event has by then been made native, been given the timestamp of the
    report and lost its threads. *)
Theorem merge_apple_crash_report_missing_threads report event :
  report !! "threads" = None ->
  merge_apple_crash_report set_path report event
  = (inl (KeyError "threads"),
     <["threads" := VList []]>
       (if truthy (default VNone (report !! "timestamp"))
        then <["timestamp" := default VNone (report !! "timestamp")]>
               (<["platform" := VStr "native"]> event)
        else <["platform" := VStr "native"]> event)).
Proof.
  intros Hnone. unfold merge_apple_crash_report.
  unfold mbind at 1, St_bind at 1. cbn [setitem].
  set (ev1 := <["platform" := VStr "native"]> event).
  set (tsv := default VNone (report !! "timestamp")).
  assert (S2 : (if truthy tsv then setitem "timestamp" tsv else mret tt) ev1
               = (inr tt, if truthy tsv then <["timestamp" := tsv]> ev1 else ev1)).
  { by destruct (truthy tsv). }
  rewrite (st_bind_ok _ _ _ _ _ S2).
  unfold mbind at 1, St_bind at 1. cbn [setitem]. by rewrite Hnone.
Qed.

(** X16: a report without binary images makes the call raise
    [TypeError], after the threads and the level have been merged into the
    event. *)
Theorem merge_apple_crash_report_missing_images report event threads :
  (forall ev p ps v k, k <> p -> set_path ev (p :: ps) v !! k = ev !! k) ->
  report !! "threads" = Some (VList threads) ->
  forallb thread_ok threads = true ->
  metadata_ok (default VNone (report !! "metadata")) = true ->
  report !! "binary_images" = None ->
  exists entries ev',
    merge_apple_crash_report set_path report event = (inl TypeError, ev')
    /\ ev' !! "threads" = Some (VList entries)
    /\ length entries = length threads
    /\ ev' !! "level" = Some (merged_level threads event)
    /\ ev' !! "debug_meta" = event !! "debug_meta".
Proof.
  intros Hlocal Hthreads Hok Hmeta Hnone.
  destruct (merge_apple_crash_report_steps report event threads
              Hlocal Hthreads Hok Hmeta)
    as (entries & ev6 & Hrun & Hrel & _ & _ & Ht & Hl & Hk).
  exists entries, ev6. split; [|split; [exact Ht|split; [|split; [exact Hl|]]]].
  - rewrite Hrun, Hnone. reflexivity.
  - symmetry. by eapply Forall2_length.
  - apply Hk. rewrite !not_elem_of_cons. repeat split; try done. apply not_elem_of_nil.
Qed.

(** ** The context of an Unreal crash *)

Lemma sc_bind_ok {A B : Type} (m : Sc A) (k : A -> Sc B) c a c' :
  m c = (inr a, c') -> (m ≫= k) c = k a c'.
Proof. intros H. unfold mbind, Sc_bind. by rewrite H. Qed.

(** A step that sets something in the event unless the value is [None]. *)
Lemma unless_none_run (v : PyVal) (m : St unit) ev ev' props reports :
  m ev = (inr tt, ev') ->
  (if is_none v then mret tt else on_event m) (mkCtx ev props reports)
  = (inr tt, mkCtx (if is_none v then ev else ev') props reports).
Proof.
  intros Hm. destruct (is_none v); [reflexivity|].
  unfold on_event. cbn [c_event c_props c_reports]. by rewrite Hm.
Qed.

(** [merge_runtime_properties] step by step. *)
Lemma merge_runtime_properties_steps project event rp :
  let message := default VNone (rp !! "error_message") in
  let username := default VNone (rp !! "username") in
  let memory_physical := default VNone (rp !! "memory_stats_total_physical") in
  let os_major := default VNone (rp !! "misc_os_version_major") in
  let gpu_brand := default VNone (rp !! "misc_primary_cpu_brand") in
  let user_desc := default VNone (rp !! "user_description") in
  let ev1 := if is_none message then event else <["message" := message]> event in
  let ev2 := if is_none username then ev1
             else set_path ev1 ["user"; "username"] username in
  let ev3 := if is_none memory_physical then ev2
             else set_path ev2 ["contexts"; "device"; "memory_size"] memory_physical in
  let ev4 := if is_none os_major then ev3
             else set_path ev3 ["contexts"; "os"; "name"] os_major in
  let ev5 := if is_none gpu_brand then ev4
             else set_path ev4 ["contexts"; "gpu"; "name"] gpu_brand in
  let rp6 := foldl (fun m k => delete k m) rp (take 6 used_first) in
  let rp7 := delete "modules" rp6 in
  let ev7 := set_path ev5 ["contexts"; "unreal"; "type"] (VStr "unreal") in
  let name := if is_none username then VStr "unknown" else username in
  let finish reports :=
    match update_unreal_context (mkCtx ev7 rp7 reports) with
    | (inl e, c) => (inl e, c)
    | (inr _, c) =>
        (inr tt,
         mkCtx (<["sdk" := VDict {[ "name" := VStr "sentry.unreal.crashreporter";
                                    "version" := default (VStr "0.0.0")
                                                   (rp7 !! "crash_reporter_client_version") ]}]>
                  (c_event c))
               (delete "crash_reporter_client_version" rp7) reports)
    end in
  merge_runtime_properties set_path project (mkCtx event rp [])
  = if is_none user_desc then finish []
    else match ev5 !! "event_id" with
         | Some event_id => finish [(project, event_id, name, "", user_desc)]
         | None => (inl (KeyError "event_id"), mkCtx ev5 rp6 [])
         end.
Proof.
  intros. unfold merge_runtime_properties.
  unfold mbind at 1, Sc_bind at 1. unfold pop at 1. cbn [c_event c_props c_reports].
  fold message.
  rewrite (sc_bind_ok _ _ _ _ _ (unless_none_run message (setitem "message" message)
                                   event _ _ [] eq_refl)).
  fold ev1.
  unfold mbind at 1, Sc_bind at 1. unfold pop at 1. cbn [c_event c_props c_reports].
  rewrite (lookup_delete_ne rp "error_message" "username") by done. fold username.
  rewrite (sc_bind_ok _ _ _ _ _ (unless_none_run username
                                   (call_set_path set_path ["user"; "username"] username)
                                   ev1 _ _ [] eq_refl)).
  fold ev2.
  unfold mbind at 1, Sc_bind at 1. unfold pop at 1. cbn [c_event c_props c_reports].
  rewrite !(lookup_delete_ne _ _ "memory_stats_total_physical") by done.
  fold memory_physical.
  rewrite (sc_bind_ok _ _ _ _ _
             (unless_none_run memory_physical
                (call_set_path set_path ["contexts"; "device"; "memory_size"] memory_physical)
                ev2 _ _ [] eq_refl)).
  fold ev3.
  unfold mbind at 1, Sc_bind at 1. unfold pop at 1. cbn [c_event c_props c_reports].
  rewrite !(lookup_delete_ne _ _ "misc_os_version_major") by done.
  fold os_major.
  rewrite (sc_bind_ok _ _ _ _ _
             (unless_none_run os_major
                (call_set_path set_path ["contexts"; "os"; "name"] os_major)
                ev3 _ _ [] eq_refl)).
  fold ev4.
  unfold mbind at 1, Sc_bind at 1. unfold pop at 1. cbn [c_event c_props c_reports].
  rewrite !(lookup_delete_ne _ _ "misc_primary_cpu_brand") by done.
  fold gpu_brand.
  rewrite (sc_bind_ok _ _ _ _ _
             (unless_none_run gpu_brand
                (call_set_path set_path ["contexts"; "gpu"; "name"] gpu_brand)
                ev4 _ _ [] eq_refl)).
  fold ev5.
  unfold mbind at 1, Sc_bind at 1. unfold pop at 1. cbn [c_event c_props c_reports].
  rewrite !(lookup_delete_ne _ _ "user_description") by done.
  fold user_desc.
  change (delete "user_description" _) with rp6.
  assert (Htail : forall reports,
    (pop "modules" VNone
     ≫= λ _ : PyVal,
          on_event (call_set_path set_path ["contexts"; "unreal"; "type"] (VStr "unreal"))
          ≫= λ _ : (),
               update_unreal_context
               ≫= λ _ : (),
                    pop "crash_reporter_client_version" (VStr "0.0.0")
                    ≫= λ version : PyVal,
                         on_event
                           (setitem "sdk"
                              (VDict {[ "name" := VStr "sentry.unreal.crashreporter";
                                        "version" := version ]})))
      (mkCtx ev5 rp6 reports) = finish reports).
  { intros reports. unfold mbind at 1, Sc_bind at 1. unfold pop at 1.
    cbn [c_event c_props c_reports]. fold rp7.
    unfold mbind at 1, Sc_bind at 1. unfold on_event at 1, call_set_path at 1.
    cbn [c_event c_props c_reports]. fold ev7.
    unfold mbind at 1, Sc_bind at 1. unfold finish.
    assert (Hkeep : forall e c,
              update_unreal_context (mkCtx ev7 rp7 reports) = (e, c) ->
              c_props c = rp7 /\ c_reports c = reports).
    { unfold update_unreal_context. cbn [c_event c_props c_reports].
      intros e c. destruct (ev7 !! "contexts") as [[| | | | |ctx]|];
        try (intros [= <- <-]; by split).
      destruct (ctx !! "unreal") as [[| | | | |u]|]; intros [= <- <-]; by split. }
    destruct (update_unreal_context (mkCtx ev7 rp7 reports)) as [[e|[]] c] eqn:Hup;
      [reflexivity|].
    destruct (Hkeep _ _ eq_refl) as [Hp Hr].
    unfold mbind, Sc_bind, pop, on_event, setitem. cbn [c_event c_props c_reports].
    by rewrite Hp, Hr. }
  destruct (is_none user_desc).
  - exact (Htail []).
  - unfold mbind at 1, Sc_bind at 1. unfold mbind at 1, Sc_bind at 1.
    unfold on_event at 1, getitem at 1. cbn [c_event c_props c_reports].
    destruct (ev5 !! "event_id") as [event_id|]; [|reflexivity].
    unfold create_user_report. cbn [c_event c_props c_reports app].
    exact (Htail _).
Qed.

Lemma update_unreal_context_cases ev props reports :
  (exists e, update_unreal_context (mkCtx ev props reports)
             = (inl e, mkCtx ev props reports))
  \/ (exists ctx u,
        ev !! "contexts" = Some (VDict ctx)
        /\ ctx !! "unreal" = Some (VDict u)
        /\ update_unreal_context (mkCtx ev props reports)
           = (inr tt,
              mkCtx (<["contexts" := VDict (<["unreal" := VDict (props ∪ u)]> ctx)]> ev)
                    props reports)).
Proof.
  unfold update_unreal_context. cbn [c_event c_props c_reports].
  destruct (ev !! "contexts") as [[| | | | |ctx]|] eqn:Hc; try (left; by eexists).
  destruct (ctx !! "unreal") as [[| | | | |u]|] eqn:Hu; try (left; by eexists).
  right. by exists ctx, u.
Qed.

(** The event id is out of reach of the steps before the user report. *)
Lemma event_id_kept event (m u mp os gpu : PyVal) :
  (forall ev p ps v k, k <> p -> set_path ev (p :: ps) v !! k = ev !! k) ->
  let ev1 := if is_none m then event else <["message" := m]> event in
  let ev2 := if is_none u then ev1 else set_path ev1 ["user"; "username"] u in
  let ev3 := if is_none mp then ev2
             else set_path ev2 ["contexts"; "device"; "memory_size"] mp in
  let ev4 := if is_none os then ev3 else set_path ev3 ["contexts"; "os"; "name"] os in
  let ev5 := if is_none gpu then ev4 else set_path ev4 ["contexts"; "gpu"; "name"] gpu in
  ev5 !! "event_id" = event !! "event_id".
Proof.
  intros Hlocal. cbv zeta.
  destruct (is_none gpu), (is_none os), (is_none mp), (is_none u), (is_none m);
    rewrite ?Hlocal by done; rewrite ?lookup_insert_ne by done; reflexivity.
Qed.

(** X17: when the runtime properties hold a user description that is not
    [None], [merge_unreal_context_event] creates exactly one user report,
    for the project and the event id of the event, with the description
    as comments, an empty email and the username of the runtime
    properties as name, or [unknown] when there is no username; without a
    description it creates none.  That is so whether or not the rest of
    the call succeeds. *)
Theorem merge_unreal_context_event_user_report unreal_context project event rp event_id :
  (forall ev p ps v k, k <> p -> set_path ev (p :: ps) v !! k = ev !! k) ->
  unreal_context !! "runtime_properties" = Some (VDict rp) ->
  event !! "event_id" = Some event_id ->
  (merge_unreal_context_event set_path unreal_context project event).2
  = if is_none (default VNone (rp !! "user_description")) then []
    else [(project, event_id,
           if is_none (default VNone (rp !! "username")) then VStr "unknown"
           else default VNone (rp !! "username"),
           "", default VNone (rp !! "user_description"))].
Proof.
  intros Hlocal Hrp Hid. unfold merge_unreal_context_event. rewrite Hrp.
  cbn [default from_option id].
  pose proof (merge_runtime_properties_steps project event rp) as Hsteps.
  cbv zeta in Hsteps. rewrite Hsteps. clear Hsteps.
  rewrite (event_id_kept event _ _ _ _ _ Hlocal), Hid.
  match goal with
  | |- context [update_unreal_context (mkCtx ?ev ?props _)] =>
      set (ev7 := ev); set (rp7 := props)
  end.
  destruct (is_none (default VNone (rp !! "user_description"))).
  - destruct (update_unreal_context_cases ev7 rp7 [])
      as [[e ->]|(ctx & u & _ & _ & ->)]; reflexivity.
  - match goal with
    | |- context [update_unreal_context (mkCtx ev7 rp7 ?r)] =>
        destruct (update_unreal_context_cases ev7 rp7 r)
          as [[e ->]|(ctx & u & _ & _ & ->)]; reflexivity
    end.
Qed.


(** X19: when the runtime properties hold a description and the event has
    no event id, the call raises [KeyError] and creates no user report;
    the message, the username, the memory size, the version of the system
    and the brand of the processor are then already out of the runtime
    properties, as is the description. *)
Theorem merge_unreal_context_event_missing_event_id unreal_context project event rp :
  (forall ev p ps v k, k <> p -> set_path ev (p :: ps) v !! k = ev !! k) ->
  unreal_context !! "runtime_properties" = Some (VDict rp) ->
  is_none (default VNone (rp !! "user_description")) = false ->
  event !! "event_id" = None ->
  exists ev',
    merge_unreal_context_event set_path unreal_context project event
    = (inl (KeyError "event_id"), ev',
       <["runtime_properties" :=
           VDict (foldl (fun m k => delete k m) rp (take 6 used_first))]> unreal_context,
       []).
Proof.
  intros Hlocal Hrp Hdesc Hid. unfold merge_unreal_context_event. rewrite Hrp.
  cbn [default from_option id].
  pose proof (merge_runtime_properties_steps project event rp) as Hsteps.
  cbv zeta in Hsteps. rewrite Hsteps. clear Hsteps.
  rewrite (event_id_kept event _ _ _ _ _ Hlocal), Hid, Hdesc.
  eexists. reflexivity.
Qed.

(** Without runtime properties the call does nothing. *)
Lemma merge_unreal_context_event_without_properties unreal_context project event :
  default VNone (unreal_context !! "runtime_properties") = VNone ->
  merge_unreal_context_event set_path unreal_context project event
  = (inr tt, event, unreal_context, []).
Proof. intros H. unfold merge_unreal_context_event. by rewrite H. Qed.

End WithHelpers.

Lemma merge_unreal_logs_event_appends_witness :
  setdefault_path_example ex_logged_event ["breadcrumbs"; "values"] (VList [])
    !! "breadcrumbs"
  = Some (VDict {[ "values" := VList [ex_crumb] ]})
  /\ ({[ "values" := VList [ex_crumb] ]} : gmap string PyVal) !! "values"
     = Some (VList [ex_crumb])
  /\ forallb is_dict ex_logs = true
  /\ exists new,
       merge_unreal_logs_event setdefault_path_example ex_logs ex_logged_event
       = (inr tt,
          <["breadcrumbs" := VDict (<["values" := VList ([ex_crumb] ++ new)]>
                                      {[ "values" := VList [ex_crumb] ]})]>
            (setdefault_path_example ex_logged_event ["breadcrumbs"; "values"]
               (VList [])))
       /\ length new = length (List.filter has_message ex_logs)
       /\ field "message" <$> new = field "message" <$> List.filter has_message ex_logs
       /\ field "category" <$> new = field "component" <$> List.filter has_message ex_logs
       /\ field "timestamp" <$> new = field "timestamp" <$> List.filter has_message ex_logs.
Proof.
  split; [by vm_compute|]. split; [by vm_compute|]. split; [reflexivity|].
  apply (merge_unreal_logs_event_appends setdefault_path_example ex_logs ex_logged_event
           {[ "values" := VList [ex_crumb] ]} [ex_crumb]);
    first [reflexivity | by vm_compute].
Defined.

(** The breadcrumbs of the example event after the call. *)
Example merge_unreal_logs_event_example :
  field "message"
    <$> items (field "values"
                 (field "breadcrumbs"
                    (VDict (merge_unreal_logs_event setdefault_path_example ex_logs
                              ex_logged_event).2)))
  = [VStr "earlier"; VStr "starting"; VStr "crashed"].
Proof. by vm_compute. Qed.

Lemma process_unreal_crash_user_witness :
  (forall ev p ps v k, k <> p -> set_path_example ev (p :: ps) v !! k = ev !! k)
  /\ "john|acc1|box9|x" <> ""
  /\ exists login_id epic_account_id machine_id ev',
       user_id_parts "john|acc1|box9|x" = inr (login_id, epic_account_id, machine_id)
       /\ process_unreal_crash set_path_example unit from_bytes_example "payload"
            (Some "john|acc1|box9|x") (VStr "production") ∅
          = (from_bytes_example "payload", ev')
       /\ ev' !! "environment" = Some (VStr "production")
       /\ ev' !! "user"
          = Some (VDict {[ "id" := VStr (if String.eqb login_id "" then "john|acc1|box9|x"
                                         else login_id) ]})
       /\ (if String.eqb login_id "" then "john|acc1|box9|x" else login_id) <> "".
Proof.
  split; [exact set_path_example_local|]. split; [discriminate|].
  apply (process_unreal_crash_user set_path_example unit from_bytes_example "payload"
           "john|acc1|box9|x" (VStr "production") ∅ set_path_example_local).
  discriminate.
Defined.

Lemma process_unreal_crash_plain_user_id_witness :
  contains "|" (default "" (Some "john")) = false
  /\ process_unreal_crash set_path_example unit from_bytes_example "payload"
       (Some "john") (VStr "production") ∅
     = (from_bytes_example "payload",
        if truthy (VStr (default "" (Some "john")))
        then <["user" := VDict {[ "id" := VStr (default "" (Some "john")) ]}]>
               (<["environment" := VStr "production"]> ∅)
        else <["environment" := VStr "production"]> ∅).
Proof.
  split; [reflexivity|].
  apply (process_unreal_crash_plain_user_id set_path_example unit from_bytes_example
           "payload" (Some "john") (VStr "production") ∅).
  reflexivity.
Defined.

(** The parts of a user id with three separators, and the event after the
    call: the machine part keeps the rest of the user id. *)
Example process_unreal_crash_example :
  user_id_parts "john|acc1|box9|x" = inr ("john", "acc1", "box9|x")
  /\ (process_unreal_crash set_path_example unit from_bytes_example "payload"
        (Some "john|acc1|box9|x") (VStr "production") ∅).2
     = {[ "environment" := VStr "production";
          "user" := VDict {[ "id" := VStr "john" ]};
          "tags" := VDict {[ "epic_account_id" := VStr "acc1";
                             "machine_id" := VStr "box9|x" ]} ]}.
Proof. split; [reflexivity|]. by vm_compute. Qed.

Lemma merge_apple_crash_report_level_witness :
  (forall ev p ps v k, k <> p -> set_path_example ev (p :: ps) v !! k = ev !! k)
  /\ ex_report !! "threads" = Some (VList ex_threads)
  /\ forallb thread_ok ex_threads = true
  /\ metadata_ok (default VNone (ex_report !! "metadata")) = true
  /\ ex_report !! "binary_images" = Some (VList ex_images)
  /\ forallb is_dict ex_images = true
  /\ debug_meta_ok ex_apple_event = true
  /\ exists ev',
       merge_apple_crash_report set_path_example ex_report ex_apple_event = (inr tt, ev')
       /\ ev' !! "platform" = Some (VStr "native")
       /\ ev' !! "level"
          = Some (if existsb has_crashed ex_threads then VStr "fatal"
                  else match default VNone (ex_apple_event !! "level") with
                       | VNone => VStr "info"
                       | level => level
                       end).
Proof.
  split; [exact set_path_example_local|]. split; [by vm_compute|].
  split; [by vm_compute|]. split; [by vm_compute|]. split; [by vm_compute|].
  split; [by vm_compute|]. split; [by vm_compute|].
  apply (merge_apple_crash_report_level set_path_example ex_report ex_apple_event ex_threads ex_images
           set_path_example_local); by vm_compute.
Defined.

Lemma merge_apple_crash_report_threads_witness :
  (forall ev p ps v k, k <> p -> set_path_example ev (p :: ps) v !! k = ev !! k)
  /\ ex_report !! "threads" = Some (VList ex_threads)
  /\ forallb thread_ok ex_threads = true
  /\ metadata_ok (default VNone (ex_report !! "metadata")) = true
  /\ ex_report !! "binary_images" = Some (VList ex_images)
  /\ forallb is_dict ex_images = true
  /\ debug_meta_ok ex_apple_event = true
  /\ exists entries ev',
       merge_apple_crash_report set_path_example ex_report ex_apple_event = (inr tt, ev')
       /\ ev' !! "threads" = Some (VList entries)
       /\ Forall2 is_entry_of ex_threads entries.
Proof.
  split; [exact set_path_example_local|]. split; [by vm_compute|].
  split; [by vm_compute|]. split; [by vm_compute|]. split; [by vm_compute|].
  split; [by vm_compute|]. split; [by vm_compute|].
  apply (merge_apple_crash_report_threads set_path_example ex_report ex_apple_event ex_threads ex_images
           set_path_example_local); by vm_compute.
Defined.

Lemma merge_apple_crash_report_images_witness :
  (forall ev p ps v k, k <> p -> set_path_example ev (p :: ps) v !! k = ev !! k)
  /\ ex_report !! "threads" = Some (VList ex_threads)
  /\ forallb thread_ok ex_threads = true
  /\ metadata_ok (default VNone (ex_report !! "metadata")) = true
  /\ ex_report !! "binary_images" = Some (VList ex_images)
  /\ forallb is_dict ex_images = true
  /\ debug_meta_ok ex_apple_event = true
  /\ exists images ev',
       merge_apple_crash_report set_path_example ex_report ex_apple_event = (inr tt, ev')
       /\ ev' !! "debug_meta"
          = Some (VDict (<["images" := VList images]>
                           (match ex_apple_event !! "debug_meta" with
                            | Some (VDict dm) => dm
                            | _ => ∅
                            end)))
       /\ Forall2 is_image_of ex_images images.
Proof.
  split; [exact set_path_example_local|]. split; [by vm_compute|].
  split; [by vm_compute|]. split; [by vm_compute|]. split; [by vm_compute|].
  split; [by vm_compute|]. split; [by vm_compute|].
  apply (merge_apple_crash_report_images set_path_example ex_report ex_apple_event ex_threads ex_images
           set_path_example_local); by vm_compute.
Defined.

Lemma merge_apple_crash_report_keeps_witness :
  (forall ev p ps v k, k <> p -> set_path_example ev (p :: ps) v !! k = ev !! k)
  /\ ex_report !! "threads" = Some (VList ex_threads)
  /\ forallb thread_ok ex_threads = true
  /\ metadata_ok (default VNone (ex_report !! "metadata")) = true
  /\ ex_report !! "binary_images" = Some (VList ex_images)
  /\ forallb is_dict ex_images = true
  /\ debug_meta_ok ex_apple_event = true
  /\ exists ev',
       merge_apple_crash_report set_path_example ex_report ex_apple_event = (inr tt, ev')
       /\ ev' !! "timestamp"
          = (if truthy (default VNone (ex_report !! "timestamp"))
             then Some (default VNone (ex_report !! "timestamp"))
             else ex_apple_event !! "timestamp")
       /\ forall k,
            k ∉ ["platform"; "timestamp"; "threads"; "level"; "contexts"; "debug_meta"] ->
            ev' !! k = ex_apple_event !! k.
Proof.
  split; [exact set_path_example_local|]. split; [by vm_compute|].
  split; [by vm_compute|]. split; [by vm_compute|]. split; [by vm_compute|].
  split; [by vm_compute|]. split; [by vm_compute|].
  apply (merge_apple_crash_report_keeps set_path_example ex_report ex_apple_event ex_threads ex_images
           set_path_example_local); by vm_compute.
Defined.

Lemma merge_apple_crash_report_missing_threads_witness :
  delete "threads" ex_report !! "threads" = None
  /\ merge_apple_crash_report set_path_example (delete "threads" ex_report) ex_apple_event
     = (inl (KeyError "threads"),
        <["threads" := VList []]>
          (if truthy (default VNone (delete "threads" ex_report !! "timestamp"))
           then <["timestamp" := default VNone (delete "threads" ex_report !! "timestamp")]>
                  (<["platform" := VStr "native"]> ex_apple_event)
           else <["platform" := VStr "native"]> ex_apple_event)).
Proof.
  split; [by vm_compute|].
  apply (merge_apple_crash_report_missing_threads set_path_example
           (delete "threads" ex_report) ex_apple_event).
  by vm_compute.
Defined.

Lemma merge_apple_crash_report_missing_images_witness :
  (forall ev p ps v k, k <> p -> set_path_example ev (p :: ps) v !! k = ev !! k)
  /\ delete "binary_images" ex_report !! "threads" = Some (VList ex_threads)
  /\ forallb thread_ok ex_threads = true
  /\ metadata_ok (default VNone (delete "binary_images" ex_report !! "metadata")) = true
  /\ delete "binary_images" ex_report !! "binary_images" = None
  /\ exists entries ev',
       merge_apple_crash_report set_path_example (delete "binary_images" ex_report)
         ex_apple_event
       = (inl TypeError, ev')
       /\ ev' !! "threads" = Some (VList entries)
       /\ length entries = length ex_threads
       /\ ev' !! "level" = Some (merged_level ex_threads ex_apple_event)
       /\ ev' !! "debug_meta" = ex_apple_event !! "debug_meta".
Proof.
  split; [exact set_path_example_local|]. split; [by vm_compute|].
  split; [by vm_compute|]. split; [by vm_compute|]. split; [by vm_compute|].
  apply (merge_apple_crash_report_missing_images set_path_example
           (delete "binary_images" ex_report) ex_apple_event ex_threads
           set_path_example_local); by vm_compute.
Defined.

(** The example report merged into the example event: the crashed thread
    makes the event fatal over its own level, and the frames come out in
    reverse order. *)
Example merge_apple_crash_report_example :
  let ev' := VDict (merge_apple_crash_report set_path_example ex_report
                      ex_apple_event).2 in
  field "level" ev' = VStr "fatal"
  /\ field "platform" ev' = VStr "native"
  /\ (fun e => field "instruction_addr"
                 <$> items (field "frames" (field "stacktrace" e)))
       <$> items (field "threads" ev')
     = [[VStr "0x2"; VStr "0x1"]; [VStr "0x5"; VStr "0x4"; VStr "0x3"]]
  /\ field "sdk_info" (field "debug_meta" ev') = VStr "kept"
  /\ field "raw_description" (field "os" (field "contexts" ev')) = VStr "Mac OS X 10.14".
Proof. by vm_compute. Qed.

Lemma merge_unreal_context_event_user_report_witness :
  (forall ev p ps v k, k <> p -> set_path_example ev (p :: ps) v !! k = ev !! k)
  /\ ex_context !! "runtime_properties" = Some (field "runtime_properties" (VDict ex_context))
  /\ ex_unreal_event !! "event_id" = Some (VStr "abc")
  /\ (merge_unreal_context_event set_path_example ex_context 7 ex_unreal_event).2
     = [(7, VStr "abc", VStr "jane", "", VStr "it crashed on load")].
Proof.
  split; [exact set_path_example_local|]. split; [by vm_compute|].
  split; [by vm_compute|].
  etransitivity;
    [apply (merge_unreal_context_event_user_report set_path_example ex_context 7
              ex_unreal_event
              {[ "error_message" := VStr "Access violation";
                 "username" := VStr "jane";
                 "user_description" := VStr "it crashed on load";
                 "modules" := VStr "a.dll;b.dll";
                 "crash_reporter_client_version" := VStr "1.0";
                 "engine_mode" := VStr "Game" ]}
              (VStr "abc") set_path_example_local);
     by vm_compute
    |by vm_compute].
Defined.


Lemma merge_unreal_context_event_missing_event_id_witness :
  let rp : gmap string PyVal :=
    {[ "error_message" := VStr "Access violation";
       "username" := VStr "jane";
       "user_description" := VStr "it crashed on load";
       "modules" := VStr "a.dll;b.dll";
       "crash_reporter_client_version" := VStr "1.0";
       "engine_mode" := VStr "Game" ]} in
  (forall ev p ps v k, k <> p -> set_path_example ev (p :: ps) v !! k = ev !! k)
  /\ ex_context !! "runtime_properties" = Some (VDict rp)
  /\ is_none (default VNone (rp !! "user_description")) = false
  /\ (∅ : gmap string PyVal) !! "event_id" = None
  /\ exists ev',
       merge_unreal_context_event set_path_example ex_context 7 ∅
       = (inl (KeyError "event_id"), ev',
          <["runtime_properties" :=
              VDict (foldl (fun m k => delete k m) rp (take 6 used_first))]> ex_context,
          []).
Proof.
  intros rp. split; [exact set_path_example_local|]. split; [by vm_compute|].
  split; [by vm_compute|]. split; [reflexivity|].
  apply (merge_unreal_context_event_missing_event_id set_path_example ex_context 7 ∅ rp
           set_path_example_local); by vm_compute.
Defined.

(** The example context merged into the example event: the version of the
    client is both the version of the sdk and an entry of the unreal
    context, the modules are dropped, and the runtime properties are left
    with the one entry the call has no use for. *)
Example merge_unreal_context_event_example :
  let result := merge_unreal_context_event set_path_example ex_context 7 ex_unreal_event in
  let ev' := VDict result.1.1.2 in
  field "message" ev' = VStr "Access violation"
  /\ field "username" (field "user" ev') = VStr "jane"
  /\ field "version" (field "sdk" ev') = VStr "1.0"
  /\ field "unreal" (field "contexts" ev')
     = VDict {[ "type" := VStr "unreal"; "engine_mode" := VStr "Game";
                "crash_reporter_client_version" := VStr "1.0" ]}
  /\ field "runtime_properties" (VDict result.1.2)
     = VDict {[ "engine_mode" := VStr "Game" ]}.
Proof. by vm_compute. Qed.

End UnrealFacts.

(** * The tasks of the incidents *)

Module IncidentsFacts.

Import Incidents.

Section WithModels.

Variable COMMENT STATUS_CHANGE : Z.
Variable status_name : option string -> Error + string.
Variable incident_url : string -> Z -> string.
Variable unsubscribe_link : User -> Z -> string.
Variable get_incident_subscribers : Incident -> list User.
Variable has_project_access : User -> Z -> Z -> bool.

(** The body of the loop over the subscribers. *)
Local Abbreviation notify activity :=
  (fun user : User =>
     if negb (has_access has_project_access user (activity_incident activity)) then
       act (Unsubscribe (incident_id (activity_incident activity)) user)
     else if differs user (activity_user activity) then
       msg ← lift (generate_incident_activity_email COMMENT status_name incident_url
                     unsubscribe_link activity user);
       act (SendAsync msg [user_email user])
     else mret tt).

Lemma task_bind_ok {A B : Type} (m : Task A) (k : A -> Task B) log a log' :
  m log = (inr a, log') -> (m ≫= k) log = k a log'.
Proof. intros H. unfold mbind, Task_bind. by rewrite H. Qed.

Lemma task_bind_err {A B : Type} (m : Task A) (k : A -> Task B) log e log' :
  m log = (inl e, log') -> (m ≫= k) log = (inl e, log').
Proof. intros H. unfold mbind, Task_bind. by rewrite H. Qed.

(** What one subscriber adds to the log. *)
Lemma notify_one activity user log :
  exists outcome new,
    notify activity user log = (outcome, (log ++ new)%list)
    /\ (user ∈ get_incident_subscribers (activity_incident activity) ->
        Forall (in_order get_incident_subscribers has_project_access activity) new).
Proof.
  cbv beta.
  destruct (has_access has_project_access user (activity_incident activity)) eqn:Hacc;
    cbn [negb].
  - destruct (differs user (activity_user activity)) eqn:Hdiff.
    + destruct (generate_incident_activity_email COMMENT status_name incident_url
                  unsubscribe_link activity user) as [e|msg] eqn:Hmsg.
      * exists (inl e), []. split; [|by constructor].
        rewrite app_nil_r. by apply task_bind_err.
      * exists (inr tt), [SendAsync msg [user_email user]]. split.
        -- by erewrite task_bind_ok.
        -- intros Hin. constructor; [|constructor]. cbn. by exists user.
    + exists (inr tt), []. split; [by rewrite app_nil_r|by constructor].
  - exists (inr tt), [Unsubscribe (incident_id (activity_incident activity)) user].
    split; [reflexivity|]. intros Hin. constructor; [|constructor]. by cbn.
Qed.

Lemma notify_all activity subscribers :
  forall log,
    exists outcome new,
      for_each subscribers (notify activity) log = (outcome, (log ++ new)%list)
      /\ (subscribers ⊆ get_incident_subscribers (activity_incident activity) ->
          Forall (in_order get_incident_subscribers has_project_access activity) new).
Proof.
  induction subscribers as [|user subscribers IH]; intros log.
  - exists (inr tt), []. split; [by rewrite app_nil_r|by constructor].
  - destruct (notify_one activity user log) as (o1 & new1 & Hone & Hok1).
    cbn [for_each]. destruct o1 as [e|[]].
    + exists (inl e), new1. split; [by apply task_bind_err|].
      intros Hsub. apply Hok1, Hsub. apply list_elem_of_here.
    + destruct (IH (log ++ new1)%list) as (o & new & Hrest & Hok).
      exists o, (new1 ++ new)%list. split.
      * rewrite (task_bind_ok _ _ _ _ _ Hone), Hrest. by rewrite <- app_assoc.
      * intros Hsub. apply Forall_app. split.
        -- apply Hok1, Hsub. apply list_elem_of_here.
        -- apply Hok. intros x Hx. apply Hsub. by apply list_elem_of_further.
Qed.

(** X20: whatever [send_subscriber_notifications] does is in order: it
    unsubscribes only subscribers of the incident who have access to none
    of its projects, and it sends mail only to the address of a
    subscriber who has access to one of them and is not the user the
    activity is by.  That holds for everything done before an error,
    too. *)
Theorem send_subscriber_notifications_in_order activities activity_id activity :
  activities !! activity_id = Some activity ->
  Forall (in_order get_incident_subscribers has_project_access activity)
    (send_subscriber_notifications COMMENT STATUS_CHANGE status_name incident_url
       unsubscribe_link get_incident_subscribers has_project_access
       activities activity_id []).2.
Proof.
  intros Hact. unfold send_subscriber_notifications. rewrite Hact.
  destruct (negb _); [by constructor|].
  destruct (notify_all activity (get_incident_subscribers (activity_incident activity)) [])
    as (o & new & Hrun & Hok).
  cbv beta in Hrun. rewrite Hrun. cbn [snd app]. by apply Hok.
Qed.

Lemma comment_email activity user :
  activity_type activity = COMMENT ->
  exists msg,
    generate_incident_activity_email COMMENT status_name incident_url unsubscribe_link
      activity user = inr msg.
Proof.
  intros Htype. unfold generate_incident_activity_email, build_activity_context.
  rewrite Htype, Z.eqb_refl. by eexists.
Qed.

Lemma notify_all_comment activity subscribers :
  activity_type activity = COMMENT ->
  forall log,
    exists new,
      for_each subscribers (notify activity) log = (inr tt, (log ++ new)%list)
      /\ (forall user, user ∈ subscribers ->
            has_access has_project_access user (activity_incident activity) = false ->
            Unsubscribe (incident_id (activity_incident activity)) user ∈ new)
      /\ (forall user, user ∈ subscribers ->
            has_access has_project_access user (activity_incident activity) = true ->
            differs user (activity_user activity) = true ->
            exists msg, SendAsync msg [user_email user] ∈ new)
      /\ length new
         = length (List.filter
                     (fun user =>
                        negb (has_access has_project_access user
                                (activity_incident activity))
                        || differs user (activity_user activity))
                     subscribers).
Proof.
  intros Htype. induction subscribers as [|user subscribers IH]; intros log.
  - exists []. split; [by rewrite app_nil_r|]. split; [|split; [|reflexivity]].
    + intros u Hu. by apply elem_of_nil in Hu.
    + intros u Hu. by apply elem_of_nil in Hu.
  - assert (exists new1,
              notify activity user log = (inr tt, (log ++ new1)%list)
              /\ (has_access has_project_access user (activity_incident activity) = false ->
                  new1 = [Unsubscribe (incident_id (activity_incident activity)) user])
              /\ (has_access has_project_access user (activity_incident activity) = true ->
                  differs user (activity_user activity) = true ->
                  exists msg, new1 = [SendAsync msg [user_email user]])
              /\ length new1
                 = if negb (has_access has_project_access user (activity_incident activity))
                      || differs user (activity_user activity)
                   then 1%nat else 0%nat)
      as (new1 & Hone & Hun & Hsend & Hlen).
    { cbv beta.
      destruct (has_access has_project_access user (activity_incident activity)); cbn [negb orb].
      - destruct (differs user (activity_user activity)).
        + destruct (comment_email activity user Htype) as [msg Hmsg].
          exists [SendAsync msg [user_email user]]. split.
          * erewrite task_bind_ok; [reflexivity|]. unfold lift. by rewrite Hmsg.
          * split; [discriminate|]. split; [by eexists|reflexivity].
        + exists []. split; [by rewrite app_nil_r|]. split; [discriminate|].
          split; [discriminate|reflexivity].
      - eexists. split; [reflexivity|]. split; [reflexivity|]. split; [discriminate|reflexivity]. }
    destruct (IH (log ++ new1)%list) as (new & Hrest & Hun' & Hsend' & Hlen').
    exists (new1 ++ new)%list. split; [|split; [|split]].
    + cbn [for_each]. rewrite (task_bind_ok _ _ _ _ _ Hone), Hrest. by rewrite <- app_assoc.
    + intros u Hu Hacc. apply elem_of_app. apply elem_of_cons in Hu as [->|Hu].
      * left. rewrite (Hun Hacc). apply list_elem_of_here.
      * right. by apply Hun'.
    + intros u Hu Hacc Hdiff. apply elem_of_cons in Hu as [->|Hu].
      * destruct (Hsend Hacc Hdiff) as [msg ->]. exists msg.
        apply elem_of_app. left. apply list_elem_of_here.
      * destruct (Hsend' u Hu Hacc Hdiff) as [msg Hmsg]. exists msg.
        apply elem_of_app. by right.
    + rewrite length_app, Hlen, Hlen'. cbn [List.filter].
      by destruct (negb _ || _).
Qed.

(** X21: for a comment, [send_subscriber_notifications] returns, and by
    then every subscriber without access to a project of the incident has
    been unsubscribed and every subscriber with access, other than the
    user who commented, has been sent a mail at their address; it has done
    one thing for each of these subscribers and nothing else. *)
Theorem send_subscriber_notifications_comment activities activity_id activity :
  activities !! activity_id = Some activity ->
  activity_type activity = COMMENT ->
  exists log,
    send_subscriber_notifications COMMENT STATUS_CHANGE status_name incident_url
      unsubscribe_link get_incident_subscribers has_project_access
      activities activity_id []
    = (inr tt, log)
    /\ (forall user,
          user ∈ get_incident_subscribers (activity_incident activity) ->
          has_access has_project_access user (activity_incident activity) = false ->
          Unsubscribe (incident_id (activity_incident activity)) user ∈ log)
    /\ (forall user,
          user ∈ get_incident_subscribers (activity_incident activity) ->
          has_access has_project_access user (activity_incident activity) = true ->
          differs user (activity_user activity) = true ->
          exists msg, SendAsync msg [user_email user] ∈ log)
    /\ length log
       = length (List.filter
                   (fun user =>
                      negb (has_access has_project_access user
                              (activity_incident activity))
                      || differs user (activity_user activity))
                   (get_incident_subscribers (activity_incident activity))).
Proof.
  intros Hact Htype. unfold send_subscriber_notifications. rewrite Hact.
  assert (negb ((activity_type activity =? COMMENT)
                || (activity_type activity =? STATUS_CHANGE)) = false) as ->.
  { by rewrite Htype, Z.eqb_refl. }
  destruct (notify_all_comment activity
              (get_incident_subscribers (activity_incident activity)) Htype [])
    as (new & Hrun & Hrest).
  exists new. split; [exact Hrun|exact Hrest].
Qed.

End WithModels.

(** ** The suspect commits of an incident *)

Lemma imap_filter_own incident_id (commits : list Z) :
  List.filter (fun row => sc_incident row =? incident_id)
    (imap (fun i commit_id => mkSuspectCommit incident_id commit_id i) commits)
  = imap (fun i commit_id => mkSuspectCommit incident_id commit_id i) commits
  /\ List.filter (fun row => negb (sc_incident row =? incident_id))
       (imap (fun i commit_id => mkSuspectCommit incident_id commit_id i) commits)
     = [].
Proof.
  assert (H : forall (f : nat -> nat),
    List.filter (fun row => sc_incident row =? incident_id)
      (imap (fun i commit_id => mkSuspectCommit incident_id commit_id (f i)) commits)
    = imap (fun i commit_id => mkSuspectCommit incident_id commit_id (f i)) commits
    /\ List.filter (fun row => negb (sc_incident row =? incident_id))
         (imap (fun i commit_id => mkSuspectCommit incident_id commit_id (f i)) commits)
       = []).
  { induction commits as [|c commits IH]; intros f; [by split|].
    cbn [imap List.filter sc_incident]. rewrite Z.eqb_refl. cbn [negb].
    destruct (IH (f ∘ S)) as [H1 H2]. split; [|exact H2]. f_equal. exact H1. }
  exact (H (fun i => i)).
Qed.

Lemma filter_filter_out incident_id (table : list SuspectCommit) :
  List.filter (fun row => sc_incident row =? incident_id)
    (List.filter (fun row => negb (sc_incident row =? incident_id)) table) = []
  /\ List.filter (fun row => negb (sc_incident row =? incident_id))
       (List.filter (fun row => negb (sc_incident row =? incident_id)) table)
     = List.filter (fun row => negb (sc_incident row =? incident_id)) table.
Proof.
  induction table as [|row table [IH1 IH2]]; [by split|].
  cbn [List.filter]. destruct (sc_incident row =? incident_id) eqn:E; cbn [negb].
  - by split.
  - cbn [List.filter]. rewrite E. cbn [negb]. split; [exact IH1|]. by rewrite IH2.
Qed.

(** X22: with the lock obtained and the incident in place,
    [calculate_incident_suspects] leaves the table with, as the rows of
    the incident, the suspect commits in their order, ranked from 0 on,
    whatever rows the incident had; the rows of the other incidents stay
    as they were. *)
Theorem calculate_incident_suspects_replaces acquire incidents get_incident_suspect_commits
        incident_id incident table :
  acquire ("incident:suspects:" ++ str_of_int incident_id)%string = true ->
  incidents !! incident_id = Some incident ->
  exists table',
    calculate_incident_suspects acquire incidents get_incident_suspect_commits
      incident_id table = (inr tt, table')
    /\ List.filter (fun row => sc_incident row =? incident_id) table'
       = imap (fun i commit_id => mkSuspectCommit incident_id commit_id i)
              (get_incident_suspect_commits incident)
    /\ sc_order <$> List.filter (fun row => sc_incident row =? incident_id) table'
       = seq 0 (length (get_incident_suspect_commits incident))
    /\ List.filter (fun row => negb (sc_incident row =? incident_id)) table'
       = List.filter (fun row => negb (sc_incident row =? incident_id)) table.
Proof.
  intros Hlock Hinc. unfold calculate_incident_suspects. rewrite Hlock, Hinc.
  eexists. split; [reflexivity|].
  destruct (imap_filter_own incident_id (get_incident_suspect_commits incident))
    as [Hown Hout].
  destruct (filter_filter_out incident_id table) as [Hnone Hsame].
  rewrite !List.filter_app, Hown, Hout, Hnone, Hsame, app_nil_r. cbn [app].
  split; [reflexivity|]. split; [|reflexivity].
  rewrite fmap_imap.
  rewrite (imap_ext _ (fun (j : nat) (_ : Z) => j)) by done.
  rewrite (imap_seq_0 _ (fun j : nat => j)). apply list_fmap_id.
Qed.

(** X23: running [calculate_incident_suspects] again, with the same
    suspect commits, leaves the table as the first run left it. *)
Theorem calculate_incident_suspects_again acquire incidents get_incident_suspect_commits
        incident_id incident table :
  acquire ("incident:suspects:" ++ str_of_int incident_id)%string = true ->
  incidents !! incident_id = Some incident ->
  exists table',
    calculate_incident_suspects acquire incidents get_incident_suspect_commits
      incident_id table = (inr tt, table')
    /\ calculate_incident_suspects acquire incidents get_incident_suspect_commits
         incident_id table' = (inr tt, table').
Proof.
  intros Hlock Hinc. unfold calculate_incident_suspects. rewrite Hlock, Hinc.
  eexists. split; [reflexivity|]. f_equal.
  destruct (imap_filter_own incident_id (get_incident_suspect_commits incident))
    as [_ Hout].
  destruct (filter_filter_out incident_id table) as [_ Hsame].
  by rewrite List.filter_app, Hout, Hsame, app_nil_r.
Qed.

(** ** Deleting an alert rule *)

(** X24: [delete_alert_rule] runs a chunk of the deletion only for the
    alert rule it is called for, and only when the status of that rule is
    the one of a deletion in progress or of a pending deletion, under the
    transaction id it was given or, without one, the fresh one; and it
    schedules itself again only after a chunk that left more to delete,
    for the same rule, in 15 seconds, with the transaction id exactly as
    it was given. *)
Theorem delete_alert_rule_guarded DELETION_IN_PROGRESS PENDING_DELETION rules chunk uuid
        alert_rule_id transaction_id :
  let log := (delete_alert_rule DELETION_IN_PROGRESS PENDING_DELETION rules chunk uuid
                alert_rule_id transaction_id []).2 in
  (forall a t, Chunk a t ∈ log ->
     a = alert_rule_id
     /\ t = or_else transaction_id uuid
     /\ exists status, rules !! alert_rule_id = Some status
                       /\ (status = DELETION_IN_PROGRESS \/ status = PENDING_DELETION))
  /\ (forall a t c, ApplyAsync a t c ∈ log ->
        a = alert_rule_id /\ t = transaction_id /\ c = 15
        /\ chunk alert_rule_id (or_else transaction_id uuid) = true
        /\ Chunk alert_rule_id (or_else transaction_id uuid) ∈ log).
Proof.
  cbv zeta. unfold delete_alert_rule.
  destruct (rules !! alert_rule_id) as [status|] eqn:Hrule.
  2:{ cbn. split; intros; by apply elem_of_nil in H. }
  destruct ((status =? DELETION_IN_PROGRESS) || (status =? PENDING_DELETION)) eqn:Hst;
    cbn [negb].
  2:{ cbn. split; intros; by apply elem_of_nil in H. }
  assert (Hstatus : status = DELETION_IN_PROGRESS \/ status = PENDING_DELETION).
  { apply orb_prop in Hst as [H|H]; apply Z.eqb_eq in H; auto. }
  unfold mbind, Task_bind, act. cbn [app].
  destruct (chunk alert_rule_id (or_else transaction_id uuid)) eqn:Hmore; cbn [snd app].
  - split.
    + intros a t Hin. apply elem_of_cons in Hin as [[= -> ->]|Hin]; [by eauto|].
      apply elem_of_cons in Hin as [?|Hin]; [discriminate|]. by apply elem_of_nil in Hin.
    + intros a t c Hin. apply elem_of_cons in Hin as [?|Hin]; [discriminate|].
      apply elem_of_cons in Hin as [[= -> -> ->]|Hin]; [|by apply elem_of_nil in Hin].
      repeat split. apply list_elem_of_here.
  - split.
    + intros a t Hin. apply elem_of_cons in Hin as [[= -> ->]|Hin]; [by eauto|].
      by apply elem_of_nil in Hin.
    + intros a t c Hin. apply elem_of_cons in Hin as [?|Hin]; [discriminate|].
      by apply elem_of_nil in Hin.
Qed.

Lemma send_subscriber_notifications_in_order_witness :
  ex_activities !! 55 = Some ex_activity
  /\ Forall (in_order (fun _ => [alice; bob; carol]) ex_access ex_activity)
       (send_subscriber_notifications 3 2 ex_status_name ex_incident_url
          ex_unsubscribe_link (fun _ => [alice; bob; carol]) ex_access
          ex_activities 55 []).2.
Proof.
  split; [reflexivity|].
  apply (send_subscriber_notifications_in_order 3 2 ex_status_name ex_incident_url
           ex_unsubscribe_link (fun _ => [alice; bob; carol]) ex_access
           ex_activities 55 ex_activity).
  reflexivity.
Defined.

Lemma send_subscriber_notifications_comment_witness :
  ex_activities !! 55 = Some ex_activity
  /\ activity_type ex_activity = 3
  /\ exists log,
       send_subscriber_notifications 3 2 ex_status_name ex_incident_url
         ex_unsubscribe_link (fun _ => [alice; bob; carol]) ex_access
         ex_activities 55 []
       = (inr tt, log)
       /\ (forall user,
             user ∈ [alice; bob; carol] ->
             has_access ex_access user (activity_incident ex_activity) = false ->
             Unsubscribe (incident_id (activity_incident ex_activity)) user ∈ log)
       /\ (forall user,
             user ∈ [alice; bob; carol] ->
             has_access ex_access user (activity_incident ex_activity) = true ->
             differs user (activity_user ex_activity) = true ->
             exists msg, SendAsync msg [user_email user] ∈ log)
       /\ length log
          = length (List.filter
                      (fun user =>
                         negb (has_access ex_access user (activity_incident ex_activity))
                         || differs user (activity_user ex_activity))
                      [alice; bob; carol]).
Proof.
  split; [reflexivity|]. split; [reflexivity|].
  apply (send_subscriber_notifications_comment 3 2 ex_status_name ex_incident_url
           ex_unsubscribe_link (fun _ => [alice; bob; carol]) ex_access
           ex_activities 55 ex_activity); reflexivity.
Defined.

(** The comment of Alice: Bob, who has access, gets the mail; Carol, who
    has none, is unsubscribed; Alice herself gets nothing. *)
Example send_subscriber_notifications_example :
  exists msg,
    send_subscriber_notifications 3 2 ex_status_name ex_incident_url
      ex_unsubscribe_link (fun _ => [alice; bob; carol]) ex_access ex_activities 55 []
    = (inr tt, [SendAsync msg ["bob@example.com"]; Unsubscribe 10 carol])
    /\ msg_subject msg = "Activity on Incident Spike of errors (#4)"
    /\ ctx_action (msg_context msg) = "left a comment on incident Spike of errors (#4)".
Proof. eexists. split; [by vm_compute|]. by split. Qed.

Lemma calculate_incident_suspects_replaces_witness :
  (fun _ : string => true) ("incident:suspects:" ++ str_of_int 10)%string = true
  /\ ({[ 10 := ex_incident ]} : gmap Z Incident) !! 10 = Some ex_incident
  /\ exists table',
       calculate_incident_suspects (fun _ => true) {[ 10 := ex_incident ]}
         (fun _ => [5; 6; 7]) 10 ex_table = (inr tt, table')
       /\ List.filter (fun row => sc_incident row =? 10) table'
          = imap (fun i commit_id => mkSuspectCommit 10 commit_id i) [5; 6; 7]
       /\ sc_order <$> List.filter (fun row => sc_incident row =? 10) table'
          = seq 0 (length [5; 6; 7])
       /\ List.filter (fun row => negb (sc_incident row =? 10)) table'
          = List.filter (fun row => negb (sc_incident row =? 10)) ex_table.
Proof.
  split; [reflexivity|]. split; [reflexivity|].
  apply (calculate_incident_suspects_replaces (fun _ => true) {[ 10 := ex_incident ]}
           (fun _ => [5; 6; 7]) 10 ex_incident ex_table); reflexivity.
Defined.

Lemma calculate_incident_suspects_again_witness :
  (fun _ : string => true) ("incident:suspects:" ++ str_of_int 10)%string = true
  /\ ({[ 10 := ex_incident ]} : gmap Z Incident) !! 10 = Some ex_incident
  /\ exists table',
       calculate_incident_suspects (fun _ => true) {[ 10 := ex_incident ]}
         (fun _ => [5; 6; 7]) 10 ex_table = (inr tt, table')
       /\ calculate_incident_suspects (fun _ => true) {[ 10 := ex_incident ]}
            (fun _ => [5; 6; 7]) 10 table' = (inr tt, table').
Proof.
  split; [reflexivity|]. split; [reflexivity|].
  apply (calculate_incident_suspects_again (fun _ => true) {[ 10 := ex_incident ]}
           (fun _ => [5; 6; 7]) 10 ex_incident ex_table); reflexivity.
Defined.

(** A rule that is not marked for deletion stops the task; a rule that is,
    with more to delete than one chunk, is scheduled again without the
    fresh transaction id. *)
Example delete_alert_rule_example :
  delete_alert_rule 4 5 {[ 1 := 0; 2 := 5 ]} (fun _ _ => true) "f00d" 1 None []
  = (inl DeleteAborted, [])
  /\ delete_alert_rule 4 5 {[ 1 := 0; 2 := 5 ]} (fun _ _ => true) "f00d" 2 None []
     = (inr tt, [Chunk 2 "f00d"; ApplyAsync 2 None 15])
  /\ delete_alert_rule 4 5 {[ 1 := 0; 2 := 5 ]} (fun _ _ => true) "f00d" 3 None []
     = (inr tt, []).
Proof. by vm_compute. Qed.

End IncidentsFacts.

(** * The bases of the project endpoints *)

Module ProjectBasesFacts.

Import ProjectBases.

(** ** Strings *)

Lemma append_nil (b : string) : ("" ++ b)%string = b.
Proof. reflexivity. Qed.

Lemma append_cons (c : ascii) (a b : string) :
  (String c a ++ b)%string = String c (a ++ b).
Proof. reflexivity. Qed.

Lemma length_append (a b : string) :
  String.length (a ++ b) = (String.length a + String.length b)%nat.
Proof.
  induction a as [|c a IH]; [done|].
  rewrite append_cons. cbn [String.length]. by rewrite IH.
Qed.

Lemma append_inj_length (a b x y : string) :
  String.length a = String.length b -> (a ++ x = b ++ y)%string -> a = b.
Proof.
  revert b. induction a as [|c a IH]; intros [|d b] Hlen Heq; try done.
  rewrite !append_cons in Heq. cbn in Hlen. injection Heq as -> Heq.
  f_equal. apply IH; [lia|done].
Qed.

Lemma append_inj_r (a x y : string) : (a ++ x = a ++ y)%string -> x = y.
Proof.
  induction a as [|c a IH]; [done|]. rewrite !append_cons. intros [= H]. by apply IH.
Qed.

Lemma append_slash_inj (a b : string) : (a ++ "/" = b ++ "/")%string -> a = b.
Proof.
  revert b. induction a as [|c a IH]; intros [|d b] H;
    rewrite ?append_cons, ?append_nil in H; try done.
  - injection H as _ H. by destruct b.
  - injection H as _ H. by destruct a.
  - injection H as -> H. f_equal. by apply IH.
Qed.

Lemma project_path_inj (organization_slug a b : string) :
  project_path organization_slug a = project_path organization_slug b -> a = b.
Proof.
  unfold project_path. intros H.
  apply (append_inj_r "projects/") in H. apply append_inj_r in H.
  apply (append_inj_r "/") in H. by apply append_slash_inj.
Qed.

Lemma strip_prefix_Some (p s rest : string) :
  strip_prefix p s = Some rest <-> s = (p ++ rest)%string.
Proof.
  revert s. induction p as [|a p IH]; intros s; cbn [strip_prefix].
  - rewrite append_nil. split; [by intros [= ->]|by intros ->].
  - rewrite append_cons. destruct s as [|b s]; [done|].
    destruct (Ascii.eqb_spec a b) as [->|Hne].
    + rewrite IH. split; [by intros ->|by intros [= ->]].
    + split; [done|]. intros [= -> _]. done.
Qed.

Lemma occursb_false (old s : string) : occursb old s = false -> ~ occurs old s.
Proof.
  induction s as [|c s IH]; cbn [occursb];
    destruct (strip_prefix old _) as [rest|] eqn:Hstrip; try done;
    intros H (pre & post & Heq).
  - destruct pre; [|done]. rewrite append_nil in Heq.
    apply strip_prefix_Some in Heq. congruence.
  - destruct pre as [|d pre].
    + rewrite append_nil in Heq. apply strip_prefix_Some in Heq. congruence.
    + rewrite append_cons in Heq. injection Heq as _ ->.
      apply (IH H). by exists pre, post.
Qed.

(** ** [str.replace] *)

Lemma replace_from_skip (old new pre rest : string) :
  replace_from old new (String.length pre) (pre ++ rest) = replace_from old new 0 rest.
Proof.
  induction pre as [|c pre IH]; [done|].
  rewrite append_cons. cbn [String.length replace_from]. exact IH.
Qed.

Section Replace.

Variable old new : string.
Hypothesis old_not_empty : old <> "".

Lemma replace_from_nil : replace_from old new 0 "" = "".
Proof. done. Qed.

Lemma replace_from_match (rest : string) :
  replace_from old new 0 (old ++ rest) = (new ++ replace_from old new 0 rest)%string.
Proof.
  destruct old as [|a old'] eqn:Eold; [done|].
  rewrite append_cons. cbn [replace_from].
  assert (strip_prefix (String a old') (String a (old' ++ rest)) = Some rest) as ->.
  { by apply strip_prefix_Some. }
  cbn [String.length]. rewrite Nat.sub_succ, Nat.sub_0_r. by rewrite replace_from_skip.
Qed.

Lemma replace_from_other (c : ascii) (s : string) :
  strip_prefix old (String c s) = None ->
  replace_from old new 0 (String c s) = String c (replace_from old new 0 s).
Proof. intros H. cbn [replace_from]. by rewrite H. Qed.

(** The three cases of a replacement. *)
Lemma replace_from_ind (P : string -> string -> Prop) :
  P "" "" ->
  (forall rest r, P rest r -> P (old ++ rest)%string (new ++ r)%string) ->
  (forall c s r, strip_prefix old (String c s) = None -> P s r -> P (String c s) (String c r)) ->
  forall s, P s (replace_from old new 0 s).
Proof.
  intros Hnil Hmatch Hother s.
  remember (String.length s) as n eqn:Hn.
  assert (Hle : (String.length s <= n)%nat) by lia. clear Hn.
  revert s Hle. induction n as [|n IH]; intros s Hle.
  { destruct s; [exact Hnil|cbn [String.length] in Hle; lia]. }
  destruct s as [|c s]; [exact Hnil|].
  destruct (strip_prefix old (String c s)) as [rest|] eqn:Hstrip.
  - apply strip_prefix_Some in Hstrip. rewrite Hstrip, replace_from_match.
    apply Hmatch, IH.
    assert (String.length (String c s) = String.length (old ++ rest)) as Hlen
      by by rewrite Hstrip.
    rewrite length_append in Hlen. cbn [String.length] in Hlen, Hle.
    destruct old; [done|]. cbn [String.length] in Hlen. lia.
  - rewrite (replace_from_other _ _ Hstrip). apply Hother; [done|].
    apply IH. cbn [String.length] in Hle. lia.
Qed.

Lemma occurs_further (c : ascii) (s : string) :
  strip_prefix old (String c s) = None -> occurs old (String c s) -> occurs old s.
Proof.
  intros Hstrip (pre & post & Heq). destruct pre as [|d pre].
  - rewrite append_nil in Heq. apply strip_prefix_Some in Heq. congruence.
  - rewrite append_cons in Heq. injection Heq as _ ->. by exists pre, post.
Qed.

(** Without an occurrence of the pattern the string stays as it is. *)
Lemma replace_from_absent (s : string) :
  ~ occurs old s -> replace_from old new 0 s = s.
Proof.
  apply (replace_from_ind (fun s r => ~ occurs old s -> r = s)).
  - done.
  - intros rest r _ Hno. destruct Hno. by exists "", rest.
  - intros c s' r _ IH Hno. f_equal. apply IH.
    intros (pre & post & ->). apply Hno. by exists (String c pre), post.
Qed.

(** With an occurrence, and another string put for it, the string
    changes. *)
Lemma replace_from_present (s : string) :
  (String.length old <= String.length new ->
   String.length s <= String.length (replace_from old new 0 s))%nat
  /\ (String.length new <= String.length old ->
      String.length (replace_from old new 0 s) <= String.length s)%nat
  /\ (old <> new -> occurs old s -> replace_from old new 0 s <> s).
Proof.
  apply (replace_from_ind (fun s r =>
    (String.length old <= String.length new -> String.length s <= String.length r)%nat
    /\ (String.length new <= String.length old -> String.length r <= String.length s)%nat
    /\ (old <> new -> occurs old s -> r <> s))).
  - repeat split; [done|done|]. intros _ (pre & post & H).
    destruct pre; [|done]. rewrite append_nil in H. destruct old; done.
  - intros rest r (Hge & Hle & _). rewrite !length_append. repeat split.
    + intros H. specialize (Hge H). lia.
    + intros H. specialize (Hle H). lia.
    + intros Hne _ Heq.
      destruct (Nat.lt_trichotomy (String.length old) (String.length new)) as [Hlt|[Hlen|Hgt]].
      * assert (Hl := f_equal String.length Heq). rewrite !length_append in Hl.
        assert (String.length rest <= String.length r)%nat by (apply Hge; lia). lia.
      * apply Hne. symmetry. by apply (append_inj_length _ _ r rest).
      * assert (Hl := f_equal String.length Heq). rewrite !length_append in Hl.
        assert (String.length r <= String.length rest)%nat by (apply Hle; lia). lia.
  - intros c s' r Hstrip (Hge & Hle & Hch). cbn [String.length]. repeat split.
    + intros H. specialize (Hge H). lia.
    + intros H. specialize (Hle H). lia.
    + intros Hne Hocc [= Heq]. by apply (Hch Hne (occurs_further _ _ Hstrip Hocc)).
Qed.

End Replace.

(** Putting a pattern for itself changes nothing. *)
Lemma replace_from_same (old s : string) : old <> "" -> replace_from old old 0 s = s.
Proof.
  intros Hold. apply (replace_from_ind old old Hold (fun s r => r = s)).
  - done.
  - by intros rest r ->.
  - by intros c s' r _ ->.
Qed.

Lemma project_path_not_empty (organization_slug project_slug : string) :
  project_path organization_slug project_slug <> "".
Proof. done. Qed.

Lemma str_replace_path (s organization_slug a b : string) :
  str_replace s (project_path organization_slug a) (project_path organization_slug b)
  = replace_from (project_path organization_slug a) (project_path organization_slug b) 0 s.
Proof. done. Qed.

(** ** The scopes of the classes of permission *)

(** X25: in every class of permission of the module, a scope that allows
    [DELETE] allows [PUT], the scopes for [PUT] are those for [POST], and
    a scope that allows [POST] allows [GET]; and each of the four methods
    has a scope. *)
Theorem scope_map_nested (self : Permission) (scope : string) :
  (scope ∈ scopes self "DELETE" -> scope ∈ scopes self "PUT")
  /\ scopes self "PUT" = scopes self "POST"
  /\ (scope ∈ scopes self "POST" -> scope ∈ scopes self "GET")
  /\ Forall (fun method => scopes self method <> []) ["GET"; "POST"; "PUT"; "DELETE"].
Proof.
  assert (Hin : forall l1 l2 : list string,
             forallb (fun x => bool_decide (x ∈ l2)) l1 = true ->
             scope ∈ l1 -> scope ∈ l2).
  { intros l1 l2 H Hs. rewrite forallb_forall in H.
    apply (bool_decide_eq_true_1 (scope ∈ l2)), H. by apply list_elem_of_In. }
  destruct self;
    (split; [apply Hin; by vm_compute|];
     split; [by vm_compute|];
     split; [apply Hin; by vm_compute|];
     repeat constructor; by vm_compute).
Qed.

(** X26: [StrictProjectPermission] asks for more than [ProjectPermission]
    and this one for more than [ProjectSettingPermission],
    [ProjectReleasePermission] and [RelaxedSearchPermission]: for every
    method, a scope the stricter class accepts is accepted by the
    other. *)
Theorem scope_map_stricter (method scope : string) :
  (scope ∈ scopes StrictProjectPermission method ->
   scope ∈ scopes ProjectPermission method)
  /\ (scope ∈ scopes ProjectPermission method ->
      scope ∈ scopes ProjectSettingPermission method
      /\ scope ∈ scopes ProjectReleasePermission method
      /\ scope ∈ scopes RelaxedSearchPermission method).
Proof.
  assert (Hin : forall l1 l2 : list string,
             forallb (fun x => bool_decide (x ∈ l2)) l1 = true ->
             scope ∈ l1 -> scope ∈ l2).
  { intros l1 l2 H Hs. rewrite forallb_forall in H.
    apply (bool_decide_eq_true_1 (scope ∈ l2)), H. by apply list_elem_of_In. }
  assert (Hcases : method = "GET" \/ method = "POST" \/ method = "PUT"
                   \/ method = "DELETE"
                   \/ forall self, scope_map self !! method = None).
  { destruct (decide (method = "GET")) as [|H1]; [by auto|].
    destruct (decide (method = "POST")) as [|H2]; [by auto|].
    destruct (decide (method = "PUT")) as [|H3]; [by auto|].
    destruct (decide (method = "DELETE")) as [|H4]; [by auto|].
    do 4 right. intros self. destruct self; cbn [scope_map];
      by rewrite !lookup_insert_ne, lookup_singleton_ne by done. }
  destruct Hcases as [->|[->|[->|[->|Hnone]]]].
  1-4: split; [apply Hin; by vm_compute|];
       intros H; repeat split; revert H; apply Hin; by vm_compute.
  unfold scopes. rewrite !Hnone. cbn. split; [done|]. intros H. by apply elem_of_nil in H.
Qed.

Section WithModels.

Variable organization_has_object_permission : Request -> Organization -> Error + bool.
Variable has_team_permission : Request -> Z -> gmap string (list string) -> bool.
Variable is_system_auth : option Auth -> bool.
Variable is_active_superuser : Request -> bool.
Variable member_roles : Organization -> Z -> list string.
Variable role_is_global : string -> Error + bool.
Variable VISIBLE : Z.
Variable check_object_permissions : Request -> Project -> Error + unit.

(** ** The permission on a project *)

(** X27: when [has_object_permission] grants, the permission on the
    organization is granted, and: a project with teams has a team that
    grants, whatever the request is authenticated with; a project
    without teams is asked for with the authentication of the system, or
    by a user who is an active superuser or the one member of the
    organization with that user and a global role, or, with no user, with
    an authentication for this very project. *)
Theorem has_object_permission_grounds (self : Permission) (request : Request)
        (project : Project) :
  has_object_permission organization_has_object_permission has_team_permission
    is_system_auth is_active_superuser member_roles role_is_global
    self request project = inr true ->
  organization_has_object_permission request (proj_organization project) = inr true
  /\ ((exists team,
         team ∈ proj_teams project
         /\ has_team_permission request team (scope_map self) = true)
      \/ (proj_teams project = []
          /\ (is_system_auth (request_auth request) = true
              \/ (request_user_is_authenticated request = true
                  /\ (is_active_superuser request = true
                      \/ exists role,
                           member_roles (proj_organization project) (request_user request)
                           = [role]
                           /\ role_is_global role = inr true))
              \/ (request_user_is_authenticated request = false
                  /\ exists auth,
                       request_auth request = Some auth
                       /\ auth_project_id auth = Some (proj_id project))))).
Proof.
  unfold has_object_permission.
  destruct (organization_has_object_permission _ _) as [e|[|]]; [done| |done].
  intros H. split; [done|].
  destruct (proj_teams project) as [|team teams] eqn:Hteams.
  - right. split; [done|].
    destruct (is_system_auth _); [by left|]. right.
    destruct (request_user_is_authenticated request).
    + left. split; [done|]. destruct (is_active_superuser request); [by left|]. right.
      destruct (member_roles _ _) as [|role [|]]; cbn [get_one] in H; [done| |done].
      by exists role.
    + right. split; [done|].
      destruct (request_auth request) as [[name [p|]]|]; [|done|done].
      injection H as H. apply Z.eqb_eq in H as ->. by eexists.
  - left.
    assert (H' : existsb (fun t => has_team_permission request t (scope_map self))
                   (team :: teams) = true) by (by injection H).
    apply existsb_exists in H' as (t & Ht & Hperm).
    exists t. split; [by apply list_elem_of_In|done].
Qed.

(** ** The project of an address *)

Local Abbreviation convert := (convert_args VISIBLE check_object_permissions).

Lemma get_one_Some {A : Type} (rows : list A) (row : A) :
  get_one rows = inr (Some row) -> rows = [row].
Proof. destruct rows as [|x [|]]; cbn; congruence. Qed.

(** X28: [convert_args] returns only for a project of that organization
    and slug that is visible and on which the permissions are granted;
    it gives back the positional arguments as they are and the keyword
    arguments with the project under [project], has tagged the scope with
    the project and its organization, leaving the other tags, and has set
    the organization of the request. *)
Theorem convert_args_returns projects redirects organization_slug project_slug
        args kwargs env args' kwargs' env' :
  convert projects redirects organization_slug project_slug args kwargs env
  = (inr (args', kwargs'), env') ->
  exists project,
    project ∈ projects
    /\ org_slug (proj_organization project) = organization_slug
    /\ proj_slug project = project_slug
    /\ proj_status project = VISIBLE
    /\ check_object_permissions (env_request env) project = inr tt
    /\ args' = args
    /\ kwargs' = <[ "project" := ArgProject project ]> kwargs
    /\ env_tags env' !! "project" = Some (proj_id project)
    /\ env_tags env' !! "organization" = Some (org_id (proj_organization project))
    /\ (forall tag, tag <> "project" -> tag <> "organization" ->
          env_tags env' !! tag = env_tags env !! tag)
    /\ request_organization (env_request env') = Some (proj_organization project)
    /\ request_full_path (env_request env') = request_full_path (env_request env).
Proof.
  unfold convert_args, find_project.
  destruct (get_project projects organization_slug project_slug)
    as [e|[project|]] eqn:Hget; [done| |].
  2:{ destruct (get_redirect _ _ _) as [e|[redirect|]]; [done| |done].
      cbv zeta. by destruct (negb _). }
  destruct (proj_status project =? VISIBLE) eqn:Hvis; cbn [negb]; [|done].
  destruct (check_object_permissions _ _) as [e|[]] eqn:Hcheck; [done|].
  intros [= <- <- <-]. exists project.
  apply get_one_Some in Hget.
  assert (Hin : project ∈ List.filter
                  (fun p => String.eqb (org_slug (proj_organization p)) organization_slug
                            && String.eqb (proj_slug p) project_slug) projects).
  { rewrite Hget. apply list_elem_of_here. }
  apply list_elem_of_In, filter_In in Hin as [Hin Hslugs].
  apply andb_prop in Hslugs as [Ho Hs].
  apply String.eqb_eq in Ho, Hs. apply Z.eqb_eq in Hvis.
  cbn [env_tags env_request request_organization request_full_path].
  repeat split; try done.
  - by apply list_elem_of_In.
  - by rewrite lookup_insert_ne, lookup_insert_eq.
  - by rewrite lookup_insert_eq.
  - intros tag H1 H2. by rewrite !lookup_insert_ne.
Qed.

(** X29: when no project has the slug and one redirect has it, for a
    project with another slug, and the address asked for holds the path
    of the project under the old slug, [convert_args] raises
    [ProjectMoved] with the address where each such path is the path
    under the new slug, which is another address, and with the new slug;
    nothing is written. *)
Theorem convert_args_moved projects redirects organization_slug project_slug
        args kwargs env redirect :
  get_project projects organization_slug project_slug = inr None ->
  get_redirect redirects organization_slug project_slug = inr (Some redirect) ->
  proj_slug (redirect_project redirect) <> project_slug ->
  occurs (project_path organization_slug project_slug)
         (request_full_path (env_request env)) ->
  let new_url :=
    str_replace (request_full_path (env_request env))
      (project_path organization_slug project_slug)
      (project_path organization_slug (proj_slug (redirect_project redirect))) in
  convert projects redirects organization_slug project_slug args kwargs env
  = (inl (ProjectMoved new_url (proj_slug (redirect_project redirect))), env)
  /\ new_url <> request_full_path (env_request env).
Proof.
  intros Hget Hred Hslug Hocc new_url.
  assert (Hnew : new_url <> request_full_path (env_request env)).
  { unfold new_url. rewrite str_replace_path.
    apply replace_from_present; [done| |done].
    intros Heq. apply project_path_inj in Heq. congruence. }
  split; [|exact Hnew].
  unfold convert_args, find_project. rewrite Hget, Hred. cbv zeta.
  fold new_url.
  destruct (String.eqb_spec (request_full_path (env_request env)) new_url) as [Heq|_];
    [by symmetry in Heq|done].
Qed.

(** X30: when no project has the slug and one redirect has it, but the
    address asked for does not hold the path of the project under the old
    slug, or the project of the redirect has that same slug,
    [convert_args] raises [ResourceDoesNotExist]. *)
Theorem convert_args_not_moved projects redirects organization_slug project_slug
        args kwargs env redirect :
  get_project projects organization_slug project_slug = inr None ->
  get_redirect redirects organization_slug project_slug = inr (Some redirect) ->
  (~ occurs (project_path organization_slug project_slug)
            (request_full_path (env_request env))
   \/ proj_slug (redirect_project redirect) = project_slug) ->
  convert projects redirects organization_slug project_slug args kwargs env
  = (inl ResourceDoesNotExist, env).
Proof.
  intros Hget Hred Hcase.
  unfold convert_args, find_project. rewrite Hget, Hred. cbv zeta.
  rewrite str_replace_path.
  assert (replace_from (project_path organization_slug project_slug)
            (project_path organization_slug (proj_slug (redirect_project redirect))) 0
            (request_full_path (env_request env))
          = request_full_path (env_request env)) as ->.
  { destruct Hcase as [Hno| ->].
    - by apply replace_from_absent.
    - by apply replace_from_same. }
  by rewrite String.eqb_refl.
Qed.

End WithModels.

(** ** Examples *)

Lemma ex_no_api : get_project ex_projects "acme" "api" = inr None.
Proof. reflexivity. Qed.

Lemma ex_redirect_api :
  get_redirect ex_redirects "acme" "api" = inr (Some (mkProjectRedirect acme "api" backend)).
Proof. reflexivity. Qed.

(** An owner of the organization asks for a project without teams. *)
Lemma has_object_permission_grounds_witness :
  has_object_permission (fun _ _ => inr true) (fun _ _ _ => false) (fun _ => false)
    (fun _ => false) (fun _ _ => ["owner"]) (fun _ => inr true)
    ProjectPermission (ex_request "/") backend = inr true
  /\ (inr true : Error + bool) = inr true
  /\ ((exists team, team ∈ proj_teams backend /\ false = true)
      \/ (proj_teams backend = []
          /\ (false = true
              \/ (request_user_is_authenticated (ex_request "/") = true
                  /\ (false = true
                      \/ exists role,
                           ["owner"] = [role] /\ (inr true : Error + bool) = inr true))
              \/ (request_user_is_authenticated (ex_request "/") = false
                  /\ exists auth,
                       request_auth (ex_request "/") = Some auth
                       /\ auth_project_id auth = Some (proj_id backend))))).
Proof.
  split; [reflexivity|].
  apply (has_object_permission_grounds (fun _ _ => inr true) (fun _ _ _ => false)
           (fun _ => false) (fun _ => false) (fun _ _ => ["owner"]) (fun _ => inr true)
           ProjectPermission (ex_request "/") backend).
  reflexivity.
Defined.

Lemma convert_args_returns_witness :
  convert_args 0 ex_check ex_projects ex_redirects "acme" "backend" [] ∅
    (ex_env "/api/0/projects/acme/backend/events/")
  = (inr ([], {[ "project" := ArgProject backend ]}),
     mkEnv (mkRequest 1 true None "/api/0/projects/acme/backend/events/" (Some acme))
           {[ "release" := 3; "project" := 7; "organization" := 100 ]})
  /\ exists project,
       project ∈ ex_projects
       /\ org_slug (proj_organization project) = "acme"
       /\ proj_slug project = "backend"
       /\ proj_status project = 0
       /\ ex_check (env_request (ex_env "/api/0/projects/acme/backend/events/")) project
          = inr tt
       /\ ([] : list PyVal) = []
       /\ ({[ "project" := ArgProject backend ]} : gmap string Arg)
          = <[ "project" := ArgProject project ]> ∅
       /\ ({[ "release" := 3; "project" := 7; "organization" := 100 ]} : gmap string Z)
            !! "project" = Some (proj_id project)
       /\ ({[ "release" := 3; "project" := 7; "organization" := 100 ]} : gmap string Z)
            !! "organization" = Some (org_id (proj_organization project))
       /\ (forall tag, tag <> "project" -> tag <> "organization" ->
             ({[ "release" := 3; "project" := 7; "organization" := 100 ]} : gmap string Z)
               !! tag
             = env_tags (ex_env "/api/0/projects/acme/backend/events/") !! tag)
       /\ Some acme = Some (proj_organization project)
       /\ "/api/0/projects/acme/backend/events/"
          = request_full_path (env_request (ex_env "/api/0/projects/acme/backend/events/")).
Proof.
  assert (H : convert_args 0 ex_check ex_projects ex_redirects "acme" "backend" [] ∅
                (ex_env "/api/0/projects/acme/backend/events/")
              = (inr ([], {[ "project" := ArgProject backend ]}),
                 mkEnv (mkRequest 1 true None "/api/0/projects/acme/backend/events/"
                          (Some acme))
                       {[ "release" := 3; "project" := 7; "organization" := 100 ]})).
  { by vm_compute. }
  split; [exact H|].
  exact (convert_args_returns 0 ex_check ex_projects ex_redirects "acme" "backend" [] ∅
           (ex_env "/api/0/projects/acme/backend/events/") _ _ _ H).
Defined.

Lemma convert_args_moved_witness :
  get_project ex_projects "acme" "api" = inr None
  /\ get_redirect ex_redirects "acme" "api"
     = inr (Some (mkProjectRedirect acme "api" backend))
  /\ proj_slug backend <> "api"
  /\ occurs (project_path "acme" "api") "/api/0/projects/acme/api/events/?query=x"
  /\ convert_args 0 ex_check ex_projects ex_redirects "acme" "api" [] ∅
       (ex_env "/api/0/projects/acme/api/events/?query=x")
     = (inl (ProjectMoved "/api/0/projects/acme/backend/events/?query=x" "backend"),
        ex_env "/api/0/projects/acme/api/events/?query=x").
Proof.
  split; [reflexivity|]. split; [reflexivity|]. split; [discriminate|].
  assert (Hocc : occurs (project_path "acme" "api")
                        "/api/0/projects/acme/api/events/?query=x").
  { by exists "/api/0/", "events/?query=x". }
  split; [exact Hocc|].
  apply (convert_args_moved 0 ex_check ex_projects ex_redirects "acme" "api" [] ∅
           (ex_env "/api/0/projects/acme/api/events/?query=x")
           (mkProjectRedirect acme "api" backend));
    [reflexivity|reflexivity|discriminate|exact Hocc].
Defined.

Lemma convert_args_not_moved_witness :
  get_project ex_projects "acme" "api" = inr None
  /\ get_redirect ex_redirects "acme" "api"
     = inr (Some (mkProjectRedirect acme "api" backend))
  /\ (~ occurs (project_path "acme" "api") "/organizations/acme/"
      \/ proj_slug backend = "api")
  /\ convert_args 0 ex_check ex_projects ex_redirects "acme" "api" [] ∅
       (ex_env "/organizations/acme/")
     = (inl ResourceDoesNotExist, ex_env "/organizations/acme/").
Proof.
  split; [reflexivity|]. split; [reflexivity|].
  assert (Hcase : ~ occurs (project_path "acme" "api") "/organizations/acme/"
                  \/ proj_slug backend = "api").
  { left. apply occursb_false. reflexivity. }
  split; [exact Hcase|].
  apply (convert_args_not_moved 0 ex_check ex_projects ex_redirects "acme" "api" [] ∅
           (ex_env "/organizations/acme/") (mkProjectRedirect acme "api" backend));
    [reflexivity|reflexivity|exact Hcase].
Defined.

(** A project that is not visible is reported as missing, before any
    permission is checked. *)
Example convert_args_hidden :
  convert_args 0 (fun _ _ => inl (Raised "PermissionDenied")) ex_projects ex_redirects
    "acme" "old-site" [] ∅ (ex_env "/api/0/projects/acme/old-site/")
  = (inl ResourceDoesNotExist, ex_env "/api/0/projects/acme/old-site/").
Proof. reflexivity. Qed.

(** [str.replace] replaces every occurrence, from the left. *)
Example str_replace_example :
  str_replace "aaa-aa" "aa" "b" = "ba-b"
  /\ str_replace "ab" "" "-" = "-a-b-"
  /\ str_replace "projects/a/b/projects/a/b/" "projects/a/b/" "projects/a/c/"
     = "projects/a/c/projects/a/c/".
Proof. by vm_compute. Qed.

End ProjectBasesFacts.
